(** * DriveWiper: the identity parser, the erase driver, the wipe
      orchestrator and the audit sink, embedded from the Python sources

    - [Docker/wiper/parsers/hdparm_parser.py]  -> Module [HdparmParser]
    - [Docker/wipe_drive.py]                   -> Module [WipeDrive]
    - [Docker/wiper/db_logger.py], [file_logger.py], [logging_manager.py]
                                               -> Module [LoggingManager]

    Python values are modelled by the type [pyval]; a Python [str] is the
    list of its code points; a [dict] is an insertion-ordered association
    list with unique keys.  Effects (commands run, files appended, console
    output, the clock) are recorded in a trace, and the answers of the
    outside world are given by oracles that see the trace so far.

    The definitions come first: the embedding of the sources, then the
    observations made on their runs ([ParserView], [WipeView], [SinkView])
    and the concrete inputs of the examples ([Samples]).  The lemmas and
    theorems follow, component by component. *)

From Stdlib Require Import List String Ascii ZArith NArith Bool Lia.
Import ListNotations.

Set Implicit Arguments.
Set Warnings "-register-all".

(* ===================================================================== *)
(** * Python strings *)
(* ===================================================================== *)

Module PyStr.

(** A [str] is a sequence of Unicode code points. *)
Definition pystr := list N.

(** An ASCII literal of the source as a [pystr]. *)
Definition py (s : string) : pystr :=
  map N_of_ascii (list_ascii_of_string s).

(** [a == b] on two strings *)
Fixpoint str_eqb (a b : pystr) : bool :=
  match a, b with
  | [], [] => true
  | x :: a', y :: b' => (x =? y)%N && str_eqb a' b'
  | _, _ => false
  end.

(** [str.isspace] for one code point: the characters that [str.strip()]
    removes. *)
Definition is_space (c : N) : bool :=
  (((9 <=? c) && (c <=? 13)) || ((28 <=? c) && (c <=? 32))
   || (c =? 133) || (c =? 160) || (c =? 5760)
   || ((8192 <=? c) && (c <=? 8202))
   || (c =? 8232) || (c =? 8233) || (c =? 8239) || (c =? 8287)
   || (c =? 12288))%N.

(** The line boundaries of [str.splitlines]. *)
Definition is_linebreak (c : N) : bool :=
  (((10 <=? c) && (c <=? 13)) || ((28 <=? c) && (c <=? 30))
   || (c =? 133) || (c =? 8232) || (c =? 8233))%N.

(** [s.splitlines()]: [cur] holds the current line in reverse.  A line is
    emitted at every boundary ("\r\n" counts once); what follows the last
    boundary is emitted only when it is not empty. *)
Fixpoint splitlines_aux (cur : pystr) (s : pystr) : list pystr :=
  match s with
  | [] => match cur with [] => [] | _ => [rev cur] end
  | c :: rest =>
      if is_linebreak c then
        rev cur ::
          (match rest with
           | c' :: rest' =>
               if (c =? 13) && (c' =? 10)
               then splitlines_aux [] rest'
               else splitlines_aux [] rest
           | [] => splitlines_aux [] rest
           end)
      else splitlines_aux (c :: cur) rest
  end%N.

Definition splitlines (s : pystr) : list pystr := splitlines_aux [] s.

Fixpoint lstrip (s : pystr) : pystr :=
  match s with
  | c :: rest => if is_space c then lstrip rest else s
  | [] => []
  end.

Definition rstrip (s : pystr) : pystr := rev (lstrip (rev s)).

(** [s.strip()] *)
Definition strip (s : pystr) : pystr := rstrip (lstrip s).

(** [s.startswith(p)] *)
Fixpoint startswith (p s : pystr) : bool :=
  match p, s with
  | [], _ => true
  | _ :: _, [] => false
  | a :: p', b :: s' => (a =? b)%N && startswith p' s'
  end.

(** The first occurrence of [sep] in [s]: the text before it and the text
    after it. *)
Fixpoint find_sub (sep s : pystr) : option (pystr * pystr) :=
  if startswith sep s then Some ([], skipn (List.length sep) s)
  else match s with
       | [] => None
       | c :: rest =>
           match find_sub sep rest with
           | Some (before, after) => Some (c :: before, after)
           | None => None
           end
       end.

(** [sep in s] *)
Definition contains (sep s : pystr) : bool :=
  match find_sub sep s with Some _ => true | None => false end.

(** [s.split(sep, 1)] for a non-empty [sep]. *)
Definition split1 (sep s : pystr) : list pystr :=
  match find_sub sep s with
  | Some (before, after) => [before; after]
  | None => [s]
  end.

Section Lower.
(** [str.lower] maps every code point to one to three code points.  For
    ASCII it is the A-Z rule below.  Outside ASCII it follows the Unicode
    case tables of the interpreter, which are not part of the repository
    and are taken as a parameter: [lower_nonascii s i] is the image of the
    code point at index [i] of [s] (the index is there because capital
    sigma is lowered by context). *)
Variable lower_nonascii : pystr -> nat -> pystr.

Definition lower_ascii (c : N) : N :=
  if ((65 <=? c) && (c <=? 90))%N then (c + 32)%N else c.

Fixpoint lower_from (whole : pystr) (i : nat) (s : pystr) : pystr :=
  match s with
  | [] => []
  | c :: rest =>
      (if (c <? 128)%N then [lower_ascii c] else lower_nonascii whole i)
        ++ lower_from whole (S i) rest
  end.

(** [s.lower()] *)
Definition lower (s : pystr) : pystr := lower_from s 0 s.
End Lower.

(** A code point that [str.lower] leaves alone whatever the case tables
    are: ASCII, and not a capital letter. *)
Definition plain (c : N) : bool :=
  ((c <? 128) && negb ((65 <=? c) && (c <=? 90)))%N.

End PyStr.
Export PyStr.

(* ===================================================================== *)
(** * Python values, dictionaries, outcomes *)
(* ===================================================================== *)

Module PyVal.

(** The values that occur in the records of the program: [None], [bool],
    [int], [str], [list] and [dict] with string keys. *)
Inductive pyval : Type :=
| VNone
| VBool (b : bool)
| VInt (z : Z)
| VStr (s : pystr)
| VList (l : list pyval)
| VDict (d : list (pystr * pyval)).

Definition dict := list (pystr * pyval).

(** [d.get(k)] on the entries of a dict *)
Fixpoint dict_get (k : pystr) (d : dict) : option pyval :=
  match d with
  | [] => None
  | (k', v) :: rest => if str_eqb k k' then Some v else dict_get k rest
  end.

(** [d[k] = v]: an existing key keeps its place, a new key goes last. *)
Fixpoint dict_set (k : pystr) (v : pyval) (d : dict) : dict :=
  match d with
  | [] => [(k, v)]
  | (k', v') :: rest =>
      if str_eqb k k' then (k', v) :: rest else (k', v') :: dict_set k v rest
  end.

(** [d.setdefault(k, v)] (the returned value is not used by the source) *)
Definition dict_setdefault (k : pystr) (v : pyval) (d : dict) : dict :=
  match dict_get k d with
  | Some _ => d
  | None => dict_set k v d
  end.

(** A dict display [{k1: v1, ..., kn: vn}]: the entries are stored from left
    to right, so a repeated key keeps its first place and its last value. *)
Definition dict_of (entries : list (pystr * pyval)) : dict :=
  fold_left (fun d kv => dict_set (fst kv) (snd kv) d) entries [].

Definition dict_keys (d : dict) : list pystr := map fst d.

(** Truth value of an object, as [if x], [x or y], [not x] and [bool(x)]
    use it. *)
Definition truthy (v : pyval) : bool :=
  match v with
  | VNone => false
  | VBool b => b
  | VInt z => negb (z =? 0)%Z
  | VStr s => match s with [] => false | _ => true end
  | VList l => match l with [] => false | _ => true end
  | VDict d => match d with [] => false | _ => true end
  end.

(** [a or b] *)
Definition py_or (a b : pyval) : pyval := if truthy a then a else b.

Definition opt_val (o : option pyval) : pyval :=
  match o with Some v => v | None => VNone end.

Definition opt_str (o : option pystr) : pyval :=
  match o with Some s => VStr s | None => VNone end.

(** Exceptions the modelled code can meet. *)
Inductive exn : Type :=
| IndexError | KeyError | AttributeError | RuntimeError
| FileNotFoundError | OSError | EOFError | ValueError | DatabaseError.

(** How a call ends: it returns, raises an [Exception], or leaves the
    process through [sys.exit(code)] ([SystemExit] is not an [Exception],
    so [except Exception] does not catch it). *)
Inductive outcome (A : Type) : Type :=
| Ret (a : A)
| Raise (e : exn)
| Exit (code : Z).
Arguments Ret {A} a.
Arguments Raise {A} e.
Arguments Exit {A} code.

(** [l[i]] on a list *)
Definition py_index {A} (l : list A) (i : nat) : outcome A :=
  match nth_error l i with
  | Some x => Ret x
  | None => Raise IndexError
  end.

End PyVal.
Export PyVal.

(** Bind of the [outcome] monad: a raise or an exit ends the computation. *)
Definition obind {A B} (m : outcome A) (k : A -> outcome B) : outcome B :=
  match m with
  | Ret a => k a
  | Raise e => Raise e
  | Exit c => Exit c
  end.

Declare Scope outcome_scope.
Delimit Scope outcome_scope with outcome.
Notation "'let?' x ':=' m 'in' k" := (obind m (fun x => k))
  (at level 10, x name, m at level 100, k at level 200) : outcome_scope.

(* ===================================================================== *)
(** * Effects: a state and error monad over the state of the world *)
(* ===================================================================== *)

Module Eff.
Section Monad.
(** [W] is the state a computation reads and changes: the trace of what
    happened so far and, for the audit sink, the module globals. *)
Variable W : Type.

Definition M (A : Type) : Type := W -> W * outcome A.

Definition ret {A} (a : A) : M A := fun w => (w, Ret a).

Definition bind {A B} (m : M A) (k : A -> M B) : M B :=
  fun w =>
    match m w with
    | (w1, Ret a) => k a w1
    | (w1, Raise e) => (w1, Raise e)
    | (w1, Exit c) => (w1, Exit c)
    end.

Definition raise {A} (e : exn) : M A := fun w => (w, Raise e).

(** [sys.exit(code)] *)
Definition sys_exit {A} (code : Z) : M A := fun w => (w, Exit code).

(** A pure computation that may raise. *)
Definition lift {A} (o : outcome A) : M A := fun w => (w, o).

(** [try: m  except Exception as e: handler e]; an exit passes through. *)
Definition try_except {A} (m : M A) (handler : exn -> M A) : M A :=
  fun w =>
    match m w with
    | (w1, Raise e) => handler e w1
    | r => r
    end.
End Monad.
Arguments ret {W A} a.
Arguments raise {W A} e.
Arguments sys_exit {W A} code.
Arguments lift {W A} o.
End Eff.
Import Eff.

Declare Scope eff_scope.
Delimit Scope eff_scope with eff.
Notation "x <- m ;; k" := (bind m (fun x => k))
  (at level 61, m at next level, right associativity) : eff_scope.
Notation "m ;; k" := (bind m (fun _ => k))
  (at level 61, right associativity) : eff_scope.

(* ===================================================================== *)
(** * wiper/parsers/hdparm_parser.py *)
(* ===================================================================== *)

Module HdparmParser.
Section Parser.
Variable lower_nonascii : pystr -> nat -> pystr.
Local Open Scope outcome_scope.

(** The two variables the loop of [parse_hdparm_identity] carries from
    line to line. *)
Record pstate : Type := PState { data : dict; in_security : bool }.

(** [data[key] = stripped.split(label, 1)[1].strip()] *)
Definition set_after_label (key label stripped : pystr) (d : dict)
  : outcome dict :=
  let? v := py_index (split1 label stripped) 1 in
  Ret (dict_set key (VStr (strip v)) d).

(** The [if / elif / elif] on the three identity labels. *)
Definition identity_fields (stripped : pystr) (d : dict) : outcome dict :=
  if startswith (py "Model Number:") stripped then
    set_after_label (py "model") (py "Model Number:") stripped d
  else if startswith (py "Serial Number:") stripped then
    set_after_label (py "serial") (py "Serial Number:") stripped d
  else if startswith (py "Firmware Revision:") stripped then
    set_after_label (py "firmware") (py "Firmware Revision:") stripped d
  else Ret d.

(** The best-effort size field. *)
Definition size_field (stripped : pystr) (d : dict) : outcome dict :=
  if contains (py "device size with M = 1000*1000:") stripped then
    let parts := split1 (py ":") stripped in
    if (List.length parts =? 2)%nat then
      let? v := py_index parts 1 in
      Ret (dict_set (py "reported_size_m10") (VStr (strip v)) d)
    else Ret d
  else Ret d.

(** [not ("not" in lower)] *)
Definition affirmed (low : pystr) : bool := negb (contains (py "not") low).

(** The flag assignments made for a line inside the security block;
    [low] is [stripped.lower()]. *)
Definition security_flags (stripped low : pystr) (d : dict) : dict :=
  let d :=
    if contains (py "supported") low
    then dict_set (py "security_supported") (VBool (affirmed low)) d
    else d in
  let d :=
    if startswith (py "enabled") low
    then dict_set (py "security_enabled") (VBool (affirmed low)) d
    else d in
  let d :=
    if startswith (py "locked") low
    then dict_set (py "security_locked") (VBool (affirmed low)) d
    else d in
  let d :=
    if startswith (py "frozen") low
    then dict_set (py "security_frozen") (VBool (affirmed low)) d
    else d in
  let d :=
    if contains (py "enhanced erase") low
    then dict_set (py "enhanced_erase_supported") (VBool (affirmed low)) d
    else d in
  if contains (py "erase time") low
     || contains (py "security erase unit") low
  then dict_setdefault (py "erase_time_raw") (VStr stripped) d
  else d.

(** [line.startswith((" ", "\t"))] *)
Definition indented (line : pystr) : bool :=
  startswith (py " ") line || startswith [9%N] line.

(** [stripped] as a condition: a non-empty string is true. *)
Definition nonblank (stripped : pystr) : bool :=
  match stripped with [] => false | _ => true end.

(** One iteration of the [for line in lines] loop. *)
Definition parse_line (st : pstate) (line : pystr) : outcome pstate :=
  let stripped := strip line in
  let? d := identity_fields stripped (data st) in
  let? d := size_field stripped d in
  if startswith (py "Security:") stripped then
    Ret (PState d true)                       (* continue *)
  else if in_security st then
    if nonblank stripped && negb (indented line) then
      Ret (PState d false)                    (* continue *)
    else
      Ret (PState (security_flags stripped (lower lower_nonascii stripped) d)
                  true)
  else Ret (PState d false).

(** The loop over the lines. *)
Fixpoint parse_lines (st : pstate) (lines : list pystr) : outcome pstate :=
  match lines with
  | [] => Ret st
  | line :: rest =>
      let? st' := parse_line st line in
      parse_lines st' rest
  end.

(** The state on entry to the loop. *)
Definition initial (text : pystr) : pstate :=
  PState (dict_of [(py "raw", VStr text)]) false.

Definition parse_hdparm_identity (text : pystr) : outcome dict :=
  let? st := parse_lines (initial text) (splitlines text) in
  Ret (data st).

End Parser.
End HdparmParser.


(* ===================================================================== *)
(** * Observing the parser *)
(* ===================================================================== *)

Module ParserView.
Import HdparmParser.

(** A dict update made by the parser that leaves the key [k] alone. *)
Inductive touches (k : pystr) : dict -> dict -> Prop :=
| touches_refl d : touches k d d
| touches_set d k' v : str_eqb k k' = false ->
                       touches k d (dict_set k' v d)
| touches_setdefault d k' v : str_eqb k k' = false ->
                              touches k d (dict_setdefault k' v d)
| touches_trans d1 d2 d3 : touches k d1 d2 -> touches k d2 d3 ->
                           touches k d1 d3.

(** The lines that reach the flag assignments of the security block: the
    parser is in security-block mode, the line is not a "Security:"
    header, and it is blank or indented. *)
Definition security_block_line (st : pstate) (line : pystr) : Prop :=
  in_security st = true
  /\ startswith (py "Security:") (strip line) = false
  /\ nonblank (strip line) && negb (indented line) = false.

(** The loop state of [parse_hdparm_identity] after the first [k] lines of
    [text]. *)
Definition state_after (lower_nonascii : pystr -> nat -> pystr)
    (text : pystr) (k : nat) : outcome pstate :=
  parse_lines lower_nonascii (initial text) (firstn k (splitlines text)).

(** Once a line has switched [in_security] from true to false (only an
    unindented non-blank line does that), the flag is false after every
    later line of the same text. *)
Definition never_reenters (lower_nonascii : pystr -> nat -> pystr)
    (text : pystr) : Prop :=
  forall (i j : nat) (st_i st_next st_j : pstate),
    state_after lower_nonascii text i = Ret st_i ->
    in_security st_i = true ->
    state_after lower_nonascii text (S i) = Ret st_next ->
    in_security st_next = false ->
    (S i <= j)%nat ->
    state_after lower_nonascii text j = Ret st_j ->
    in_security st_j = false.

End ParserView.

(* ===================================================================== *)
(** * wipe_drive.py *)
(* ===================================================================== *)

Module WipeDrive.

(** [subprocess.CompletedProcess], with the fields the program reads. *)
Record CompletedProcess : Type :=
  { returncode : Z; stdout : pystr; stderr : pystr }.

Inductive stream : Type := Stdout | Stderr.

(** A piece of a printed f-string: literal text or an interpolated value. *)
Inductive piece : Type :=
| Lit (s : pystr) | Fmt (v : pyval) | FmtExn (e : exn).

(** What the program does to the outside world, with the answer it got. *)
Inductive event : Type :=
| EvExists (path : pystr) (res : bool)
| EvInput (prompt : list piece) (res : pystr + exn)
| EvRun (cmd : list pystr) (res : CompletedProcess + exn)
| EvClock (res : pystr)
| EvSampleHash (device : pystr) (num_bytes : Z)
    (** entry into [sample_hash]; it has no output of its own in the source
        and is recorded so that "the sampler is invoked" can be stated *)
| EvOpen (device : pystr) (res : option exn)
| EvRead (device : pystr) (n : Z) (res : list Byte.byte + exn)
| EvPrint (to : stream) (text : list piece) (res : option exn)
| EvMkdir (path : pystr) (res : option exn)
| EvAppend (path : pystr) (record : dict) (res : option exn).

Definition trace := list event.

(** The outside world: every answer may depend on all that happened
    before. *)
Record env : Type :=
  { path_exists : trace -> pystr -> bool;
    stdin_line : trace -> pystr + exn;
    run_process : trace -> list pystr -> CompletedProcess + exn;
    clock : trace -> pystr;
    dev_open : trace -> pystr -> option exn;
    dev_read : trace -> pystr -> Z -> list Byte.byte + exn;
    fs_mkdir : trace -> pystr -> option exn;
    fs_append : trace -> pystr -> dict -> option exn;
    console : trace -> stream -> list piece -> option exn }.

Section Program.
Variable lower_nonascii : pystr -> nat -> pystr.
(** [hashlib.sha256(data).hexdigest()] *)
Variable sha256_hex : list Byte.byte -> pystr.
(** [json.loads] of the [lsblk -J] output followed by the [walk] over the
    block devices in [list_drives]: the list of device dicts, or the
    exception raised on the way. *)
Variable lsblk_devices : pystr -> outcome (list dict).
Variable E : env.

Local Open Scope eff_scope.
Local Abbreviation M := (Eff.M trace).

Definition emit (e : event) : M unit := fun t => (t ++ [e], Ret tt).

(** An action on the outside world: the oracle answers from what
    happened so far, the event records the answer, and [k] turns the
    answer into a return value or an exception. *)
Definition ask {R A} (oracle : trace -> R) (ev : R -> event)
    (k : R -> outcome A) : M A :=
  fun t => let r := oracle t in (t ++ [ev r], k r).

Definition or_raise {A} (r : A + exn) : outcome A :=
  match r with inl a => Ret a | inr e => Raise e end.

Definition unless_raised (r : option exn) : outcome unit :=
  match r with None => Ret tt | Some e => Raise e end.

(** [print(..., file=to)]: the stream may refuse the write (a closed or
    broken pipe raises [OSError]); the event records the answer. *)
Definition print (to : stream) (text : list piece) : M unit :=
  ask (fun t => console E t to text) (EvPrint to text) unless_raised.

Definition LOG_DIR : pystr := py "/var/wipelog".
Definition DEFAULT_SAMPLE_BYTES : Z := 10 * 1024 * 1024.

Definition utc_now_iso : M pystr := ask (clock E) EvClock Ret.

(** [subprocess.run(cmd, capture_output=True, text=True, check=False)] *)
Definition subprocess_run (cmd : list pystr) : M CompletedProcess :=
  ask (fun t => run_process E t cmd) (EvRun cmd) or_raise.

Definition run_cmd (cmd : list pystr) : M CompletedProcess :=
  try_except (subprocess_run cmd)
    (fun e =>
       match e with
       | FileNotFoundError =>
           c0 <- lift (py_index cmd 0) ;;
           print Stderr [Lit (py "[ERROR] Command not found: ");
                         Fmt (VStr c0)] ;;
           sys_exit 1
       | _ => raise e
       end).

Definition lsblk_cmd : list pystr :=
  [py "lsblk"; py "-J"; py "-o"; py "NAME,TYPE,SIZE,MODEL,SERIAL,TRAN"].

Definition list_drives : M (list dict) :=
  result <- run_cmd lsblk_cmd ;;
  if negb (returncode result =? 0)%Z then
    print Stderr [Lit (py "[ERROR] lsblk failed:");
                  Fmt (VStr (stderr result))] ;;
    sys_exit (returncode result)
  else lift (lsblk_devices (stdout result)).

Definition hdparm_identify_cmd (device : pystr) : list pystr :=
  [py "hdparm"; py "-I"; device].

Definition get_hdparm_info (device : pystr) : M pyval :=
  result <- run_cmd (hdparm_identify_cmd device) ;;
  if negb (returncode result =? 0)%Z
     || negb (truthy (VStr (stdout result)))
  then ret VNone
  else
    d <- lift (HdparmParser.parse_hdparm_identity lower_nonascii
                 (stdout result)) ;;
    ret (VDict d).

(** [open(device, "rb")] *)
Definition open_rb (device : pystr) : M unit :=
  ask (fun t => dev_open E t device) (EvOpen device) unless_raised.

(** [f.read(n)]: at most [n] bytes. *)
Definition f_read (device : pystr) (n : Z) : M (list Byte.byte) :=
  ask (fun t => dev_read E t device n) (EvRead device n)
    (fun r => match r with
              | inl chunk => Ret (firstn (Z.to_nat n) chunk)
              | inr e => Raise e
              end).

(** [while remaining > 0: ...]; [acc] is what the hasher was fed.  Every
    round that goes on consumes at least one byte, so [fuel = remaining]
    rounds are enough. *)
Fixpoint read_loop (fuel : nat) (device : pystr) (remaining : Z)
    (acc : list Byte.byte) : M (list Byte.byte) :=
  if (remaining <=? 0)%Z then ret acc
  else
    match fuel with
    | O => ret acc
    | S fuel' =>
        chunk <- f_read device (Z.min (1024 * 1024) remaining) ;;
        match chunk with
        | [] => ret acc
        | _ => read_loop fuel' device
                 (remaining - Z.of_nat (List.length chunk)) (acc ++ chunk)
        end
    end.

Definition sample_hash (device : pystr) (num_bytes : Z) : M pyval :=
  emit (EvSampleHash device num_bytes) ;;
  if (num_bytes <=? 0)%Z then ret VNone
  else
    try_except
      (open_rb device ;;
       fed <- read_loop (Z.to_nat num_bytes) device num_bytes [] ;;
       ret (VStr (sha256_hex fed)))
      (fun e =>
         print Stderr [Lit (py "[WARN] Could not read sample from ");
                       Fmt (VStr device); Lit (py ": "); FmtExn e] ;;
         ret VNone).

(** [" ".join(cmd)] *)
Fixpoint join_space (cmd : list pystr) : pystr :=
  match cmd with
  | [] => []
  | [a] => a
  | a :: rest => a ++ py " " ++ join_space rest
  end.

Definition set_pass_cmd (password device : pystr) : list pystr :=
  [py "hdparm"; py "--user-master"; py "u"; py "--security-set-pass";
   password; device].

Definition erase_cmd (password device : pystr) : list pystr :=
  [py "hdparm"; py "--user-master"; py "u"; py "--security-erase";
   password; device].

(** The step dict after its [cmd], [returncode] and [stderr] entries were
    assigned. *)
Definition step_entry (name : pystr) (cmd : list pystr)
    (cp : CompletedProcess) : dict :=
  let step := dict_of [(py "step", VStr name); (py "cmd", VStr []);
                       (py "returncode", VNone); (py "stderr", VStr [])] in
  let step := dict_set (py "cmd") (VStr (join_space cmd)) step in
  let step := dict_set (py "returncode") (VInt (returncode cp)) step in
  dict_set (py "stderr") (VStr (stderr cp)) step.

Definition ata_secure_erase (device password : pystr) : M dict :=
  let result := dict_of [(py "device", VStr device);
                         (py "method", VStr (py "ata-secure-erase"));
                         (py "steps", VList []);
                         (py "success", VBool false)] in
  (* Step 1: set password *)
  let cmd := set_pass_cmd password device in
  cp <- run_cmd cmd ;;
  let step1 := step_entry (py "security-set-pass") cmd cp in
  let result := dict_set (py "steps") (VList [VDict step1]) result in
  if negb (returncode cp =? 0)%Z then
    ret (dict_set (py "error")
           (VStr (py "Failed to set security password")) result)
  else
    (* Step 2: security-erase *)
    let cmd := erase_cmd password device in
    cp <- run_cmd cmd ;;
    let step2 := step_entry (py "security-erase") cmd cp in
    let result :=
      dict_set (py "steps") (VList [VDict step1; VDict step2]) result in
    if negb (returncode cp =? 0)%Z then
      ret (dict_set (py "error")
             (VStr (py "Security erase command failed")) result)
    else ret (dict_set (py "success") (VBool true) result).

(** [LOG_DIR.mkdir(parents=True, exist_ok=True)] *)
Definition mkdir_p (path : pystr) : M unit :=
  ask (fun t => fs_mkdir E t path) (EvMkdir path) unless_raised.

(** Opening [path] in append mode and writing [json.dumps(record)] and a
    newline; the event keeps the record itself. *)
Definition append_json (path : pystr) (record : dict) : M unit :=
  ask (fun t => fs_append E t path record) (EvAppend path record)
    unless_raised.

(** [write_log] changes the dict it is given; the changed dict is
    returned to the caller, who holds the same object. *)
Definition write_log (record : dict) : M dict :=
  mkdir_p LOG_DIR ;;
  day <- utc_now_iso ;;
  let log_file := LOG_DIR ++ py "/" ++ py "wipes-" ++ day ++ py ".jsonl" in
  now <- utc_now_iso ;;
  let record := dict_set (py "logged_at") (VStr now) record in
  append_json log_file record ;;
  ret record.

(** [os.path.exists(path)] *)
Definition os_path_exists (path : pystr) : M bool :=
  ask (fun t => path_exists E t path) (EvExists path) Ret.

(** [input(prompt)] *)
Definition input (prompt : list piece) : M pystr :=
  ask (stdin_line E) (EvInput prompt) or_raise.

(** [next((d for d in devices if d["path"] == device), None)] *)
Fixpoint find_device (device : pystr) (devices : list dict)
  : outcome pyval :=
  match devices with
  | [] => Ret VNone
  | d :: rest =>
      match dict_get (py "path") d with
      | None => Raise KeyError
      | Some (VStr p) =>
          if str_eqb p device then Ret (VDict d)
          else find_device device rest
      | Some _ => find_device device rest
      end
  end.

(** [x.get(k)] where [x] is a dict or [None] ([None] has no [get]). *)
Definition val_get (k : pystr) (x : pyval) : outcome pyval :=
  match x with
  | VDict d => Ret (opt_val (dict_get k d))
  | _ => Raise AttributeError
  end.

(** The dict built by the dry-run branch; its display names the key
    ["dry_run"] twice. *)
Definition dry_run_result (device method : pystr) : dict :=
  dict_of
    [(py "device", VStr device);
     (py "method", VStr method);
     (py "dry_run", VBool true);
     (py "steps",
      VList [VDict (dict_of [(py "step", VStr (py "security-set-pass"));
                             (py "simulated", VBool true)]);
             VDict (dict_of [(py "step", VStr (py "security-erase"));
                             (py "simulated", VBool true)])]);
     (py "success", VBool true);
     (py "dry_run", VBool true)].

(** [method_result.get("success")] as a condition *)
Definition reports_success (method_result : dict) : bool :=
  truthy (opt_val (dict_get (py "success") method_result)).

(** The dict display that [do_wipe] assigns to [record]. *)
Definition session_record (device method : pystr)
    (operator session_id : option pystr) (sample_bytes : Z)
    (dry_run : bool) (started_at ended_at : pystr)
    (pre_hash post_hash dev_info hdparm_before hdparm_after : pyval)
    (method_result : dict) : dict :=
  dict_of
    [(py "device", VStr device);
     (py "method", VStr method);
     (py "dry_run", VBool dry_run);
     (py "operator", opt_str operator);
     (py "session_id", opt_str session_id);
     (py "started_at", VStr started_at);
     (py "ended_at", VStr ended_at);
     (py "pre_sample_bytes",
      VInt (if (sample_bytes >? 0)%Z then sample_bytes else 0));
     (py "pre_sample_hash", pre_hash);
     (py "post_sample_hash", post_hash);
     (py "device_info", dev_info);
     (py "hdparm_before", hdparm_before);
     (py "hdparm_after", hdparm_after);
     (py "method_result", VDict method_result);
     (py "result",
      VStr (if reports_success method_result
            then py "PASS" else py "FAIL"))].

(** The human-readable summary at the end of [do_wipe]. *)
Definition print_summary (device method : pystr)
    (operator session_id : option pystr) (dry_run : bool)
    (dev_info : pyval) (started_at ended_at : pystr)
    (pre_hash post_hash : pyval) (method_result record : dict) : M unit :=
  print Stdout [Lit [10%N]; Lit (py "=== WIPE SUMMARY ");
                Lit (if dry_run then py "(DRY RUN)" else []);
                Lit (py " ===")] ;;
  print Stdout [Lit (py "Device     : "); Fmt (VStr device)] ;;
  (if truthy dev_info then
     model <- lift (val_get (py "model") dev_info) ;;
     print Stdout [Lit (py "Model      : "); Fmt model] ;;
     serial <- lift (val_get (py "serial") dev_info) ;;
     print Stdout [Lit (py "Serial     : "); Fmt serial] ;;
     size <- lift (val_get (py "size") dev_info) ;;
     print Stdout [Lit (py "Size       : "); Fmt size] ;;
     transport <- lift (val_get (py "transport") dev_info) ;;
     print Stdout [Lit (py "Transport  : "); Fmt transport]
   else ret tt) ;;
  print Stdout [Lit (py "Method     : "); Fmt (VStr method)] ;;
  print Stdout [Lit (py "Dry run    : "); Fmt (VBool dry_run)] ;;
  print Stdout [Lit (py "Operator   : ");
                Fmt (py_or (opt_str operator) (VStr (py "(not set)")))] ;;
  print Stdout [Lit (py "Session ID : ");
                Fmt (py_or (opt_str session_id) (VStr (py "(not set)")))] ;;
  print Stdout [Lit (py "Started    : "); Fmt (VStr started_at)] ;;
  print Stdout [Lit (py "Ended      : "); Fmt (VStr ended_at)] ;;
  result <- lift (match dict_get (py "result") record with
                  | Some v => Ret v
                  | None => Raise KeyError
                  end) ;;
  print Stdout [Lit (py "Result     : "); Fmt result] ;;
  (if truthy pre_hash && truthy post_hash then
     print Stdout [Lit (py "Pre-hash   : "); Fmt pre_hash] ;;
     print Stdout [Lit (py "Post-hash  : "); Fmt post_hash] ;;
     print Stdout
       [Lit (py "Hash match : ");
        Lit (match pre_hash, post_hash with
             | VStr a, VStr b =>
                 if str_eqb a b then py "YES (unchanged sample!)"
                 else py "NO (sample changed)"
             | _, _ => py "NO (sample changed)"
             end)]
   else ret tt) ;;
  if negb (reports_success method_result) then
    print Stderr
      [Lit [10%N];
       Lit (py "[ERROR] Wipe reported failure. See log file for details.")]
  else ret tt.

Definition do_wipe (device method : pystr)
    (operator session_id : option pystr) (sample_bytes : Z)
    (assume_yes dry_run : bool) : M unit :=
  (* Basic sanity check: device should exist *)
  present <- os_path_exists device ;;
  (if negb present then
     print Stderr [Lit (py "[ERROR] Device "); Fmt (VStr device);
                   Lit (py " does not exist.")] ;;
     sys_exit 1
   else ret tt) ;;
  (if negb dry_run && negb assume_yes then
     let prompt :=
       [Lit (py "WARNING: This will ERASE all data on ");
        Fmt (VStr device); Lit (py " using "); Fmt (VStr method);
        Lit [46; 10]%N; Lit (py "Type 'YES' to continue: ")] in
     confirm <- input prompt ;;
     if negb (str_eqb (strip confirm) (py "YES")) then
       print Stdout [Lit (py "Aborted by user.")] ;;
       sys_exit 0
     else ret tt
   else ret tt) ;;
  (* Gather info *)
  devices <- list_drives ;;
  dev_info <- lift (find_device device devices) ;;
  hdparm_before <- get_hdparm_info device ;;
  pre_hash <- (if (sample_bytes >? 0)%Z
               then sample_hash device sample_bytes else ret VNone) ;;
  started_at <- utc_now_iso ;;
  (* Run selected method *)
  method_result <-
    (if str_eqb method (py "ata-secure-erase") then
       if dry_run then ret (dry_run_result device method)
       else ata_secure_erase device (py "p")
     else
       print Stderr [Lit (py "[ERROR] Unsupported method: ");
                     Fmt (VStr method)] ;;
       sys_exit 1) ;;
  ended_at <- utc_now_iso ;;
  hdparm_after <- get_hdparm_info device ;;
  post_hash <- (if (sample_bytes >? 0)%Z
                then sample_hash device sample_bytes else ret VNone) ;;
  (* Build log record *)
  let record :=
    session_record device method operator session_id sample_bytes dry_run
      started_at ended_at pre_hash post_hash dev_info hdparm_before
      hdparm_after method_result in
  record <- write_log record ;;
  print_summary device method operator session_id dry_run dev_info
    started_at ended_at pre_hash post_hash method_result record.

End Program.
End WipeDrive.


(* ===================================================================== *)
(** * Observing the erase driver and the orchestrator *)
(* ===================================================================== *)

Module WipeView.
Import WipeDrive.

(** The commands run in a trace, in order, each with what it returned. *)
Fixpoint runs_of (t : trace) : list (list pystr * (CompletedProcess + exn)) :=
  match t with
  | [] => []
  | EvRun cmd r :: rest => (cmd, r) :: runs_of rest
  | _ :: rest => runs_of rest
  end.

(** The records handed to the log file in a trace. *)
Fixpoint appended (t : trace) : list dict :=
  match t with
  | [] => []
  | EvAppend _ record _ :: rest => record :: appended rest
  | _ :: rest => appended rest
  end.

(** The entries into [sample_hash] in a trace. *)
Fixpoint sampler_calls (t : trace) : list (pystr * Z) :=
  match t with
  | [] => []
  | EvSampleHash device n :: rest => (device, n) :: sampler_calls rest
  | _ :: rest => sampler_calls rest
  end.

(** A command came back with exit status zero. *)
Definition returned_zero (r : CompletedProcess + exn) : bool :=
  match r with
  | inl cp => (returncode cp =? 0)%Z
  | inr _ => false
  end.

(** A property of events given by what it asks of the commands run, of the
    entries into the sampler and of the records appended; every other
    event is accepted. *)
Definition event_ok (Prun : list pystr -> Prop) (Psample : Prop)
    (Prec : dict -> Prop) (e : event) : Prop :=
  match e with
  | EvRun cmd _ => Prun cmd
  | EvSampleHash _ _ => Psample
  | EvAppend _ record _ => Prec record
  | _ => True
  end.

(** [sat P Q m]: from any trace, [m] only adds events accepted by [P], and
    a value it returns satisfies [Q]. *)
Definition sat (P : event -> Prop) {A} (Q : A -> Prop)
    (m : Eff.M trace A) : Prop :=
  forall t, exists new,
    fst (m t) = t ++ new
    /\ Forall P new
    /\ forall a, snd (m t) = Ret a -> Q a.

Definition any {A} : A -> Prop := fun _ => True.

(** An erase outcome has a boolean under "success". *)
Definition success_is_bool (method_result : dict) : Prop :=
  exists b, dict_get (py "success") method_result = Some (VBool b).

(** The keys that mark a simulated outcome. *)
Definition is_marker (k : pystr) : bool :=
  str_eqb k (py "dry_run") || str_eqb k (py "simulated").

(** The keys of a dict, the markers left out. *)
Definition plain_keys (d : dict) : list pystr :=
  filter (fun k => negb (is_marker k)) (dict_keys d).

(** The entries under "steps" of an erase outcome. *)
Definition steps_of (outcome : dict) : list pyval :=
  match dict_get (py "steps") outcome with
  | Some (VList l) => l
  | _ => []
  end.

Definition entry_keys (keys : dict -> list pystr) (v : pyval)
  : list pystr :=
  match v with VDict d => keys d | _ => [] end.

Definition entry_get (k : pystr) (v : pyval) : option pyval :=
  match v with VDict d => dict_get k d | _ => None end.

(** Two erase outcomes have the same shape up to the markers: the same
    keys, and step by step the same keys in the step entries. *)
Definition same_shape (a b : dict) : Prop :=
  plain_keys a = plain_keys b
  /\ map (entry_keys plain_keys) (steps_of a)
     = map (entry_keys plain_keys) (steps_of b).

(** The dry-run outcome for [device] has the shape of an outcome that the
    real erase driver returns. *)
Definition dry_run_shaped_like_real (device : pystr) : Prop :=
  exists (E : env) (t : trace) (real : dict),
    snd (ata_secure_erase E device (py "p") t) = Ret real
    /\ same_shape (dry_run_result device (py "ata-secure-erase")) real.

(** The keys of a step entry written by the real driver. *)
Definition real_step_keys : list pystr :=
  [py "step"; py "cmd"; py "returncode"; py "stderr"].

End WipeView.

(* ===================================================================== *)
(** * wiper/db_logger.py, wiper/file_logger.py, wiper/logging_manager.py *)
(* ===================================================================== *)

Module LoggingManager.

Inductive piece : Type :=
| Lit (s : pystr) | Fmt (v : pyval) | FmtExn (e : exn).

Inductive event : Type :=
| EvConnect (res : option exn)
    (** [psycopg2.connect(...)] with the parameters of the environment *)
| EvCursor (res : option exn)
    (** [self._conn.cursor()] *)
| EvExecute (row : list pyval) (res : option exn)
    (** the [INSERT INTO wipe_logs] with its 23 values; in auto-commit mode
        a statement that does not raise has stored its row *)
| EvAppend (path : pystr) (record : pyval) (res : option exn)
    (** opening [path] in append mode and writing
        [json.dumps(event, default=str)] and a newline; the event keeps the
        record itself *)
| EvPrint (text : list piece) (res : option exn)
    (** [print(...)]; the console may refuse the write *)
| EvTraceback (e : exn) (res : option exn).
    (** [traceback.print_exc()], written to stderr *)

Definition trace := list event.

(** The database server, the file system and the console. *)
Record env : Type :=
  { db_connect : trace -> option exn;
    db_cursor : trace -> option exn;
    db_execute : trace -> list pyval -> option exn;
    file_append : trace -> pystr -> pyval -> option exn;
    console : trace -> list piece -> option exn;
    console_exc : trace -> exn -> option exn }.

(** A psycopg2 connection, with the attribute the program sets. *)
Record connection : Type := Connection { autocommit : bool }.

(** The module globals of [logging_manager] and the attributes of the two
    logger instances, with the trace of what was done. *)
Record world : Type :=
  World { _use_db : bool;             (* logging_manager._use_db *)
          enabled : bool;             (* _db_logger.enabled *)
          _conn : option connection;  (* _db_logger._conn *)
          log_path : pystr;           (* _file_logger.log_path *)
          history : trace }.

(** The globals after the module was imported: [enabled] comes from
    [DB_ENABLED], [log_path] from [LOG_FALLBACK_DIR] and the clock. *)
Definition initial_world (db_enabled : bool) (path : pystr) : world :=
  World true db_enabled None path [].

Section Program.
Variable E : env.

Local Open Scope eff_scope.
Local Abbreviation M := (Eff.M world).

Definition emit (e : event) : M unit :=
  fun w => (World (_use_db w) (enabled w) (_conn w) (log_path w)
                  (history w ++ [e]), Ret tt).

Definition set_use_db (b : bool) : M unit :=
  fun w => (World b (enabled w) (_conn w) (log_path w) (history w), Ret tt).

Definition set_conn (c : option connection) : M unit :=
  fun w => (World (_use_db w) (enabled w) c (log_path w) (history w),
            Ret tt).

Definition read {A} (f : world -> A) : M A := fun w => (w, Ret (f w)).

(** An action on the outside world: the oracle is asked, the event is
    recorded, and an exception is raised when the oracle gave one. *)
Definition external (ask : trace -> option exn)
    (ev : option exn -> event) : M unit :=
  r <- read (fun w => ask (history w)) ;;
  emit (ev r) ;;
  match r with None => ret tt | Some e => raise e end.

(** [print(...)]: the console may refuse the write, and then [print]
    raises what the console raised. *)
Definition print (text : list piece) : M unit :=
  external (fun t => console E t text) (EvPrint text).

(** [traceback.print_exc()] *)
Definition print_exc (e : exn) : M unit :=
  external (fun t => console_exc E t e) (EvTraceback e).

(** [DatabaseLogger._connect] *)
Definition _connect : M unit :=
  en <- read enabled ;;
  if negb en then ret tt
  else
    c <- read _conn ;;
    match c with
    | Some _ => ret tt
    | None =>
        external (db_connect E) EvConnect ;;
        set_conn (Some (Connection true))
    end.

(** [x.get(k, default)]; only a dict has [get]. *)
Definition get_or (k : pystr) (default : pyval) (x : pyval)
  : outcome pyval :=
  match x with
  | VDict d => Ret (match dict_get k d with Some v => v | None => default end)
  | _ => Raise AttributeError
  end.

Definition get (k : pystr) (x : pyval) : outcome pyval := get_or k VNone x.

(** The tuple of values handed to the [INSERT]. *)
Definition insert_values (event device_info method_result hdparm_before
    hdparm_after : pyval) : outcome (list pyval) :=
  (let? device := get (py "device") event in
   let? method := get (py "method") event in
   let? dry_run := get_or (py "dry_run") (VBool false) event in
   let? operator := get (py "operator") event in
   let? session_id := get (py "session_id") event in
   let? started_at := get (py "started_at") event in
   let? ended_at := get (py "ended_at") event in
   let? logged_at := get (py "logged_at") event in
   let? result := get (py "result") event in
   let? success := get (py "success") method_result in
   let? pre_sample_bytes := get_or (py "pre_sample_bytes") (VInt 0) event in
   let? pre_sample_hash := get (py "pre_sample_hash") event in
   let? post_sample_hash := get (py "post_sample_hash") event in
   let? name := get (py "name") device_info in
   let? path := get (py "path") device_info in
   let? size := get (py "size") device_info in
   let? model := get (py "model") device_info in
   let? serial := get (py "serial") device_info in
   let? transport := get (py "transport") device_info in
   let? before_raw := get (py "raw") hdparm_before in
   let? after_raw := get (py "raw") hdparm_after in
   Ret [device; method; VBool (truthy dry_run); operator; session_id;
        started_at; ended_at; logged_at; result; success;
        pre_sample_bytes; pre_sample_hash; post_sample_hash;
        name; path; size; model; serial; transport;
        before_raw; after_raw; method_result; event])%outcome.

(** [DatabaseLogger.log] *)
Definition db_log (event : pyval) : M unit :=
  en <- read enabled ;;
  if negb en then raise RuntimeError
  else
    _connect ;;
    device_info <- lift (let? v := get (py "device_info") event in
                         Ret (py_or v (VDict [])))%outcome ;;
    method_result <- lift (let? v := get (py "method_result") event in
                           Ret (py_or v (VDict [])))%outcome ;;
    hdparm_before <- lift (let? v := get (py "hdparm_before") event in
                           Ret (py_or v (VDict [])))%outcome ;;
    hdparm_after <- lift (let? v := get (py "hdparm_after") event in
                          Ret (py_or v (VDict [])))%outcome ;;
    external (db_cursor E) EvCursor ;;
    row <- lift (insert_values event device_info method_result
                   hdparm_before hdparm_after) ;;
    external (fun t => db_execute E t row) (EvExecute row).

(** [FileLogger.log] *)
Definition file_log (event : pyval) : M unit :=
  path <- read log_path ;;
  external (fun t => file_append E t path event) (EvAppend path event).

(** [log_wipe_event]: [true] from the first part means that control
    reaches the file fallback, [false] is the early [return]. *)
Definition log_wipe_event (event : pyval) : M unit :=
  use_db <- read _use_db ;;
  en <- read enabled ;;
  fall_through <-
    (if use_db && en then
       try_except
         (db_log event ;;
          ret false)                      (* DB logging succeeded *)
         (fun e =>
            set_use_db false ;;
            print [Lit (py "[Warning] Database logging failed. Switching to fallback file logging.")] ;;
            print [Lit (py "Reason: "); FmtExn e] ;;
            print_exc e ;;
            ret true)
     else ret true) ;;
  if fall_through then
    try_except (file_log event)
      (fun e =>
         print [Lit (py "[ERROR] FATAL: Could not log event to file either!")] ;;
         print [Lit (py "Event that failed to log: "); Fmt event] ;;
         print_exc e)
  else ret tt.

End Program.
End LoggingManager.

(* ===================================================================== *)
(** * Observing the audit sink *)
(* ===================================================================== *)

Module SinkView.
Import LoggingManager.

(** The rows stored in the database in a trace: the inserts that did not
    raise. *)
Definition inserted (t : trace) : list (list pyval) :=
  flat_map (fun e => match e with
                     | EvExecute row None => [row]
                     | _ => []
                     end) t.

(** What was done to the database in a trace, successful or not. *)
Definition db_attempts (t : trace) : list event :=
  filter (fun e => match e with
                   | EvConnect _ | EvCursor _ | EvExecute _ _ => true
                   | _ => false
                   end) t.

(** The appends to the fallback file in a trace: path, record, and the
    exception if the append raised. *)
Definition file_attempts (t : trace) : list (pystr * pyval * option exn) :=
  flat_map (fun e => match e with
                     | EvAppend path record r => [(path, record, r)]
                     | _ => []
                     end) t.

(** The console output in a trace: the lines the console accepted. *)
Definition printed (t : trace) : list (list piece) :=
  flat_map (fun e => match e with
                     | EvPrint text None => [text]
                     | _ => []
                     end) t.

(** The console writes that were refused in a trace, each with what the
    console raised. *)
Definition refused (t : trace) : list exn :=
  flat_map (fun e => match e with
                     | EvPrint _ (Some e) | EvTraceback _ (Some e) => [e]
                     | _ => []
                     end) t.

(** The database is out of use: the latch is cleared or the logger is
    disabled. *)
Definition off (w : world) : Prop := _use_db w && enabled w = false.

(** The console accepts every write. *)
Definition console_accepts (E : env) : Prop :=
  (forall t text, console E t text = None)
  /\ (forall t e, console_exc E t e = None).

(** The line that shows the whole record on the console when the file
    append failed. *)
Definition last_resort (event : pyval) : list piece :=
  [Lit (py "Event that failed to log: "); Fmt event].

(** The fallback for [event] took place in [new]: one append of [event] to
    the file at [path] was attempted; the record was shown on the console
    if and only if that append raised. *)
Definition fell_back (path : pystr) (event : pyval) (new : trace) : Prop :=
  exists r,
    file_attempts new = [(path, event, r)]
    /\ match r with
       | None => ~ In (last_resort event) (printed new)
       | Some e => In (last_resort event) (printed new)
       end.

(** The fields that a database attempt leaves alone. *)
Definition same_switch (w w' : world) : Prop :=
  _use_db w' = _use_db w /\ enabled w' = enabled w
  /\ log_path w' = log_path w.

Definition is_db_event (e : event) : Prop :=
  match e with
  | EvConnect _ | EvCursor _ | EvExecute _ _ => True
  | _ => False
  end.

Definition no_exit {A} (o : outcome A) : Prop :=
  match o with Exit _ => False | _ => True end.

(** A computation of the database attempt: it only talks to the database,
    leaves the switch alone and does not exit; [final] tells whether a
    return means that a row was stored. *)
Definition db_phase {A} (final : bool) (m : Eff.M world A) : Prop :=
  forall w, exists new,
    history (fst (m w)) = history w ++ new
    /\ same_switch w (fst (m w))
    /\ Forall is_db_event new
    /\ match snd (m w) with
       | Ret _ => if final then exists row, inserted new = [row]
                  else inserted new = []
       | Raise _ => inserted new = []
       | Exit _ => False
       end.

(** The [except] branch of the first [try] statement of
    [log_wipe_event], on its own: the latch is cleared, then three
    messages are printed. *)
Definition db_failed (E : env) (e : exn) : Eff.M world bool :=
  bind (set_use_db false)
    (fun _ => bind (print E [Lit (py "[Warning] Database logging failed. Switching to fallback file logging.")])
       (fun _ => bind (print E [Lit (py "Reason: "); FmtExn e])
          (fun _ => bind (print_exc E e) (fun _ => ret true)))).

(** The second [try] statement of [log_wipe_event], on its own. *)
Definition fallback (E : env) (event : pyval) : Eff.M world unit :=
  try_except (file_log E event)
    (fun e =>
       bind (print E [Lit (py "[ERROR] FATAL: Could not log event to file either!")])
         (fun _ => bind (print E (last_resort event))
                     (fun _ => print_exc E e))).

(** A process that persists the records [events] one after the other,
    and goes on with the next record when a call has raised (the caller
    catches what [log_wipe_event] lets through). *)
Fixpoint log_wipe_events (E : env) (events : list pyval)
  : Eff.M world unit :=
  match events with
  | [] => ret tt
  | ev :: rest => bind (try_except (log_wipe_event E ev) (fun _ => ret tt))
                    (fun _ => log_wipe_events E rest)
  end.

End SinkView.

(* ===================================================================== *)
(** * Concrete inputs used by the examples *)
(* ===================================================================== *)

Module Samples.

(** A case table under which no code point outside ASCII changes. *)
Definition caseless (s : pystr) (i : nat) : pystr :=
  match nth_error s i with Some c => [c] | None => [] end.

Definition LF : pystr := [10%N].
Definition TAB : pystr := [9%N].

(** "Security:\n   supported\n  not enabled\n" *)
Definition security_text : pystr :=
  py "Security:" ++ LF ++ py "   supported" ++ LF ++ py "  not enabled" ++ LF.

(** Two security sections with an unindented line between them. *)
Definition two_sections : pystr :=
  py "Security:" ++ LF ++ TAB ++ py "frozen" ++ LF
  ++ py "Checksum: correct" ++ LF
  ++ py "Security:" ++ LF ++ TAB ++ py "locked" ++ LF.

(** A line of the security block as hdparm prints it:
    "\tnot\tsupported: enhanced erase" *)
Definition enhanced_line : pystr :=
  TAB ++ py "not" ++ TAB ++ py "supported: enhanced erase".

(** A stand-in for the digest in the examples. *)
Definition digest (data : list Byte.byte) : pystr := py "00".

(** An inventory without devices. *)
Definition no_devices (stdout : pystr) : outcome (list dict) := Ret [].

(** A world in which every command returns status [status] with the output
    [out], every path exists, the operator types "YES", the device reads
    as empty and the log directory is writable. *)
Definition world_returning (status : Z) (out : pystr) : WipeDrive.env :=
  {| WipeDrive.path_exists := fun _ _ => true;
     WipeDrive.stdin_line := fun _ => inl (py "YES");
     WipeDrive.run_process :=
       fun _ _ => inl (WipeDrive.Build_CompletedProcess status out []);
     WipeDrive.clock := fun _ => py "2024-01-01T00:00:00Z";
     WipeDrive.dev_open := fun _ _ => None;
     WipeDrive.dev_read := fun _ _ _ => inl [];
     WipeDrive.fs_mkdir := fun _ _ => None;
     WipeDrive.fs_append := fun _ _ _ => None;
     WipeDrive.console := fun _ _ _ => None |}.

(** The same world, except that the hdparm command with the option [flag]
    returns status 1. *)
Definition world_failing (flag : pystr) : WipeDrive.env :=
  {| WipeDrive.path_exists := fun _ _ => true;
     WipeDrive.stdin_line := fun _ => inl (py "YES");
     WipeDrive.run_process :=
       fun _ cmd =>
         inl (WipeDrive.Build_CompletedProcess
                (match nth_error cmd 3 with
                 | Some option => if str_eqb option flag then 1 else 0
                 | None => 0
                 end)%Z
                [] (py "Input/output error"));
     WipeDrive.clock := fun _ => py "2024-01-01T00:00:00Z";
     WipeDrive.dev_open := fun _ _ => None;
     WipeDrive.dev_read := fun _ _ _ => inl [];
     WipeDrive.fs_mkdir := fun _ _ => None;
     WipeDrive.fs_append := fun _ _ _ => None;
     WipeDrive.console := fun _ _ _ => None |}.

(** The drive refuses the security password. *)
Definition world_refusing_password : WipeDrive.env :=
  world_failing (py "--security-set-pass").

Definition sdx : pystr := py "/dev/sdx".
Definition ata : pystr := py "ata-secure-erase".

(** A database that accepts everything, and one that refuses the
    connection; with the first the file system refuses the append, with
    the second it accepts it. *)
Definition healthy_db : LoggingManager.env :=
  {| LoggingManager.db_connect := fun _ => None;
     LoggingManager.db_cursor := fun _ => None;
     LoggingManager.db_execute := fun _ _ => None;
     LoggingManager.file_append := fun _ _ _ => Some OSError;
     LoggingManager.console := fun _ _ => None;
     LoggingManager.console_exc := fun _ _ => None |}.

Definition broken_db : LoggingManager.env :=
  {| LoggingManager.db_connect := fun _ => Some DatabaseError;
     LoggingManager.db_cursor := fun _ => None;
     LoggingManager.db_execute := fun _ _ => None;
     LoggingManager.file_append := fun _ _ _ => None;
     LoggingManager.console := fun _ _ => None;
     LoggingManager.console_exc := fun _ _ => None |}.

(** The database refuses the connection and the console refuses every
    write, as a closed pipe does; the file system accepts the append. *)
Definition closed_console : LoggingManager.env :=
  {| LoggingManager.db_connect := fun _ => Some DatabaseError;
     LoggingManager.db_cursor := fun _ => None;
     LoggingManager.db_execute := fun _ _ => None;
     LoggingManager.file_append := fun _ _ _ => None;
     LoggingManager.console := fun _ _ => Some OSError;
     LoggingManager.console_exc := fun _ _ => Some OSError |}.

Definition fallback_path : pystr :=
  py "/wiper/logs/wipe_session_20240101_000000.jsonl".

(** A session record with the fields the database logger looks into. *)
Definition session : pyval :=
  VDict [(py "device", VStr sdx); (py "method", VStr ata);
         (py "result", VStr (py "PASS"));
         (py "method_result", VDict [(py "success", VBool true)])].

End Samples.

(* ===================================================================== *)
(** * More on the parser: what a line does to the record *)
(* ===================================================================== *)

Module ParserMore.
Import HdparmParser.

(** The keys filled by the identity rules, each with its label. *)
Definition identity_labels : list (pystr * pystr) :=
  [(py "model", py "Model Number:");
   (py "serial", py "Serial Number:");
   (py "firmware", py "Firmware Revision:")].

(** The keys written inside the security block. *)
Definition security_keys : list pystr :=
  [py "security_supported"; py "security_enabled"; py "security_locked";
   py "security_frozen"; py "enhanced_erase_supported";
   py "erase_time_raw"].

(** All keys the parser ever writes. *)
Definition known_keys : list pystr :=
  [py "raw"; py "model"; py "serial"; py "firmware";
   py "reported_size_m10"] ++ security_keys.

(** [k in keys] *)
Definition key_in (k : pystr) (keys : list pystr) : bool :=
  existsb (str_eqb k) keys.

(** The record after the identity rules and the size rule have seen a
    stripped line. *)
Definition fields_after (stripped : pystr) (d : dict) : dict :=
  let after label := VStr (strip (skipn (List.length label) stripped)) in
  let d1 :=
    if startswith (py "Model Number:") stripped then
      dict_set (py "model") (after (py "Model Number:")) d
    else if startswith (py "Serial Number:") stripped then
      dict_set (py "serial") (after (py "Serial Number:")) d
    else if startswith (py "Firmware Revision:") stripped then
      dict_set (py "firmware") (after (py "Firmware Revision:")) d
    else d in
  if contains (py "device size with M = 1000*1000:") stripped then
    match find_sub (py ":") stripped with
    | Some (_, rest) => dict_set (py "reported_size_m10") (VStr (strip rest)) d1
    | None => d1
    end
  else d1.

(** A line to which no rule outside the security block reacts. *)
Definition unrecognized (line : pystr) : bool :=
  let stripped := strip line in
  negb (existsb (fun kl => startswith (snd kl) stripped) identity_labels)
  && negb (contains (py "device size with M = 1000*1000:") stripped)
  && negb (startswith (py "Security:") stripped).

(** A line whose stripped text starts with "Security:". *)
Definition is_header (line : pystr) : bool :=
  startswith (py "Security:") (strip line).

End ParserMore.

(* ===================================================================== *)
(** * More on wipe_drive.py: counting what a run does *)
(* ===================================================================== *)

Module WipeCount.
Import WipeDrive.

(** [cmd1 == cmd2] on two argument lists *)
Fixpoint cmd_eqb (a b : list pystr) : bool :=
  match a, b with
  | [], [] => true
  | x :: a', y :: b' => str_eqb x y && cmd_eqb a' b'
  | _, _ => false
  end.

(** What an event weighs: a command by its argument list, an entry into
    the sampler by its arguments, a prompt and an append by a fixed
    amount; every other event weighs nothing. *)
Definition weight (frun : list pystr -> nat) (fsample : pystr -> Z -> nat)
    (finput fappend : nat) (e : event) : nat :=
  match e with
  | EvRun cmd _ => frun cmd
  | EvSampleHash device n => fsample device n
  | EvInput _ _ => finput
  | EvAppend _ _ _ => fappend
  | _ => 0
  end.

Definition total (f : event -> nat) (t : trace) : nat :=
  list_sum (map f t).

(** [tally f lo hi m]: whatever the trace so far, the events [m] adds
    weigh at most [hi], and at least [lo] when [m] returns. *)
Definition tally (f : event -> nat) (lo hi : nat) {A}
    (m : Eff.M trace A) : Prop :=
  forall t, exists new,
    fst (m t) = t ++ new
    /\ total f new <= hi
    /\ forall a, snd (m t) = Ret a -> lo <= total f new.

(** The prompts for confirmation in a trace. *)
Fixpoint prompts (t : trace) : list (pystr + exn) :=
  match t with
  | [] => []
  | EvInput _ r :: rest => r :: prompts rest
  | _ :: rest => prompts rest
  end.

(** How often the command [cmd] was run in a trace. *)
Definition times_run (cmd : list pystr) (t : trace) : nat :=
  List.length (filter (fun cr => cmd_eqb (fst cr) cmd) (WipeView.runs_of t)).

(** The four commands [do_wipe] can run on [device]. *)
Definition session_commands (device : pystr) : list (list pystr) :=
  [lsblk_cmd; hdparm_identify_cmd device;
   set_pass_cmd (py "p") device; erase_cmd (py "p") device].

(** How many bytes the open device has delivered: the reads since the last
    [open], each counted as [f.read(n)] returns it. *)
Definition offset (device : pystr) (t : trace) : nat :=
  fold_left
    (fun off e =>
       match e with
       | EvOpen d _ => if str_eqb d device then 0 else off
       | EvRead d n (inl chunk) =>
           if str_eqb d device
           then off + List.length (firstn (Z.to_nat n) chunk)
           else off
       | _ => off
       end) t 0.

(** The world serves [device] like a file that holds [content]: it can be
    opened, and a read returns the bytes at the current offset, as many as
    were asked for or as are left. *)
Definition serves (E : env) (device : pystr) (content : list Byte.byte)
  : Prop :=
  forall t,
    dev_open E t device = None
    /\ forall n, dev_read E t device n
                 = inl (firstn (Z.to_nat n) (skipn (offset device t) content)).

(** The requests made of the device in a trace. *)
Fixpoint read_sizes (t : trace) : list Z :=
  match t with
  | [] => []
  | EvRead _ n _ :: rest => n :: read_sizes rest
  | _ :: rest => read_sizes rest
  end.

(** [d["path"] == device] for a device dict that has the key. *)
Definition has_path (device : pystr) (d : dict) : bool :=
  match dict_get (py "path") d with
  | Some (VStr p) => str_eqb p device
  | _ => false
  end.

(** The keys of the record [do_wipe] hands to the log. *)
Definition record_keys : list pystr :=
  [py "device"; py "method"; py "dry_run"; py "operator"; py "session_id";
   py "started_at"; py "ended_at"; py "pre_sample_bytes";
   py "pre_sample_hash"; py "post_sample_hash"; py "device_info";
   py "hdparm_before"; py "hdparm_after"; py "method_result"; py "result";
   py "logged_at"].

(** What a step entry says of its command: the command line, the status
    and the error text. *)
Definition step_journal (v : pyval)
  : option pyval * option pyval * option pyval :=
  (WipeView.entry_get (py "cmd") v,
   WipeView.entry_get (py "returncode") v,
   WipeView.entry_get (py "stderr") v).

(** The same of a command that ran and returned. *)
Definition run_journal (run : list pystr * (CompletedProcess + exn))
  : option pyval * option pyval * option pyval :=
  match snd run with
  | inl cp => (Some (VStr (join_space (fst run))),
               Some (VInt (returncode cp)), Some (VStr (stderr cp)))
  | inr _ => (None, None, None)
  end.

(** The records that reached the log file in a trace: the appends that
    did not raise. *)
Fixpoint written (t : trace) : list dict :=
  match t with
  | [] => []
  | EvAppend _ record None :: rest => record :: written rest
  | _ :: rest => written rest
  end.

(** The events end with a console write that was refused with [e]. *)
Definition ends_refused (e : exn) (new : trace) : Prop :=
  exists before to text, new = before ++ [EvPrint to text (Some e)].

(** How a call stands to the log file, given how it ended and what it
    did: a call that returned has written one record; a call that exited
    has written none; a call that raised has written none, or it has
    written one and raises what the console raised on refusing a line
    printed afterwards. *)
Definition settles {A} (o : outcome A) (new : trace) : Prop :=
  match o with
  | Ret _ => exists record, written new = [record]
  | Raise e =>
      written new = []
      \/ ((exists record, written new = [record]) /\ ends_refused e new)
  | Exit _ => written new = []
  end.

Definition settled {A} (m : Eff.M trace A) : Prop :=
  forall t, exists new, fst (m t) = t ++ new /\ settles (snd (m t)) new.

(** [chatty m]: [m] does not exit, and what it raises is what the console
    raised on refusing its last write. *)
Definition chatty {A} (m : Eff.M trace A) : Prop :=
  forall t, exists new,
    fst (m t) = t ++ new
    /\ match snd (m t) with
       | Ret _ => True
       | Raise e => ends_refused e new
       | Exit _ => False
       end.

(** [gives Q m]: [m] returns, whatever the trace so far, and what it
    returns satisfies [Q]. *)
Definition gives {A} (Q : A -> Prop) (m : Eff.M trace A) : Prop :=
  forall t, exists a, snd (m t) = Ret a /\ Q a.

(** A world that lets a session on [device] through: the device node
    exists, the operator confirms, every command runs to its end, lsblk
    returns status 0 with an inventory that can be read and searched, the
    log directory and the log file can be written, and the console takes
    every line.  The device itself may fail to open or to read. *)
Definition obliging (lsblk_devices : pystr -> outcome (list dict))
    (E : env) (device : pystr) : Prop :=
  (forall t, path_exists E t device = true)
  /\ (forall t, exists line,
         stdin_line E t = inl line
         /\ str_eqb (strip line) (py "YES") = true)
  /\ (forall t cmd, exists cp, run_process E t cmd = inl cp)
  /\ (forall t, exists cp devices v,
         run_process E t lsblk_cmd = inl cp
         /\ returncode cp = 0%Z
         /\ lsblk_devices (stdout cp) = Ret devices
         /\ find_device device devices = Ret v)
  /\ (forall t path, fs_mkdir E t path = None)
  /\ (forall t path record, fs_append E t path record = None)
  /\ (forall t to text, console E t to text = None).

(** [returns m]: [m] returns, whatever the trace so far. *)
Definition returns {A} (m : Eff.M trace A) : Prop :=
  forall t, exists a, snd (m t) = Ret a.

End WipeCount.


(* ===================================================================== *)
(** * More on the audit sink: rows, connections and where records land *)
(* ===================================================================== *)

Module SinkMore.
Import LoggingManager SinkView.

(** How often a connection to the database was attempted in a trace. *)
Definition connects (t : trace) : nat :=
  List.length
    (filter (fun e => match e with EvConnect _ => true | _ => false end) t).

(** [event.get(k) or {}] *)
Definition sub_record (k : pystr) (event : pyval) : outcome pyval :=
  (let? v := get k event in Ret (py_or v (VDict [])))%outcome.

(** The values [DatabaseLogger.log] computes for a record, apart from what
    it does to the database: the four sub-records, then the tuple. *)
Definition row_of (event : pyval) : outcome (list pyval) :=
  (let? device_info := sub_record (py "device_info") event in
   let? method_result := sub_record (py "method_result") event in
   let? hdparm_before := sub_record (py "hdparm_before") event in
   let? hdparm_after := sub_record (py "hdparm_after") event in
   insert_values event device_info method_result hdparm_before
     hdparm_after)%outcome.

(** [DatabaseLogger.log] from the line after [self._connect()] on. *)
Definition after_connect (E : env) (event : pyval) : Eff.M world unit :=
  bind (lift (sub_record (py "device_info") event)) (fun device_info =>
  bind (lift (sub_record (py "method_result") event)) (fun method_result =>
  bind (lift (sub_record (py "hdparm_before") event)) (fun hdparm_before =>
  bind (lift (sub_record (py "hdparm_after") event)) (fun hdparm_after =>
  bind (external (db_cursor E) EvCursor) (fun _ =>
  bind (lift (insert_values event device_info method_result hdparm_before
                hdparm_after)) (fun row =>
  external (fun t => db_execute E t row) (EvExecute row))))))).

Definition is_dict (v : pyval) : bool :=
  match v with VDict _ => true | _ => false end.

(** The keys under which [DatabaseLogger.log] looks for a sub-record. *)
Definition sub_keys : list pystr :=
  [py "device_info"; py "method_result"; py "hdparm_before";
   py "hdparm_after"].

(** A record the database logger can flatten: a dict in which each of the
    four sub-records is missing, falsy, or a dict. *)
Definition well_formed (event : pyval) : bool :=
  match event with
  | VDict d =>
      forallb (fun k => let v := opt_val (dict_get k d) in
                        negb (truthy v) || is_dict v) sub_keys
  | _ => false
  end.

(** The records stored in the database in a trace: the last column of
    each row, raw_log. *)
Definition stored_records (t : trace) : list pyval :=
  map (fun row => last row VNone) (inserted t).

End SinkMore.

(* ===================================================================== *)
(** * More on wipe_drive.py: the walk over the lsblk inventory *)
(* ===================================================================== *)

(** [list_drives] after [json.loads]: the nested function [walk] and the
    loop over the top-level block devices.  The decoded document is any
    JSON value; a float is kept by whether it is zero and by its [str()],
    which is all the walk can see of it.  The recursion of [walk] is
    bounded by a fuel that the depth of the document covers. *)
Module Lsblk.

Inductive json : Type :=
| JNull
| JBool (b : bool)
| JInt (z : Z)
| JFloat (zero : bool) (shown : pystr)
| JStr (s : pystr)
| JArr (l : list json)
| JObj (d : list (pystr * json)).

(** The two exceptions the walk can meet: an attribute that the value
    does not have ([get], [startswith]), and a [for] over a value that is
    not iterable. *)
Inductive failure : Type := NoAttribute | NotIterable.

Inductive walked (A : Type) : Type :=
| Done (a : A)
| Failed (e : failure).
Arguments Done {A} a.
Arguments Failed {A} e.

(** [d.get(k, default)] *)
Fixpoint obj_get (k : pystr) (d : list (pystr * json)) (default : json)
  : json :=
  match d with
  | [] => default
  | (k', v) :: rest => if str_eqb k k' then v else obj_get k rest default
  end.

(** [bool(v)] *)
Definition json_truthy (v : json) : bool :=
  match v with
  | JNull => false
  | JBool b => b
  | JInt z => negb (z =? 0)%Z
  | JFloat zero _ => negb zero
  | JStr s => match s with [] => false | _ => true end
  | JArr l => match l with [] => false | _ => true end
  | JObj d => match d with [] => false | _ => true end
  end.

(** [v == s] for a string literal [s] *)
Definition is_text (s : pystr) (v : json) : bool :=
  match v with JStr t => str_eqb t s | _ => false end.

(** [name.startswith(("loop", "ram"))] *)
Definition loop_or_ram (name : pystr) : bool :=
  startswith (py "loop") name || startswith (py "ram") name.

(** [f"{name}"] for a name that is a string or falsy: only such names
    reach the f-string. *)
Definition shown_name (name : json) : pystr :=
  match name with
  | JStr s => s
  | JNull => py "None"
  | JBool _ => py "False"
  | JInt _ => py "0"
  | JFloat _ shown => shown
  | JArr _ => py "[]"
  | JObj _ => py "{}"
  end.

Definition device := list (pystr * json).

(** The dict display appended to [devices]. *)
Definition device_entry (block : list (pystr * json)) (name : json)
  : device :=
  [(py "name", name);
   (py "path", JStr (py "/dev/" ++ shown_name name));
   (py "size", obj_get (py "size") block JNull);
   (py "model", obj_get (py "model") block JNull);
   (py "serial", obj_get (py "serial") block JNull);
   (py "transport", obj_get (py "tran") block JNull)].

(** How the [if block.get("type") == "disk":] statement ends: control
    falls through to the loop over the children, the function returns,
    or [startswith] is missing. *)
Inductive visited : Type :=
| Fell (devices : list device)
| Returned (devices : list device)
| Raised (e : failure).

Definition visit (block : list (pystr * json)) (devices : list device)
  : visited :=
  if is_text (py "disk") (obj_get (py "type") block JNull) then
    let name := obj_get (py "name") block JNull in
    if json_truthy name then
      match name with
      | JStr s =>
          if loop_or_ram s then Returned devices
          else Fell (devices ++ [device_entry block name])
      | _ => Raised NoAttribute
      end
    else Fell (devices ++ [device_entry block name])
  else Fell devices.

(** [for item in items: f(item)], where [f] may run out of fuel. *)
Fixpoint for_each (f : json -> list device -> option (walked (list device)))
    (items : list json) (devices : list device)
  : option (walked (list device)) :=
  match items with
  | [] => Some (Done devices)
  | item :: rest =>
      match f item devices with
      | Some (Done devices') => for_each f rest devices'
      | other => other
      end
  end.

(** [for item in v: f(item)] for any value [v], where [f] raises on
    every string: a string yields its characters and a dict its keys,
    so the first item raises; a number, a bool or [None] is not
    iterable. *)
Definition for_in (f : json -> list device -> option (walked (list device)))
    (v : json) (devices : list device) : option (walked (list device)) :=
  match v with
  | JArr items => for_each f items devices
  | JStr [] | JObj [] => Some (Done devices)
  | JStr _ | JObj _ => Some (Failed NoAttribute)
  | JNull | JBool _ | JInt _ | JFloat _ _ => Some (Failed NotIterable)
  end.

(** [walk(block)], with [devices] before and after; [None] when the fuel
    does not suffice. *)
Fixpoint walk (fuel : nat) (block : json) (devices : list device)
  : option (walked (list device)) :=
  match fuel with
  | O => None
  | S fuel' =>
      match block with
      | JObj d =>
          match visit d devices with
          | Returned devices' => Some (Done devices')
          | Raised e => Some (Failed e)
          | Fell devices' =>
              let children := obj_get (py "children") d (JArr []) in
              for_in (walk fuel')
                (if json_truthy children then children else JArr []) devices'
          end
      | _ => Some (Failed NoAttribute)
      end
  end.

(** The body of [list_drives] from [devices = []] on. *)
Definition walk_blockdevices (fuel : nat) (data : json)
  : option (walked (list device)) :=
  match data with
  | JObj d => for_in (walk fuel) (obj_get (py "blockdevices") d (JArr [])) []
  | _ => Some (Failed NoAttribute)
  end.

(** The nesting depth of a document. *)
Fixpoint depth (v : json) : nat :=
  match v with
  | JArr l => S (fold_right (fun x m => Nat.max (depth x) m) 0%nat l)
  | JObj d => S (fold_right (fun kv m => Nat.max (depth (snd kv)) m) 0%nat d)
  | _ => 0%nat
  end.

(** [list_drives] after [json.loads], with the fuel the document needs. *)
Definition drives_of (data : json) : option (walked (list device)) :=
  walk_blockdevices (depth data) data.

(** The keys of a listed device. *)
Definition device_keys : list pystr :=
  [py "name"; py "path"; py "size"; py "model"; py "serial";
   py "transport"].

(** A block as lsblk prints one without children: a dict with a string
    under "type" and under "name", and no "children" or a null one. *)
Definition leaf_block (v : json) : bool :=
  match v with
  | JObj d =>
      match obj_get (py "type") d JNull, obj_get (py "name") d JNull,
            obj_get (py "children") d JNull with
      | JStr _, JStr _, JNull => true
      | _, _, _ => false
      end
  | _ => false
  end.

(** Whether [walk] lists a leaf block: a disk not named loop* or ram*. *)
Definition listed (v : json) : bool :=
  match v with
  | JObj d =>
      is_text (py "disk") (obj_get (py "type") d JNull)
      && match obj_get (py "name") d JNull with
         | JStr s => negb (loop_or_ram s)
         | _ => false
         end
  | _ => false
  end.

(** The device dict of a block. *)
Definition entry_of (v : json) : device :=
  match v with
  | JObj d => device_entry d (obj_get (py "name") d JNull)
  | _ => []
  end.

(** What every listed device looks like. *)
Definition well_shaped (dev : device) : Prop :=
  map fst dev = device_keys
  /\ obj_get (py "path") dev JNull
     = JStr (py "/dev/" ++ shown_name (obj_get (py "name") dev JNull))
  /\ match obj_get (py "name") dev JNull with
     | JStr s => loop_or_ram s = false
     | other => json_truthy other = false
     end.

End Lsblk.
(* ===================================================================== *)
(** * More concrete inputs *)
(* ===================================================================== *)

Module MoreSamples.
Import Samples.

(** An excerpt of what [hdparm -I] prints, as lines. *)
Definition identify_lines : list pystr :=
  [ py "/dev/sdx:";
    [];
    py "ATA device, with non-removable media";
    TAB ++ py "Model Number:       Samsung SSD 860 EVO 500GB";
    TAB ++ py "Serial Number:      S3Z9NB0K123456A";
    TAB ++ py "Firmware Revision:  RVT02B6Q";
    TAB ++ py "device size with M = 1000*1000:      500107 MBytes (500 GB)";
    py "Security: ";
    TAB ++ py "Master password revision code = 65534";
    TAB ++ TAB ++ py "supported";
    TAB ++ py "not" ++ TAB ++ py "enabled";
    TAB ++ py "not" ++ TAB ++ py "locked";
    TAB ++ TAB ++ py "frozen";
    TAB ++ TAB ++ py "supported: enhanced erase";
    TAB ++ py "2min for SECURITY ERASE UNIT. 8min for ENHANCED SECURITY ERASE UNIT.";
    py "Logical Unit WWN Device Identifier: 5002538e4091fd3a" ].

(** The lines joined by line feeds: the text [hdparm -I] prints. *)
Definition identify_text : pystr :=
  flat_map (fun line => line ++ LF) identify_lines.

(** A text without anything the parser reacts to. *)
Definition garbled : pystr :=
  py "hdparm: ioctl failed" ++ LF ++ [0; 255; 8232; 65533]%N ++ py "???"
  ++ [13; 10]%N ++ py " : : :".

(** A stand-in for the digest that keeps what it was fed: the byte values. *)
Definition byte_values (data : list Byte.byte) : pystr :=
  map Byte.to_N data.

(** A world whose devices all read like a file holding [content]. *)
Definition file_world (content : list Byte.byte) : WipeDrive.env :=
  {| WipeDrive.path_exists := fun _ _ => true;
     WipeDrive.stdin_line := fun _ => inl (py "YES");
     WipeDrive.run_process :=
       fun _ _ => inl (WipeDrive.Build_CompletedProcess 0 [] []);
     WipeDrive.clock := fun _ => py "2024-01-01T00:00:00Z";
     WipeDrive.dev_open := fun _ _ => None;
     WipeDrive.dev_read :=
       fun t device n =>
         inl (firstn (Z.to_nat n) (skipn (WipeCount.offset device t) content));
     WipeDrive.fs_mkdir := fun _ _ => None;
     WipeDrive.fs_append := fun _ _ _ => None;
     WipeDrive.console := fun _ _ _ => None |}.

Definition five_bytes : list Byte.byte :=
  [Byte.x01; Byte.x02; Byte.x03; Byte.x04; Byte.x05].

(** A world without device nodes. *)
Definition world_without_devices : WipeDrive.env :=
  {| WipeDrive.path_exists := fun _ _ => false;
     WipeDrive.stdin_line := fun _ => inl (py "YES");
     WipeDrive.run_process :=
       fun _ _ => inl (WipeDrive.Build_CompletedProcess 0 [] []);
     WipeDrive.clock := fun _ => py "2024-01-01T00:00:00Z";
     WipeDrive.dev_open := fun _ _ => None;
     WipeDrive.dev_read := fun _ _ _ => inl [];
     WipeDrive.fs_mkdir := fun _ _ => None;
     WipeDrive.fs_append := fun _ _ _ => None;
     WipeDrive.console := fun _ _ _ => None |}.

(** A world in which the operator types [line] at every prompt. *)
Definition world_answering (line : pystr) : WipeDrive.env :=
  {| WipeDrive.path_exists := fun _ _ => true;
     WipeDrive.stdin_line := fun _ => inl line;
     WipeDrive.run_process :=
       fun _ _ => inl (WipeDrive.Build_CompletedProcess 0 [] []);
     WipeDrive.clock := fun _ => py "2024-01-01T00:00:00Z";
     WipeDrive.dev_open := fun _ _ => None;
     WipeDrive.dev_read := fun _ _ _ => inl [];
     WipeDrive.fs_mkdir := fun _ _ => None;
     WipeDrive.fs_append := fun _ _ _ => None;
     WipeDrive.console := fun _ _ _ => None |}.

(** A world in which every command prints bytes that are not text:
    [subprocess.run] raises the decoding error. *)
Definition world_undecodable : WipeDrive.env :=
  {| WipeDrive.path_exists := fun _ _ => true;
     WipeDrive.stdin_line := fun _ => inl (py "YES");
     WipeDrive.run_process := fun _ _ => inr ValueError;
     WipeDrive.clock := fun _ => py "2024-01-01T00:00:00Z";
     WipeDrive.dev_open := fun _ _ => None;
     WipeDrive.dev_read := fun _ _ _ => inl [];
     WipeDrive.fs_mkdir := fun _ _ => None;
     WipeDrive.fs_append := fun _ _ _ => None;
     WipeDrive.console := fun _ _ _ => None |}.

(** Two inventory entries as [list_drives] builds them, and one without
    a path. *)
Definition sda_entry : dict :=
  [(py "name", VStr (py "sda")); (py "path", VStr (py "/dev/sda"))].

Definition sdx_entry : dict :=
  [(py "name", VStr (py "sdx")); (py "path", VStr sdx)].

Definition pathless_entry : dict := [(py "name", VStr (py "sdx"))].

(** What [json.loads] makes of an lsblk listing: a disk with a partition,
    a loop device typed as a disk with a child, and an optical drive. *)
Definition sda_block : Lsblk.json :=
  Lsblk.JObj
    [(py "name", Lsblk.JStr (py "sda"));
     (py "type", Lsblk.JStr (py "disk"));
     (py "size", Lsblk.JStr (py "465.8G"));
     (py "model", Lsblk.JStr (py "Samsung SSD 860"));
     (py "serial", Lsblk.JStr (py "S3Z9NB0K123456A"));
     (py "tran", Lsblk.JStr (py "sata"));
     (py "children",
      Lsblk.JArr
        [Lsblk.JObj [(py "name", Lsblk.JStr (py "sda1"));
                     (py "type", Lsblk.JStr (py "part"));
                     (py "size", Lsblk.JStr (py "465.8G"))]])].

Definition loop_block : Lsblk.json :=
  Lsblk.JObj
    [(py "name", Lsblk.JStr (py "loop0"));
     (py "type", Lsblk.JStr (py "disk"));
     (py "children",
      Lsblk.JArr
        [Lsblk.JObj [(py "name", Lsblk.JStr (py "sdz"));
                     (py "type", Lsblk.JStr (py "disk"))]])].

Definition rom_block : Lsblk.json :=
  Lsblk.JObj
    [(py "name", Lsblk.JStr (py "sr0"));
     (py "type", Lsblk.JStr (py "rom"));
     (py "size", Lsblk.JStr (py "1024M"));
     (py "model", Lsblk.JNull)].

Definition usb_block : Lsblk.json :=
  Lsblk.JObj
    [(py "name", Lsblk.JStr (py "sdb"));
     (py "type", Lsblk.JStr (py "disk"));
     (py "size", Lsblk.JStr (py "14.9G"));
     (py "tran", Lsblk.JStr (py "usb"));
     (py "children", Lsblk.JNull)].

Definition inventory : Lsblk.json :=
  Lsblk.JObj [(py "blockdevices",
               Lsblk.JArr [sda_block; loop_block; rom_block])].

Definition sda_device : Lsblk.device :=
  [(py "name", Lsblk.JStr (py "sda"));
   (py "path", Lsblk.JStr (py "/dev/sda"));
   (py "size", Lsblk.JStr (py "465.8G"));
   (py "model", Lsblk.JStr (py "Samsung SSD 860"));
   (py "serial", Lsblk.JStr (py "S3Z9NB0K123456A"));
   (py "transport", Lsblk.JStr (py "sata"))].

Definition flat_blocks : list Lsblk.json :=
  [rom_block; usb_block;
   Lsblk.JObj [(py "name", Lsblk.JStr (py "ram0"));
               (py "type", Lsblk.JStr (py "disk"))]].

Definition usb_device : Lsblk.device :=
  [(py "name", Lsblk.JStr (py "sdb"));
   (py "path", Lsblk.JStr (py "/dev/sdb"));
   (py "size", Lsblk.JStr (py "14.9G"));
   (py "model", Lsblk.JNull);
   (py "serial", Lsblk.JNull);
   (py "transport", Lsblk.JStr (py "usb"))].

End MoreSamples.

(* ===================================================================== *)
(** * Facts about strings and dicts *)
(* ===================================================================== *)

Lemma str_eqb_true_iff (a b : pystr) : str_eqb a b = true <-> a = b.
Proof.
  revert b. induction a as [|x a IH]; intros [|y b]; simpl;
    try (split; (discriminate || reflexivity)).
  rewrite andb_true_iff, N.eqb_eq, IH. split.
  - now intros [-> ->].
  - now intros [= -> ->].
Qed.

Lemma str_eqb_refl (a : pystr) : str_eqb a a = true.
Proof. now apply str_eqb_true_iff. Qed.

Lemma dict_get_set_same (k : pystr) (v : pyval) (d : dict) :
  dict_get k (dict_set k v d) = Some v.
Proof.
  induction d as [|[k0 v0] rest IH]; simpl.
  - now rewrite str_eqb_refl.
  - destruct (str_eqb k k0) eqn:Hk; simpl; rewrite Hk; auto.
Qed.

Lemma dict_get_set_other (k k' : pystr) (v : pyval) (d : dict) :
  str_eqb k k' = false -> dict_get k (dict_set k' v d) = dict_get k d.
Proof.
  intros Hne. induction d as [|[k0 v0] rest IH]; simpl.
  - now rewrite Hne.
  - destruct (str_eqb k' k0) eqn:Hk; simpl.
    + apply str_eqb_true_iff in Hk. subst k0. now rewrite Hne.
    + now rewrite IH.
Qed.

Lemma dict_get_setdefault_other (k k' : pystr) (v : pyval) (d : dict) :
  str_eqb k k' = false ->
  dict_get k (dict_setdefault k' v d) = dict_get k d.
Proof.
  intros Hne. unfold dict_setdefault.
  destruct (dict_get k' d); auto using dict_get_set_other.
Qed.

Lemma find_sub_startswith (p s : pystr) :
  startswith p s = true ->
  find_sub p s = Some ([], skipn (List.length p) s).
Proof.
  intros H. destruct s; simpl; now rewrite H.
Qed.

Lemma split1_second (sep s : pystr) :
  (List.length (split1 sep s) =? 2)%nat = true ->
  exists v, py_index (split1 sep s) 1 = Ret v.
Proof.
  unfold split1. destruct (find_sub sep s) as [[b a]|]; simpl.
  - intros _. now exists a.
  - discriminate.
Qed.


Lemma startswith_app (p s : pystr) : startswith p (p ++ s) = true.
Proof.
  induction p as [|c p IH]; simpl; [reflexivity|].
  now rewrite N.eqb_refl.
Qed.

Lemma startswith_split (p s : pystr) :
  startswith p s = true -> s = p ++ skipn (List.length p) s.
Proof.
  revert s. induction p as [|c p IH]; intros [|x s]; simpl;
    try reflexivity; try discriminate.
  rewrite andb_true_iff, N.eqb_eq. intros [-> H]. f_equal. now apply IH.
Qed.

Lemma find_sub_split (n s a b : pystr) :
  find_sub n s = Some (a, b) -> s = a ++ n ++ b.
Proof.
  revert a. induction s as [|c rest IH]; intros a; simpl.
  - destruct (startswith n []) eqn:Hs; [|discriminate].
    intros [= <- <-]. now apply startswith_split.
  - destruct (startswith n (c :: rest)) eqn:Hs.
    + intros [= <- <-]. now apply startswith_split.
    + destruct (find_sub n rest) as [[a' b']|]; [|discriminate].
      intros [= <- <-]. simpl. f_equal. now apply IH.
Qed.

Lemma contains_app (n a b : pystr) : contains n (a ++ n ++ b) = true.
Proof.
  unfold contains. induction a as [|c a IH]; simpl.
  - now rewrite (find_sub_startswith _ _ (startswith_app n b)).
  - destruct (startswith n (c :: a ++ n ++ b)); [reflexivity|].
    destruct (find_sub n (a ++ n ++ b)) as [[a' b']|];
      [reflexivity|discriminate].
Qed.

Lemma contains_split (n s : pystr) :
  contains n s = true -> exists a b, s = a ++ n ++ b.
Proof.
  unfold contains. destruct (find_sub n s) as [[a b]|] eqn:H;
    [|discriminate].
  intros _. exists a, b. now apply find_sub_split.
Qed.

Lemma lower_from_app f whole (a b : pystr) : forall i,
  lower_from f whole i (a ++ b)
  = lower_from f whole i a ++ lower_from f whole (i + List.length a) b.
Proof.
  induction a as [|c a IH]; intros i; simpl.
  - now rewrite Nat.add_0_r.
  - now rewrite IH, <- app_assoc, Nat.add_succ_r.
Qed.

Lemma lower_from_plain f whole (n : pystr) : forall i,
  forallb plain n = true -> lower_from f whole i n = n.
Proof.
  induction n as [|c n IH]; intros i; simpl; [reflexivity|].
  unfold plain at 1. rewrite !andb_true_iff, negb_true_iff.
  intros [[Hascii Hcap] Hn]. rewrite Hascii. unfold lower_ascii.
  rewrite Hcap. simpl. f_equal. now apply IH.
Qed.

Lemma lstrip_keeps (a rest : pystr) (c : N) (r : pystr) :
  rest = c :: r -> is_space c = false ->
  exists a', lstrip (a ++ rest) = a' ++ rest.
Proof.
  intros -> Hc. induction a as [|x a IH]; simpl.
  - rewrite Hc. now exists [].
  - destruct (is_space x); [exact IH|]. now exists (x :: a).
Qed.

(** A text that occurs in a line and neither starts nor ends with white
    space, and that lower-casing leaves alone, still occurs in the
    stripped, lower-cased line. *)
Lemma contains_strip_lower f (n line : pystr) (c1 c2 : N) (r1 r2 : pystr) :
  forallb plain n = true ->
  n = c1 :: r1 -> is_space c1 = false ->
  rev n = c2 :: r2 -> is_space c2 = false ->
  contains n line = true ->
  contains n (lower f (strip line)) = true.
Proof.
  intros Hplain Hhd Hc1 Hlast Hc2 Hin.
  destruct (contains_split _ _ Hin) as (a & b & ->).
  assert (exists a' b', strip (a ++ n ++ b) = a' ++ n ++ b')
    as (a' & b' & ->).
  { unfold strip, rstrip.
    destruct (@lstrip_keeps a (n ++ b) c1 (r1 ++ b)) as (a' & ->);
      [now rewrite Hhd|exact Hc1|].
    rewrite !rev_app_distr, <- app_assoc.
    destruct (@lstrip_keeps (rev b) (rev n ++ rev a') c2 (r2 ++ rev a'))
      as (b' & ->); [now rewrite Hlast|exact Hc2|].
    rewrite !rev_app_distr, !rev_involutive, <- app_assoc.
    now exists a', (rev b'). }
  unfold lower. rewrite !lower_from_app, (lower_from_plain _ _ _ _ Hplain).
  apply contains_app.
Qed.
(* ===================================================================== *)
(** * The identity parser *)
(* ===================================================================== *)

Section ParserFacts.
Import HdparmParser ParserView.
Variable lower_nonascii : pystr -> nat -> pystr.

Local Abbreviation parse_line := (parse_line lower_nonascii).
Local Abbreviation parse_lines := (parse_lines lower_nonascii).

Lemma touches_get k d d' : touches k d d' -> dict_get k d' = dict_get k d.
Proof.
  induction 1; auto using dict_get_set_other, dict_get_setdefault_other.
  congruence.
Qed.

Lemma set_after_label_returns key label stripped d :
  startswith label stripped = true ->
  exists v, set_after_label key label stripped d
            = Ret (dict_set key (VStr v) d).
Proof.
  intros H. unfold set_after_label, split1.
  rewrite (find_sub_startswith _ _ H). simpl. eauto.
Qed.

Lemma identity_fields_returns stripped d :
  exists d', identity_fields stripped d = Ret d'
             /\ touches (py "raw") d d'.
Proof.
  unfold identity_fields.
  destruct (startswith (py "Model Number:") stripped) eqn:H1;
    [|destruct (startswith (py "Serial Number:") stripped) eqn:H2;
      [|destruct (startswith (py "Firmware Revision:") stripped) eqn:H3]].
  - destruct (set_after_label_returns (py "model") _ _ d H1) as [v ->].
    eexists; split; [reflexivity|]. now constructor.
  - destruct (set_after_label_returns (py "serial") _ _ d H2) as [v ->].
    eexists; split; [reflexivity|]. now constructor.
  - destruct (set_after_label_returns (py "firmware") _ _ d H3) as [v ->].
    eexists; split; [reflexivity|]. now constructor.
  - eexists; split; [reflexivity|]. constructor.
Qed.

Lemma size_field_returns stripped d :
  exists d', size_field stripped d = Ret d' /\ touches (py "raw") d d'.
Proof.
  unfold size_field.
  destruct (contains _ stripped);
    [|eexists; split; [reflexivity|constructor]].
  destruct (List.length (split1 (py ":") stripped) =? 2)%nat eqn:Hlen;
    [|eexists; split; [reflexivity|constructor]].
  destruct (split1_second _ _ Hlen) as [v ->]. simpl.
  eexists; split; [reflexivity|]. now constructor.
Qed.

Lemma security_flags_touches stripped low d :
  touches (py "raw") d (security_flags stripped low d).
Proof.
  unfold security_flags.
  repeat match goal with
         | |- context [if ?c then _ else _] => destruct c
         end;
    repeat (first [ apply touches_refl
                  | eapply touches_trans;
                    [|first [ now apply touches_set
                            | now apply touches_setdefault ]] ]).
Qed.

(** One iteration always returns, and what it returns is determined by
    the tests on the line. *)
Lemma parse_line_returns st line :
  exists d,
    touches (py "raw") (data st) d /\
    parse_line st line =
    Ret (if startswith (py "Security:") (strip line) then PState d true
         else if in_security st then
           if nonblank (strip line) && negb (indented line)
           then PState d false
           else PState (security_flags (strip line)
                          (lower lower_nonascii (strip line)) d) true
         else PState d false).
Proof.
  unfold HdparmParser.parse_line.
  destruct (identity_fields_returns (strip line) (data st))
    as (d1 & -> & T1).
  cbn [obind].
  destruct (size_field_returns (strip line) d1) as (d2 & -> & T2).
  exists d2. split; [eapply touches_trans; eauto|]. simpl.
  repeat match goal with
         | |- context [if ?c then _ else _] => destruct c
         end; reflexivity.
Qed.

Lemma parse_line_keeps_raw st line :
  exists st', parse_line st line = Ret st'
              /\ dict_get (py "raw") (data st')
                 = dict_get (py "raw") (data st).
Proof.
  destruct (parse_line_returns st line) as (d & T & ->).
  eexists; split; [reflexivity|].
  repeat match goal with
         | |- context [if ?c then _ else _] => destruct c
         end; simpl;
    try (apply touches_get; assumption).
  apply touches_get. eapply touches_trans; [eassumption|].
  apply security_flags_touches.
Qed.

Lemma parse_lines_keeps_raw lines : forall st,
  exists st', parse_lines st lines = Ret st'
              /\ dict_get (py "raw") (data st')
                 = dict_get (py "raw") (data st).
Proof.
  induction lines as [|line rest IH]; intros st; simpl.
  - eauto.
  - destruct (parse_line_keeps_raw st line) as (st1 & -> & H1). simpl.
    destruct (IH st1) as (st2 & -> & H2).
    eexists; split; [reflexivity|]. congruence.
Qed.

(** C5: for every input text, [parse_hdparm_identity] returns (it neither
    raises nor exits), and the returned record holds the input text,
    unchanged, under the key "raw". *)
Theorem parse_hdparm_identity_total_keeps_raw (text : pystr) :
  exists d, parse_hdparm_identity lower_nonascii text = Ret d
            /\ dict_get (py "raw") d = Some (VStr text).
Proof.
  unfold parse_hdparm_identity.
  destruct (parse_lines_keeps_raw (splitlines text) (initial text))
    as (st & -> & H).
  exists (data st). split; [reflexivity|].
  rewrite H. reflexivity.
Qed.

End ParserFacts.

Section ParserProperties.
Import HdparmParser ParserView.
Variable lower_nonascii : pystr -> nat -> pystr.

Local Abbreviation parse_line := (parse_line lower_nonascii).
Local Abbreviation parse_lines := (parse_lines lower_nonascii).

(** The value of [in_security] after one iteration. *)
Lemma parse_line_mode st line :
  exists st',
    parse_line st line = Ret st' /\
    in_security st' =
      if startswith (py "Security:") (strip line) then true
      else in_security st
           && negb (nonblank (strip line) && negb (indented line)).
Proof.
  destruct (parse_line_returns lower_nonascii st line) as (d & _ & ->).
  eexists; split; [reflexivity|].
  destruct (startswith _ (strip line)); [reflexivity|].
  destruct (in_security st); [|reflexivity].
  destruct (nonblank (strip line) && negb (indented line)); reflexivity.
Qed.

(** C6 (on the code): for the text
    "Security:\n   supported\n  not enabled\n" the parser returns a record
    in which security_supported is true and the key security_enabled is
    absent: the line "not enabled" does not start with "enabled", so the
    enabled rule never sees it. *)
Theorem security_text_leaves_enabled_unset :
  exists d,
    parse_hdparm_identity lower_nonascii Samples.security_text = Ret d
    /\ dict_get (py "security_supported") d = Some (VBool true)
    /\ dict_get (py "security_enabled") d = None.
Proof.
  eexists. split; [vm_compute; reflexivity|].
  split; reflexivity.
Qed.

(** C8 (amended): outside security-block mode the parser stays outside
    over any run of lines none of which starts (once stripped) with
    "Security:", and a line that does start with "Security:" puts the
    parser into security-block mode from any state, also after the mode
    was left. *)
Theorem security_mode_reentered_at_header
    (st : pstate) (lines : list pystr) (st_any : pstate)
    (header : pystr) :
  in_security st = false ->
  (forall line, In line lines ->
                startswith (py "Security:") (strip line) = false) ->
  startswith (py "Security:") (strip header) = true ->
  (exists st', parse_lines st lines = Ret st'
               /\ in_security st' = false)
  /\ (exists st', parse_line st_any header = Ret st'
                  /\ in_security st' = true).
Proof.
  intros Hout Hplain Hheader. split.
  - revert st Hout. induction lines as [|line rest IH]; intros st Hout.
    + simpl. eauto.
    + destruct (parse_line_mode st line) as (st1 & E1 & M1).
      rewrite (Hplain line (or_introl eq_refl)), Hout in M1.
      simpl in M1 |- *. rewrite E1. simpl.
      apply IH; [|assumption].
      intros l Hl. apply Hplain. now right.
  - destruct (parse_line_mode st_any header) as (st1 & E1 & M1).
    rewrite Hheader in M1. eauto.
Qed.

Lemma security_flags_supported stripped low d :
  contains (py "supported") low = true ->
  dict_get (py "security_supported") (security_flags stripped low d)
  = Some (VBool (negb (contains (py "not") low))).
Proof.
  intros Hs. unfold security_flags. rewrite Hs.
  repeat match goal with
         | |- context [if ?c then _ else _] => destruct c
         end;
    repeat first
      [ rewrite dict_get_setdefault_other by reflexivity
      | rewrite dict_get_set_other by reflexivity ];
    apply dict_get_set_same.
Qed.

Lemma security_flags_enhanced stripped low d :
  contains (py "enhanced erase") low = true ->
  dict_get (py "enhanced_erase_supported") (security_flags stripped low d)
  = Some (VBool (negb (contains (py "not") low))).
Proof.
  intros Hs. unfold security_flags. rewrite Hs.
  repeat match goal with
         | |- context [if ?c then _ else _] => destruct c
         end;
    repeat first
      [ rewrite dict_get_setdefault_other by reflexivity
      | rewrite dict_get_set_other by reflexivity ];
    apply dict_get_set_same.
Qed.

(** The two texts looked for survive stripping and lower-casing. *)
Lemma lowered_contains (needle line : pystr) :
  needle = py "supported" \/ needle = py "enhanced erase"
  \/ needle = py "not" ->
  contains needle line = true ->
  contains needle (lower lower_nonascii (strip line)) = true.
Proof.
  intros [->|[->| ->]];
    eapply contains_strip_lower; reflexivity.
Qed.

(** C10: on every line of the security block that contains "supported"
    (as it stands, or in its stripped lower-cased form, which is what the
    parser tests) the parser assigns security_supported, whatever other
    rule the line also matches.  When the line also contains "enhanced
    erase", enhanced_erase_supported is assigned too, and both get the same
    value: true iff the stripped lower-cased line does not contain "not";
    in particular the value is false when the line contains "not". *)
Theorem supported_check_applies_to_every_block_line
    (st : pstate) (line : pystr) :
  let low := lower lower_nonascii (strip line) in
  security_block_line st line ->
  contains (py "supported") line = true
  \/ contains (py "supported") low = true ->
  exists st',
    parse_line st line = Ret st' /\
    let b := negb (contains (py "not") low) in
    dict_get (py "security_supported") (data st') = Some (VBool b)
    /\ (contains (py "not") line = true -> b = false)
    /\ (contains (py "enhanced erase") line = true
        \/ contains (py "enhanced erase") low = true ->
        dict_get (py "enhanced_erase_supported") (data st')
        = Some (VBool b)).
Proof.
  intros low (Hin & Hhead & Hblock) Hsup.
  assert (contains (py "supported") low = true) as Hsup'.
  { destruct Hsup as [H|H]; [|exact H].
    apply lowered_contains; auto. }
  destruct (parse_line_returns lower_nonascii st line) as (d & _ & ->).
  rewrite Hhead, Hin, Hblock.
  eexists; split; [reflexivity|]. simpl.
  split; [now apply security_flags_supported|].
  split.
  - intros Hnot. apply lowered_contains in Hnot; auto.
    fold low in Hnot. now rewrite Hnot.
  - intros Henh. apply security_flags_enhanced.
    destruct Henh as [H|H]; [|exact H].
    apply lowered_contains; auto.
Qed.

End ParserProperties.

(** C8, counterexample: in a text with two "Security:" sections separated
    by an unindented line, the parser leaves security-block mode at that
    line and is back in it after the second header. *)
Lemma two_sections_reenter :
  ~ ParserView.never_reenters Samples.caseless Samples.two_sections.
Proof.
  intros H.
  pose proof (H 2%nat 4%nat) as H'.
  vm_compute in H'.
  specialize (H' _ _ _ eq_refl eq_refl eq_refl eq_refl
                 (le_S _ _ (le_n _)) eq_refl).
  discriminate H'.
Qed.

(** C8, witness of the amended statement: the run "Checksum: correct"
    outside the block, and the header "Security:" from a state outside the
    block. *)
Lemma security_mode_reentered_at_header_witness :
  let st := HdparmParser.PState [] false in
  let lines := [py "Checksum: correct"] in
  HdparmParser.in_security st = false
  /\ startswith (py "Security:") (strip (py "Security:")) = true
  /\ (exists st',
         HdparmParser.parse_lines Samples.caseless st lines = Ret st'
         /\ HdparmParser.in_security st' = false)
  /\ (exists st',
         HdparmParser.parse_line Samples.caseless st (py "Security:")
         = Ret st'
         /\ HdparmParser.in_security st' = true).
Proof.
  split; [reflexivity|]. split; [reflexivity|].
  apply (@security_mode_reentered_at_header Samples.caseless
           (HdparmParser.PState [] false) [py "Checksum: correct"]
           (HdparmParser.PState [] false) (py "Security:")).
  - reflexivity.
  - intros line [<-|[]]. reflexivity.
  - reflexivity.
Defined.

(** C10, witness: the line "\tnot\tsupported: enhanced erase" inside the
    security block sets both flags to false. *)
Lemma supported_check_applies_witness :
  let st := HdparmParser.PState [] true in
  ParserView.security_block_line st Samples.enhanced_line
  /\ contains (py "supported") Samples.enhanced_line = true
  /\ contains (py "enhanced erase") Samples.enhanced_line = true
  /\ exists st',
       HdparmParser.parse_line Samples.caseless st Samples.enhanced_line
       = Ret st'
       /\ dict_get (py "security_supported") (HdparmParser.data st')
          = Some (VBool false)
       /\ dict_get (py "enhanced_erase_supported") (HdparmParser.data st')
          = Some (VBool false).
Proof.
  split; [repeat split; reflexivity|].
  split; [reflexivity|]. split; [reflexivity|].
  destruct (@supported_check_applies_to_every_block_line Samples.caseless
              (HdparmParser.PState [] true) Samples.enhanced_line)
    as (st' & Hrun & Hsup & _ & Henh).
  - repeat split; reflexivity.
  - left. reflexivity.
  - exists st'. split; [exact Hrun|]. split; [exact Hsup|].
    apply Henh. left. reflexivity.
Defined.

(* ===================================================================== *)
(** * The erase driver and the orchestrator *)
(* ===================================================================== *)

Module WipeLogic.
Import WipeDrive WipeView.

Lemma event_ok_runs Prun Psample Prec t :
  Forall (event_ok Prun Psample Prec) t ->
  Forall (fun cr => Prun (fst cr)) (runs_of t).
Proof.
  induction 1 as [|e t He _ IH]; simpl; [constructor|].
  destruct e; simpl in *; auto.
Qed.

Lemma event_ok_appended Prun Psample Prec t :
  Forall (event_ok Prun Psample Prec) t -> Forall Prec (appended t).
Proof.
  induction 1 as [|e t He _ IH]; simpl; [constructor|].
  destruct e; simpl in *; auto.
Qed.

Lemma event_ok_sampler Prun Prec t :
  Forall (event_ok Prun False Prec) t -> sampler_calls t = [].
Proof.
  induction 1 as [|e t He _ IH]; simpl; [reflexivity|].
  destruct e; simpl in *; auto. contradiction.
Qed.

Section Hoare.
Variable lower_nonascii : pystr -> nat -> pystr.
Variable sha256_hex : list Byte.byte -> pystr.
Variable lsblk_devices : pystr -> outcome (list dict).
Variable E : env.

Variable Prun : list pystr -> Prop.
Variable Psample : Prop.
Variable Prec : dict -> Prop.

Local Abbreviation M := (Eff.M trace).
Local Abbreviation P := (event_ok Prun Psample Prec).
Local Abbreviation sat Q m := (WipeView.sat P Q m).

Lemma sat_ret {A} (Q : A -> Prop) a : Q a -> sat Q (ret a).
Proof.
  intros H t. exists []. simpl. rewrite app_nil_r.
  repeat split; auto. intros ? [= <-]. exact H.
Qed.

Lemma sat_lift {A} (Q : A -> Prop) (o : outcome A) :
  (forall a, o = Ret a -> Q a) -> sat Q (lift o).
Proof.
  intros H t. exists []. simpl. rewrite app_nil_r. repeat split; auto.
Qed.

Lemma sat_exit {A} (Q : A -> Prop) c : sat Q (sys_exit c).
Proof.
  intros t. exists []. simpl. rewrite app_nil_r.
  repeat split; auto. discriminate.
Qed.

Lemma sat_raise {A} (Q : A -> Prop) e : sat Q (raise e).
Proof.
  intros t. exists []. simpl. rewrite app_nil_r.
  repeat split; auto. discriminate.
Qed.

Lemma sat_bind {A B} (Q : A -> Prop) (R : B -> Prop) (m : M A)
    (k : A -> M B) :
  sat Q m -> (forall a, Q a -> sat R (k a)) -> sat R (bind m k).
Proof.
  intros Hm Hk t. destruct (Hm t) as (n1 & E1 & F1 & Q1).
  unfold bind. destruct (m t) as [t1 [a|e|c]]; simpl in *; subst t1.
  - destruct (Hk a (Q1 a eq_refl) (t ++ n1)) as (n2 & E2 & F2 & Q2).
    exists (n1 ++ n2). rewrite E2, app_assoc.
    split; [reflexivity|]. split; [|exact Q2].
    apply Forall_app. auto.
  - exists n1. repeat split; auto. discriminate.
  - exists n1. repeat split; auto. discriminate.
Qed.

Lemma sat_try {A} (Q : A -> Prop) (m : M A) (h : exn -> M A) :
  sat Q m -> (forall e, sat Q (h e)) -> sat Q (try_except m h).
Proof.
  intros Hm Hh t. destruct (Hm t) as (n1 & E1 & F1 & Q1).
  unfold try_except. destruct (m t) as [t1 [a|e|c]]; simpl in *; subst t1.
  - exists n1. auto.
  - destruct (Hh e (t ++ n1)) as (n2 & E2 & F2 & Q2).
    exists (n1 ++ n2). rewrite E2, app_assoc.
    split; [reflexivity|]. split; [|exact Q2].
    apply Forall_app. auto.
  - exists n1. repeat split; auto.
Qed.

Lemma sat_weaken {A} (Q Q' : A -> Prop) (m : M A) :
  sat Q m -> (forall a, Q a -> Q' a) -> sat Q' m.
Proof.
  intros Hm HQ t. destruct (Hm t) as (n & E1 & F1 & Q1).
  exists n. repeat split; auto.
Qed.

Lemma sat_ask {R A} (Q : A -> Prop) (oracle : trace -> R)
    (ev : R -> event) (k : R -> outcome A) :
  (forall r, P (ev r)) -> (forall r a, k r = Ret a -> Q a) ->
  sat Q (ask oracle ev k).
Proof.
  intros HP HQ t. exists [ev (oracle t)]. unfold ask. simpl.
  repeat split; eauto.
Qed.

Lemma sat_print {Q : unit -> Prop} to text :
  Q tt -> sat Q (print E to text).
Proof.
  intros H. apply sat_ask; [intros r; exact I|].
  intros r [] _. exact H.
Qed.

(** One statement of a function body: the action is covered by a lemma
    that asks nothing of its result. *)
Ltac step lemma := eapply sat_bind; [apply lemma|intros ? _].
Ltac step_print := eapply sat_bind; [apply (@sat_print any); easy|intros _ _].
Ltac step_pure :=
  eapply sat_bind; [apply sat_lift with (Q := any); easy|intros ? _].
Ltac step_ask :=
  eapply sat_bind; [apply sat_ask with (Q := any); easy|intros ? _].

Lemma sat_run_cmd cmd : Prun cmd -> sat any (run_cmd E cmd).
Proof.
  intros H. unfold run_cmd. apply sat_try.
  - apply sat_ask; [intros r; exact H|easy].
  - intros []; try apply sat_raise.
    step_pure. step_print. apply sat_exit.
Qed.

Lemma sat_utc_now_iso : sat any (utc_now_iso E).
Proof. apply sat_ask; easy. Qed.

Lemma sat_list_drives :
  Prun lsblk_cmd -> sat any (list_drives lsblk_devices E).
Proof.
  intros H. unfold list_drives.
  step (sat_run_cmd H).
  destruct (negb _).
  - step_print. apply sat_exit.
  - apply sat_lift. easy.
Qed.

Lemma sat_get_hdparm_info device :
  Prun (hdparm_identify_cmd device) ->
  sat any (get_hdparm_info lower_nonascii E device).
Proof.
  intros H. unfold get_hdparm_info.
  step (sat_run_cmd H).
  destruct (_ || _); [now apply sat_ret|].
  step_pure. now apply sat_ret.
Qed.

Lemma sat_read_loop device fuel : forall remaining acc,
  sat any (read_loop E fuel device remaining acc).
Proof.
  induction fuel as [|fuel IH]; intros remaining acc; simpl;
    destruct (remaining <=? 0)%Z; try (now apply sat_ret).
  eapply sat_bind; [apply sat_ask with (Q := any); easy|].
  intros [|b chunk] _; [now apply sat_ret|apply IH].
Qed.

Lemma sat_sample_hash device num_bytes :
  Psample -> sat any (sample_hash sha256_hex E device num_bytes).
Proof.
  intros H. unfold sample_hash.
  eapply sat_bind with (Q := any).
  { intros t. exists [EvSampleHash device num_bytes]. simpl.
    repeat split; auto. }
  intros _ _. destruct (num_bytes <=? 0)%Z; [now apply sat_ret|].
  apply sat_try.
  - step_ask. step sat_read_loop. now apply sat_ret.
  - intros e. step_print. now apply sat_ret.
Qed.

Lemma sat_ata_secure_erase device password :
  Prun (set_pass_cmd password device) ->
  Prun (erase_cmd password device) ->
  sat success_is_bool (ata_secure_erase E device password).
Proof.
  intros H1 H2. unfold ata_secure_erase.
  step (sat_run_cmd H1).
  destruct (negb _).
  - apply sat_ret. now exists false.
  - step (sat_run_cmd H2).
    destruct (negb _); apply sat_ret; [now exists false|now exists true].
Qed.

Lemma sat_write_log record :
  (forall now, Prec (dict_set (py "logged_at") (VStr now) record)) ->
  sat any (write_log E record).
Proof.
  intros H. unfold write_log.
  step_ask. step sat_utc_now_iso. step sat_utc_now_iso.
  eapply sat_bind; [apply sat_ask with (Q := any); [|easy]|].
  - intros r. apply H.
  - intros _ _. now apply sat_ret.
Qed.

Lemma sat_print_summary device method operator session_id dry_run
    dev_info started_at ended_at pre_hash post_hash method_result record :
  sat any (print_summary E device method operator session_id dry_run
             dev_info started_at ended_at pre_hash post_hash
             method_result record).
Proof.
  unfold print_summary.
  repeat first
    [ now apply sat_ret
    | apply (@sat_print any); easy
    | step_print
    | step_pure
    | match goal with
      | |- WipeView.sat _ _ (bind (if ?c then _ else _) _) =>
          eapply sat_bind with (Q := any); [destruct c|intros ? _]
      | |- WipeView.sat _ _ (if ?c then _ else _) => destruct c
      end ].
Qed.

(** The records [do_wipe] can hand to the log, whatever the world answers:
    the hashes are [None] when sampling is off, and the erase outcome is
    the dry-run dict or has a boolean success flag. *)
Lemma sat_do_wipe device method operator session_id sample_bytes
    assume_yes dry_run :
  Prun lsblk_cmd ->
  Prun (hdparm_identify_cmd device) ->
  (dry_run = false ->
   Prun (set_pass_cmd (py "p") device)
   /\ Prun (erase_cmd (py "p") device)) ->
  ((sample_bytes >? 0)%Z = true -> Psample) ->
  (forall started_at ended_at now pre_hash post_hash dev_info
          hdparm_before hdparm_after method_result,
      ((sample_bytes >? 0)%Z = false ->
       pre_hash = VNone /\ post_hash = VNone) ->
      (if dry_run then method_result = dry_run_result device method
       else success_is_bool method_result) ->
      Prec (dict_set (py "logged_at") (VStr now)
              (session_record device method operator session_id
                 sample_bytes dry_run started_at ended_at pre_hash
                 post_hash dev_info hdparm_before hdparm_after
                 method_result))) ->
  sat any (do_wipe lower_nonascii sha256_hex lsblk_devices E device method
             operator session_id sample_bytes assume_yes dry_run).
Proof.
  intros Hls Hid Hreal Hsample Hrec. unfold do_wipe.
  step_ask.
  eapply sat_bind with (Q := any).
  { destruct (negb _); [|now apply sat_ret].
    step_print. apply sat_exit. }
  intros _ _.
  eapply sat_bind with (Q := any).
  { destruct (negb dry_run && negb assume_yes); [|now apply sat_ret].
    step_ask. destruct (negb _); [|now apply sat_ret].
    step_print. apply sat_exit. }
  intros _ _.
  step (sat_list_drives Hls). step_pure.
  step (sat_get_hdparm_info Hid).
  eapply sat_bind
    with (Q := fun v => (sample_bytes >? 0)%Z = false -> v = VNone).
  { destruct (sample_bytes >? 0)%Z.
    - eapply sat_weaken; [apply sat_sample_hash; auto|]. discriminate.
    - now apply sat_ret. }
  intros pre_hash Hpre.
  step sat_utc_now_iso.
  eapply sat_bind
    with (Q := fun mr => if dry_run
                         then mr = dry_run_result device method
                         else success_is_bool mr).
  { destruct (str_eqb method (py "ata-secure-erase")).
    - destruct dry_run; [now apply sat_ret|].
      destruct (Hreal eq_refl). now apply sat_ata_secure_erase.
    - step_print. apply sat_exit. }
  intros method_result Hmr.
  step sat_utc_now_iso.
  step (sat_get_hdparm_info Hid).
  eapply sat_bind
    with (Q := fun v => (sample_bytes >? 0)%Z = false -> v = VNone).
  { destruct (sample_bytes >? 0)%Z.
    - eapply sat_weaken; [apply sat_sample_hash; auto|]. discriminate.
    - now apply sat_ret. }
  intros post_hash Hpost.
  eapply sat_bind.
  { apply sat_write_log. intros now. apply Hrec; auto. }
  intros record _. apply sat_print_summary.
Qed.

End Hoare.
End WipeLogic.

(** The fuel of [read_loop] does not run out: with [remaining] rounds or
    more at hand, one more round at hand changes nothing, so the loop
    always ends by its own tests. *)
Lemma read_loop_fuel_enough (E : WipeDrive.env) (device : pystr) :
  forall (fuel : nat) (remaining : Z) (acc : list Byte.byte)
         (t : WipeDrive.trace),
    (Z.to_nat remaining <= fuel)%nat ->
    WipeDrive.read_loop E fuel device remaining acc t
    = WipeDrive.read_loop E (S fuel) device remaining acc t.
Proof.
  induction fuel as [|fuel IH]; intros remaining acc t Hfuel.
  - assert ((remaining <=? 0)%Z = true) as Hdone
        by (apply Z.leb_le; lia).
    cbn [WipeDrive.read_loop]. now rewrite Hdone.
  - change (WipeDrive.read_loop E (S (S fuel)) device remaining acc t)
      with ((if (remaining <=? 0)%Z then ret acc
             else bind (WipeDrive.f_read E device
                          (Z.min (1024 * 1024) remaining))
                    (fun chunk =>
                       match chunk with
                       | [] => ret acc
                       | _ => WipeDrive.read_loop E (S fuel) device
                                (remaining - Z.of_nat (List.length chunk))
                                (acc ++ chunk)
                       end)) t).
    change (WipeDrive.read_loop E (S fuel) device remaining acc t)
      with ((if (remaining <=? 0)%Z then ret acc
             else bind (WipeDrive.f_read E device
                          (Z.min (1024 * 1024) remaining))
                    (fun chunk =>
                       match chunk with
                       | [] => ret acc
                       | _ => WipeDrive.read_loop E fuel device
                                (remaining - Z.of_nat (List.length chunk))
                                (acc ++ chunk)
                       end)) t).
    destruct (remaining <=? 0)%Z eqn:Hrem; [reflexivity|].
    apply Z.leb_gt in Hrem.
    unfold bind.
    destruct (WipeDrive.f_read E device (Z.min (1024 * 1024) remaining) t)
      as [t1 [[|b chunk]|e|c]]; try reflexivity.
    apply IH. cbn [List.length]. lia.
Qed.

Section WipeProperties.
Import WipeDrive WipeView WipeLogic.
Variable lower_nonascii : pystr -> nat -> pystr.
Variable sha256_hex : list Byte.byte -> pystr.
Variable lsblk_devices : pystr -> outcome (list dict).
Variable E : env.

Local Abbreviation do_wipe :=
  (do_wipe lower_nonascii sha256_hex lsblk_devices E).

(** Closes the goal [fst run = t ++ ?new /\ _] once [run] is evaluated,
    leaving the second part. *)
Ltac trace_extends :=
  split; [cbn; rewrite <- ?app_assoc; reflexivity|].

(** C3: [ata_secure_erase] runs the security-set-pass command first, and
    it runs the security-erase command if and only if the first command
    returned exit status zero.  It returns an outcome unless a command it
    ran raised.  The outcome has success true iff both commands returned
    zero; when the first did not, its error is "Failed to set security
    password", and when only the second did not, it is "Security erase
    command failed". *)
Theorem ata_secure_erase_sequence (device password : pystr) (t : trace) :
  let c1 := set_pass_cmd password device in
  let c2 := erase_cmd password device in
  let run := ata_secure_erase E device password t in
  exists new r1,
    fst run = t ++ new /\
    r1 = run_process E t c1 /\
    ( (returned_zero r1 = false
       /\ runs_of new = [(c1, r1)]
       /\ match snd run with
          | Ret result =>
              dict_get (py "success") result = Some (VBool false)
              /\ dict_get (py "error") result
                 = Some (VStr (py "Failed to set security password"))
          | _ => exists e, r1 = inr e
          end)
      \/
      (returned_zero r1 = true
       /\ exists r2,
           runs_of new = [(c1, r1); (c2, r2)]
           /\ match snd run with
              | Ret result =>
                  dict_get (py "success") result
                  = Some (VBool (returned_zero r2))
                  /\ dict_get (py "error") result
                     = (if returned_zero r2 then None
                        else Some (VStr (py "Security erase command failed")))
              | _ => exists e, r2 = inr e
              end) ).
Proof.
  intros c1 c2 run. subst run.
  unfold ata_secure_erase, run_cmd, subprocess_run, try_except, print,
    bind, ask.
  fold c1 c2.
  destruct (run_process E t c1) as [cp1|e1] eqn:R1; cbn [or_raise].
  - destruct (returncode cp1 =? 0)%Z eqn:Z1; cbn [negb].
    + destruct (run_process E (t ++ [EvRun c1 (inl cp1)]) c2)
        as [cp2|e2] eqn:R2; cbn [or_raise].
      * exists [EvRun c1 (inl cp1); EvRun c2 (inl cp2)], (inl cp1).
        destruct (returncode cp2 =? 0)%Z eqn:Z2; cbn [negb];
          trace_extends; (split; [reflexivity|]); right;
          (split; [exact Z1|]); exists (inl cp2);
          (split; [reflexivity|]);
          cbn [snd ret returned_zero]; rewrite Z2;
          split; reflexivity.
      * destruct e2; cbn [lift py_index c2 erase_cmd nth_error fst snd];
          try match goal with
              | |- context [console E ?t0 ?s ?x] =>
                  destruct (console E t0 s x)
              end;
          eexists _, (inl cp1); trace_extends;
          (split; [reflexivity|]); right;
          (split; [exact Z1|]); eexists (inr _);
          (split; [reflexivity|]);
          cbn; eauto.
    + exists [EvRun c1 (inl cp1)], (inl cp1).
      trace_extends. split; [reflexivity|]. left.
      split; [exact Z1|]. split; [reflexivity|].
      cbn [snd ret]. split; reflexivity.
  - destruct e1; cbn [lift py_index c1 set_pass_cmd nth_error fst snd];
      try match goal with
          | |- context [console E ?t0 ?s ?x] =>
              destruct (console E t0 s x)
          end;
      eexists _, (inr _); trace_extends;
      (split; [reflexivity|]); left;
      (split; [reflexivity|]); (split; [reflexivity|]);
      cbn; eauto.
Qed.

(** Case analysis on a run of [ata_secure_erase] that returned. *)
Ltac erase_cases H :=
  unfold ata_secure_erase, run_cmd, subprocess_run, try_except, print,
    bind, ask in H;
  repeat
    match type of H with
    | context [run_process ?E0 ?t0 ?c0] =>
        destruct (run_process E0 t0 c0) as [?cp|[]]; cbn in H
    | context [(returncode ?cp0 =? 0)%Z] =>
        destruct (returncode cp0 =? 0)%Z; cbn in H
    | context [console ?E0 ?t0 ?s ?x] =>
        destruct (console E0 t0 s x); cbn in H
    end;
  cbn in H; try discriminate H.

(** The keys of what the real driver returns. *)
Lemma ata_secure_erase_keys E' device password t real :
  snd (ata_secure_erase E' device password t) = Ret real ->
  exists n b,
    dict_get (py "success") real = Some (VBool b)
    /\ (b = true -> n = 2%nat)
    /\ (n = 1%nat \/ n = 2%nat)
    /\ dict_keys real
       = [py "device"; py "method"; py "steps"; py "success"]
         ++ (if b then [] else [py "error"])
    /\ map (entry_keys dict_keys) (steps_of real) = repeat real_step_keys n
    /\ map (entry_get (py "step")) (steps_of real)
       = firstn n [Some (VStr (py "security-set-pass"));
                   Some (VStr (py "security-erase"))].
Proof.
  intros H. erase_cases H; injection H as <-.
  - exists 2%nat, true. repeat split; auto.
  - exists 2%nat, false. repeat split; auto.
  - exists 1%nat, false. repeat split; auto. discriminate.
Qed.

(** The commands of the erase driver are neither the inventory command nor
    the identity query. *)
Lemma harmless_not_destructive (device : pystr) (cmd : list pystr) :
  cmd = lsblk_cmd \/ cmd = hdparm_identify_cmd device ->
  forall password d,
    cmd <> set_pass_cmd password d /\ cmd <> erase_cmd password d.
Proof.
  intros [-> | ->] password d; split; discriminate.
Qed.

End WipeProperties.

(** C7, counterexample: for "/dev/sdx" no outcome returned by the real
    driver has the shape of the dry-run outcome, even with the dry_run and
    simulated markers set aside: real step entries have the keys "cmd",
    "returncode" and "stderr", which the simulated ones lack. *)
Lemma dry_run_shape_differs :
  ~ WipeView.dry_run_shaped_like_real Samples.sdx.
Proof.
  intros (E & t & real & Hrun & _ & Hsteps).
  destruct (ata_secure_erase_keys _ _ _ _ Hrun)
    as (n & b & _ & _ & Hn & _ & Hkeys & _).
  assert (List.length (WipeView.steps_of real) = n) as Hlen.
  { rewrite <- (length_map (WipeView.entry_keys dict_keys)), Hkeys.
    apply repeat_length. }
  destruct (WipeView.steps_of real) as [|s1 rest]; [simpl in Hlen; lia|].
  destruct n as [|n]; [discriminate Hlen|].
  destruct s1 as [| | | | |d1]; try discriminate Hkeys.
  simpl in Hkeys. injection Hkeys as Hk1 _.
  assert (map (WipeView.entry_keys WipeView.plain_keys)
            (WipeView.steps_of
               (WipeDrive.dry_run_result Samples.sdx
                  (py "ata-secure-erase")))
          = [[py "step"]; [py "step"]]) as Hdry by reflexivity.
  rewrite Hdry in Hsteps. cbn [map WipeView.entry_keys] in Hsteps.
  injection Hsteps as Hs _.
  unfold WipeView.plain_keys in Hs. rewrite Hk1 in Hs. discriminate Hs.
Qed.

(** The scenario of the specification: "/dev/sdx", dry run, 1048576 sample
    bytes.  One record is written; it says PASS, and no erase command was
    run. *)
Example dry_run_scenario :
  let run :=
    WipeDrive.do_wipe Samples.caseless Samples.digest Samples.no_devices
      (Samples.world_returning 0 []) Samples.sdx Samples.ata None None
      1048576 false true [] in
  snd run = Ret tt
  /\ map (dict_get (py "result")) (WipeView.appended (fst run))
     = [Some (VStr (py "PASS"))]
  /\ map fst (WipeView.runs_of (fst run))
     = [WipeDrive.lsblk_cmd;
        WipeDrive.hdparm_identify_cmd Samples.sdx;
        WipeDrive.hdparm_identify_cmd Samples.sdx].
Proof. vm_compute. repeat split. Qed.

(** A real run in which the password step returns status 1: the erase
    step is not run, the call returns, and the record written says
    FAIL. *)
Example failed_erase_scenario :
  let run :=
    WipeDrive.do_wipe Samples.caseless Samples.digest Samples.no_devices
      Samples.world_refusing_password Samples.sdx Samples.ata None None
      0 true false [] in
  snd run = Ret tt
  /\ map (dict_get (py "result")) (WipeView.appended (fst run))
     = [Some (VStr (py "FAIL"))]
  /\ map fst (WipeView.runs_of (fst run))
     = [WipeDrive.lsblk_cmd;
        WipeDrive.hdparm_identify_cmd Samples.sdx;
        WipeDrive.set_pass_cmd (py "p") Samples.sdx;
        WipeDrive.hdparm_identify_cmd Samples.sdx].
Proof. vm_compute. repeat split. Qed.

(** The erase driver on its own: both commands return zero. *)
Example erase_succeeds :
  let run :=
    WipeDrive.ata_secure_erase (Samples.world_returning 0 []) Samples.sdx
      (py "p") [] in
  map fst (WipeView.runs_of (fst run))
  = [WipeDrive.set_pass_cmd (py "p") Samples.sdx;
     WipeDrive.erase_cmd (py "p") Samples.sdx]
  /\ exists result,
       snd run = Ret result
       /\ dict_get (py "success") result = Some (VBool true)
       /\ dict_get (py "error") result = None.
Proof. vm_compute. split; [reflexivity|]. eexists. repeat split. Qed.

(** The password is accepted and the erase command returns status 1. *)
Example erase_command_fails :
  let run :=
    WipeDrive.ata_secure_erase
      (Samples.world_failing (py "--security-erase")) Samples.sdx
      (py "p") [] in
  map fst (WipeView.runs_of (fst run))
  = [WipeDrive.set_pass_cmd (py "p") Samples.sdx;
     WipeDrive.erase_cmd (py "p") Samples.sdx]
  /\ exists result,
       snd run = Ret result
       /\ dict_get (py "success") result = Some (VBool false)
       /\ dict_get (py "error") result
          = Some (VStr (py "Security erase command failed")).
Proof. vm_compute. split; [reflexivity|]. eexists. repeat split. Qed.

(** The password is refused: the erase command is not run. *)
Example password_refused :
  let run :=
    WipeDrive.ata_secure_erase Samples.world_refusing_password Samples.sdx
      (py "p") [] in
  map fst (WipeView.runs_of (fst run))
  = [WipeDrive.set_pass_cmd (py "p") Samples.sdx]
  /\ exists result,
       snd run = Ret result
       /\ dict_get (py "success") result = Some (VBool false)
       /\ dict_get (py "error") result
          = Some (VStr (py "Failed to set security password")).
Proof. vm_compute. split; [reflexivity|]. eexists. repeat split. Qed.

(* ===================================================================== *)
(** * The audit sink *)
(* ===================================================================== *)

Section SinkFacts.
Import LoggingManager SinkView.
Variable E : env.

Local Abbreviation M := (Eff.M world).

Lemma inserted_app t1 t2 : inserted (t1 ++ t2) = inserted t1 ++ inserted t2.
Proof. apply flat_map_app. Qed.

Lemma file_attempts_app t1 t2 :
  file_attempts (t1 ++ t2) = file_attempts t1 ++ file_attempts t2.
Proof. apply flat_map_app. Qed.

Lemma printed_app t1 t2 : printed (t1 ++ t2) = printed t1 ++ printed t2.
Proof. apply flat_map_app. Qed.

Lemma db_attempts_app t1 t2 :
  db_attempts (t1 ++ t2) = db_attempts t1 ++ db_attempts t2.
Proof. apply filter_app. Qed.

Lemma db_events_silent new :
  Forall is_db_event new -> file_attempts new = [] /\ printed new = [].
Proof.
  induction 1 as [|e new He _ [IH1 IH2]]; [easy|].
  destruct e; try contradiction; simpl; auto.
Qed.

Lemma same_switch_refl w : same_switch w w.
Proof. repeat split. Qed.

Lemma same_switch_trans w1 w2 w3 :
  same_switch w1 w2 -> same_switch w2 w3 -> same_switch w1 w3.
Proof. unfold same_switch. intuition congruence. Qed.

Lemma db_phase_pure {A} (o : outcome A) :
  no_exit o -> db_phase false (lift o).
Proof.
  intros H w. exists []. simpl. rewrite app_nil_r.
  repeat split; auto. destruct o; simpl in *; auto.
Qed.

Lemma db_phase_ret {A} (a : A) : db_phase false (ret a).
Proof. apply (db_phase_pure (Ret a)). exact I. Qed.

Lemma db_phase_raise {A} final e : db_phase final (@raise world A e).
Proof.
  intros w. exists []. simpl. rewrite app_nil_r. repeat split; auto.
Qed.

Lemma db_phase_read {A} (f : world -> A) : db_phase false (read f).
Proof.
  intros w. exists []. simpl. rewrite app_nil_r. repeat split; auto.
Qed.

Lemma db_phase_set_conn c : db_phase false (set_conn c).
Proof.
  intros w. exists []. simpl. rewrite app_nil_r. repeat split; auto.
Qed.

Lemma db_phase_bind {A B} final (m : M A) (k : A -> M B) :
  db_phase false m -> (forall a, db_phase final (k a)) ->
  db_phase final (bind m k).
Proof.
  intros Hm Hk w. destruct (Hm w) as (n1 & H1 & S1 & F1 & O1).
  unfold bind. destruct (m w) as [w1 [a|e|c]]; simpl in *.
  - destruct (Hk a w1) as (n2 & H2 & S2 & F2 & O2).
    exists (n1 ++ n2). rewrite H2, H1, app_assoc.
    split; [reflexivity|].
    split; [eapply same_switch_trans; eauto|].
    split; [apply Forall_app; auto|].
    rewrite inserted_app, O1. exact O2.
  - exists n1. destruct final; auto.
  - contradiction.
Qed.

Lemma external_run (ask : trace -> option exn) (ev : option exn -> event)
    w :
  external ask ev w
  = (World (_use_db w) (enabled w) (_conn w) (log_path w)
       (history w ++ [ev (ask (history w))]),
     match ask (history w) with None => Ret tt | Some e => Raise e end).
Proof.
  unfold external, bind, read, emit. simpl.
  destruct (ask (history w)); reflexivity.
Qed.

Lemma db_phase_connect : db_phase false (external (db_connect E) EvConnect).
Proof.
  intros w. rewrite external_run. eexists. simpl.
  split; [reflexivity|]. split; [now unfold same_switch|].
  split; [repeat constructor|]. now destruct (db_connect E (history w)).
Qed.

Lemma db_phase_cursor : db_phase false (external (db_cursor E) EvCursor).
Proof.
  intros w. rewrite external_run. eexists. simpl.
  split; [reflexivity|]. split; [now unfold same_switch|].
  split; [repeat constructor|]. now destruct (db_cursor E (history w)).
Qed.

Lemma db_phase_execute row :
  db_phase true (external (fun t => db_execute E t row) (EvExecute row)).
Proof.
  intros w. rewrite external_run. eexists. simpl.
  split; [reflexivity|]. split; [now unfold same_switch|].
  split; [repeat constructor|].
  destruct (db_execute E (history w) row); simpl; eauto.
Qed.

Lemma db_phase__connect : db_phase false (_connect E).
Proof.
  unfold _connect.
  apply db_phase_bind; [apply db_phase_read|]. intros en.
  destruct (negb en); [apply db_phase_ret|].
  apply db_phase_bind; [apply db_phase_read|]. intros [c|].
  - apply db_phase_ret.
  - apply db_phase_bind; [apply db_phase_connect|]. intros _.
    apply db_phase_set_conn.
Qed.

Lemma get_or_no_exit k default x : no_exit (get_or k default x).
Proof. now destruct x. Qed.

Lemma obind_no_exit {A B} (m : outcome A) (k : A -> outcome B) :
  no_exit m -> (forall a, no_exit (k a)) -> no_exit (obind m k).
Proof. destruct m; simpl; auto. Qed.

Lemma insert_values_no_exit event di mr hb ha :
  no_exit (insert_values event di mr hb ha).
Proof.
  unfold insert_values, get.
  repeat (apply obind_no_exit; [apply get_or_no_exit|intros ?]).
  exact I.
Qed.

Lemma db_phase_db_log event : db_phase true (db_log E event).
Proof.
  unfold db_log.
  apply db_phase_bind; [apply db_phase_read|]. intros en.
  destruct (negb en); [apply db_phase_raise|].
  apply db_phase_bind; [apply db_phase__connect|]. intros _.
  do 4 (apply db_phase_bind;
        [apply db_phase_pure, obind_no_exit;
         [apply get_or_no_exit|intros ?; exact I]|intros ?]).
  apply db_phase_bind; [apply db_phase_cursor|]. intros _.
  apply db_phase_bind;
    [apply db_phase_pure, insert_values_no_exit|].
  intros row. apply db_phase_execute.
Qed.

Lemma refused_app t1 t2 : refused (t1 ++ t2) = refused t1 ++ refused t2.
Proof. apply flat_map_app. Qed.

Lemma print_run text w :
  print E text w
  = (World (_use_db w) (enabled w) (_conn w) (log_path w)
       (history w ++ [EvPrint text (console E (history w) text)]),
     match console E (history w) text with
     | None => Ret tt
     | Some e => Raise e
     end).
Proof. unfold print. now rewrite external_run. Qed.

Lemma print_exc_run e w :
  print_exc E e w
  = (World (_use_db w) (enabled w) (_conn w) (log_path w)
       (history w ++ [EvTraceback e (console_exc E (history w) e)]),
     match console_exc E (history w) e with
     | None => Ret tt
     | Some e' => Raise e'
     end).
Proof. unfold print_exc. now rewrite external_run. Qed.

(** The fallback: one append is attempted; when it is refused the record
    is shown on the console, and the call raises only what the console
    raised on refusing one of the three messages. *)
Lemma fallback_run event w :
  exists new o r,
    fallback E event w
    = (World (_use_db w) (enabled w) (_conn w) (log_path w)
         (history w ++ new), o)
    /\ file_attempts new = [(log_path w, event, r)]
    /\ inserted new = [] /\ db_attempts new = []
    /\ ((o = Ret tt /\ refused new = []
         /\ match r with
            | None => printed new = []
            | Some _ => In (last_resort event) (printed new)
            end)
        \/ (exists e, o = Raise e /\ refused new = [e] /\ r <> None))
    /\ (console_accepts E -> refused new = []).
Proof.
  unfold fallback, try_except, file_log, bind, read.
  rewrite external_run.
  destruct (file_append E (history w) (log_path w) event) as [e|].
  2: { eexists [_], (Ret tt), None. cbn. repeat split; auto. }
  cbn [fst snd]. rewrite print_run.
  cbn [history _use_db enabled _conn log_path fst snd].
  match goal with
  | |- context [console E ?t0 ?x0] =>
      destruct (console E t0 x0) as [e1|] eqn:H1
  end.
  { eexists [_; _], _, (Some e). rewrite <- !app_assoc. cbn.
    do 4 (split; [reflexivity|]).
    split; [|intros [Hc _]; rewrite Hc in H1; discriminate].
    right. exists e1. repeat split; auto. discriminate. }
  rewrite print_run.
  cbn [history _use_db enabled _conn log_path fst snd].
  match goal with
  | |- context [console E ?t0 ?x0] =>
      destruct (console E t0 x0) as [e2|] eqn:H2
  end.
  { eexists [_; _; _], _, (Some e). rewrite <- !app_assoc. cbn.
    do 4 (split; [reflexivity|]).
    split; [|intros [Hc _]; rewrite Hc in H2; discriminate].
    right. exists e2. repeat split; auto. discriminate. }
  rewrite print_exc_run.
  cbn [history _use_db enabled _conn log_path fst snd].
  match goal with
  | |- context [console_exc E ?t0 ?x0] =>
      destruct (console_exc E t0 x0) as [e3|] eqn:H3
  end.
  { eexists [_; _; _; _], _, (Some e). rewrite <- !app_assoc. cbn.
    do 4 (split; [reflexivity|]).
    split; [|intros [_ Hc]; rewrite Hc in H3; discriminate].
    right. exists e3. repeat split; auto. discriminate. }
  eexists [_; _; _; _], _, (Some e). rewrite <- !app_assoc. cbn.
  do 4 (split; [reflexivity|]). split; [|reflexivity].
  left. split; [reflexivity|]. split; [reflexivity|].
  right. left. reflexivity.
Qed.

(** The handler of a failed database attempt: the latch is cleared first;
    the handler returns when the console takes its three messages, and
    raises what the console raised otherwise. *)
Lemma db_failed_run e w :
  exists new o,
    db_failed E e w
    = (World false (enabled w) (_conn w) (log_path w) (history w ++ new),
       o)
    /\ file_attempts new = [] /\ inserted new = [] /\ db_attempts new = []
    /\ (forall event, ~ In (last_resort event) (printed new))
    /\ ((o = Ret true /\ refused new = [])
        \/ (exists e', o = Raise e' /\ refused new = [e']))
    /\ (console_accepts E -> refused new = []).
Proof.
  assert (forall event (texts : list (list piece)),
            Forall (fun text => List.length text <> 2%nat
                                \/ exists x, nth 1 text (Lit []) = FmtExn x)
              texts ->
            ~ In (last_resort event) texts) as Hnot.
  { intros event texts Hall Hin. rewrite Forall_forall in Hall.
    destruct (Hall _ Hin) as [H|[x H]]; [now apply H|discriminate H]. }
  assert (forall (any : pyval) (texts : list (list piece)),
            Forall (fun text => List.length text <> 2%nat
                                \/ exists x, nth 1 text (Lit []) = FmtExn x)
              texts ->
            (forall ev : pyval, ~ In (last_resort ev) texts)) as Hall
      by (intros _ texts H ev; now apply Hnot).
  unfold db_failed, bind, set_use_db. cbn [fst snd].
  rewrite print_run.
  cbn [history _use_db enabled _conn log_path fst snd].
  match goal with
  | |- context [console E ?t0 ?x0] =>
      destruct (console E t0 x0) as [e1|] eqn:H1
  end.
  { eexists [_], _. cbn.
    do 4 (split; [reflexivity|]).
    split; [intros event []|].
    split; [right; eauto|].
    intros [Hc _]. rewrite Hc in H1. discriminate. }
  rewrite print_run.
  cbn [history _use_db enabled _conn log_path fst snd].
  match goal with
  | |- context [console E ?t0 ?x0] =>
      destruct (console E t0 x0) as [e2|] eqn:H2
  end.
  { eexists [_; _], _. rewrite <- !app_assoc. cbn.
    do 4 (split; [reflexivity|]).
    split; [apply (Hall VNone); constructor;
            [left; cbn; lia|constructor]|].
    split; [right; eauto|].
    intros [Hc _]. rewrite Hc in H2. discriminate. }
  rewrite print_exc_run.
  cbn [history _use_db enabled _conn log_path fst snd].
  match goal with
  | |- context [console_exc E ?t0 ?x0] =>
      destruct (console_exc E t0 x0) as [e3|] eqn:H3
  end.
  { eexists [_; _; _], _. rewrite <- !app_assoc. cbn.
    do 4 (split; [reflexivity|]).
    split; [apply (Hall VNone); constructor; [left; cbn; lia|];
            constructor; [right; exists e; reflexivity|constructor]|].
    split; [right; eauto|].
    intros [_ Hc]. rewrite Hc in H3. discriminate. }
  eexists [_; _; _], _. rewrite <- !app_assoc. cbn.
  do 4 (split; [reflexivity|]).
  split; [apply (Hall VNone); constructor; [left; cbn; lia|];
          constructor; [right; exists e; reflexivity|constructor]|].
  split; [left; split; reflexivity|reflexivity].
Qed.

(** [log_wipe_event], evaluated up to the database attempt. *)
Lemma log_wipe_event_run event w :
  log_wipe_event E event w
  = if _use_db w && enabled w then
      match db_log E event w with
      | (w1, Ret _) => (w1, Ret tt)
      | (w1, Raise e) =>
          match db_failed E e w1 with
          | (w2, Ret _) => fallback E event w2
          | (w2, Raise e') => (w2, Raise e')
          | (w2, Exit c) => (w2, Exit c)
          end
      | (w1, Exit c) => (w1, Exit c)
      end
    else fallback E event w.
Proof.
  unfold log_wipe_event, db_failed, fallback, bind, read, try_except.
  cbn [fst snd].
  destruct (_use_db w && enabled w); [|reflexivity].
  destruct (db_log E event w) as [w1 [[]|e|c]]; cbn [fst snd];
    try reflexivity.
  unfold set_use_db. cbn [fst snd].
  destruct (print E _ _) as [w2 [[]|e2|c2]]; cbn [fst snd];
    try reflexivity.
  destruct (print E _ _) as [w3 [[]|e3|c3]]; cbn [fst snd];
    try reflexivity.
  destruct (print_exc E _ _) as [w4 [[]|e4|c4]]; reflexivity.
Qed.

(** One call of [log_wipe_event].  The record is stored in the database;
    or the database is out of use afterwards and one append to the file
    was attempted; or the database attempt failed, the console refused a
    message of the handler, and the call raised before the fallback.  What
    the call does begins with the database attempt, when there is one,
    and does nothing to the database after it. *)
Lemma log_wipe_event_cases event w :
  exists new w' o,
    log_wipe_event E event w = (w', o)
    /\ history w' = history w ++ new
    /\ enabled w' = enabled w /\ log_path w' = log_path w
    /\ (exists n1 rest,
          new = n1 ++ rest /\ db_attempts rest = []
          /\ if _use_db w && enabled w
             then history (fst (db_log E event w)) = history w ++ n1
                  /\ _conn w' = _conn (fst (db_log E event w))
             else n1 = [] /\ _conn w' = _conn w)
    /\ (console_accepts E -> refused new = [])
    /\ ( (o = Ret tt /\ _use_db w = true /\ enabled w = true
          /\ _use_db w' = true
          /\ snd (db_log E event w) = Ret tt
          /\ (exists row, inserted new = [row])
          /\ file_attempts new = [] /\ printed new = []
          /\ refused new = [])
         \/ (off w' /\ inserted new = []
             /\ (_use_db w && enabled w = true ->
                 _use_db w' = false
                 /\ exists e0, snd (db_log E event w) = Raise e0)
             /\ (off w -> db_attempts new = [] /\ _use_db w' = _use_db w)
             /\ exists r,
                  file_attempts new = [(log_path w, event, r)]
                  /\ ((o = Ret tt /\ refused new = []
                       /\ match r with
                          | None => ~ In (last_resort event) (printed new)
                          | Some _ => In (last_resort event) (printed new)
                          end)
                      \/ (exists e, o = Raise e /\ refused new = [e]
                                    /\ r <> None)))
         \/ (_use_db w = true /\ enabled w = true /\ _use_db w' = false
             /\ inserted new = [] /\ file_attempts new = []
             /\ (exists e0, snd (db_log E event w) = Raise e0)
             /\ exists e, o = Raise e /\ refused new = [e]) ).
Proof.
  rewrite log_wipe_event_run.
  destruct (_use_db w && enabled w) eqn:Hon.
  - apply andb_true_iff in Hon. destruct Hon as [Huse Hen].
    destruct (db_phase_db_log event w) as (n1 & H1 & S1 & F1 & O1).
    destruct (db_events_silent F1) as [Hfile Hprint].
    assert (refused n1 = []) as Hquiet.
    { clear - F1. induction F1 as [|ev n1 Hev _ IH]; [reflexivity|].
      destruct ev; try contradiction; exact IH. }
    destruct S1 as (Su & Se & Sp).
    destruct (db_log E event w) as [w1 [[]|e|c]]; cbn [fst snd] in *;
      [| |contradiction].
    + exists n1, w1, (Ret tt). split; [reflexivity|].
      split; [exact H1|]. split; [exact Se|]. split; [exact Sp|].
      split.
      { exists n1, []. rewrite app_nil_r. auto. }
      split; [intros _; exact Hquiet|].
      left. rewrite Su. repeat split; auto.
    + destruct (db_failed_run e w1)
        as (n2 & o2 & -> & Ff & If & Df & Hlast & Hout & Hacc2).
      destruct Hout as [[-> Hr2]|(e' & -> & Hr2)].
      * match goal with
        | |- context [fallback E event ?w2] =>
            destruct (fallback_run event w2)
              as (n3 & o3 & r & -> & F3 & I3 & D3 & Hout3 & Hacc3)
        end.
        cbn [history _use_db enabled _conn log_path] in *.
        eexists (n1 ++ n2 ++ n3), _, o3. split; [reflexivity|].
        cbn [history _use_db enabled _conn log_path].
        split; [rewrite H1, <- !app_assoc; reflexivity|].
        split; [exact Se|]. split; [exact Sp|].
        split.
        { exists n1, (n2 ++ n3). split; [reflexivity|].
          split; [rewrite db_attempts_app, Df, D3; reflexivity|auto]. }
        split.
        { intros Hacc.
          rewrite !refused_app, Hquiet, (Hacc2 Hacc), (Hacc3 Hacc).
          reflexivity. }
        right. left. split; [reflexivity|].
        split; [rewrite !inserted_app, O1, If, I3; reflexivity|].
        split; [intros _; split; [reflexivity|eauto]|].
        split; [unfold off; rewrite Huse, Hen; discriminate|].
        exists r. rewrite !file_attempts_app, Hfile, Ff, F3, Sp.
        split; [reflexivity|].
        rewrite !refused_app, Hquiet, Hr2, !printed_app, Hprint.
        cbn [app].
        destruct Hout3 as [(-> & Hr3 & Hshown)|(e3 & -> & Hr3 & Hr)].
        -- left. split; [reflexivity|]. split; [exact Hr3|].
           destruct r.
           ++ apply in_or_app. now right.
           ++ rewrite Hshown, app_nil_r. apply Hlast.
        -- right. exists e3. auto.
      * cbn [history _use_db enabled _conn log_path] in *.
        eexists (n1 ++ n2), _, (Raise e'). split; [reflexivity|].
        cbn [history _use_db enabled _conn log_path].
        split; [rewrite H1, <- !app_assoc; reflexivity|].
        split; [exact Se|]. split; [exact Sp|].
        split.
        { exists n1, n2. auto. }
        split.
        { intros Hacc. rewrite refused_app, Hquiet, (Hacc2 Hacc).
          reflexivity. }
        right. right. repeat split; auto.
        -- rewrite inserted_app, O1, If. reflexivity.
        -- rewrite file_attempts_app, Hfile, Ff. reflexivity.
        -- eauto.
        -- exists e'. split; [reflexivity|].
           rewrite refused_app, Hquiet, Hr2. reflexivity.
  - destruct (fallback_run event w)
      as (n & o & r & -> & F & I & D & Hout & Hacc).
    exists n, (World (_use_db w) (enabled w) (_conn w) (log_path w)
                 (history w ++ n)), o.
    split; [reflexivity|]. cbn [history _use_db enabled _conn log_path].
    split; [reflexivity|]. split; [reflexivity|]. split; [reflexivity|].
    split.
    { exists [], n. auto. }
    split; [exact Hacc|].
    right. left. split; [exact Hon|]. split; [exact I|].
    split; [discriminate|]. split; [auto|].
    exists r. split; [exact F|].
    destruct Hout as [(-> & Hr & Hshown)|(e & -> & Hr & Hnone)].
    + left. split; [reflexivity|]. split; [exact Hr|].
      destruct r; [exact Hshown|]. rewrite Hshown. intros [].
    + right. eauto.
Qed.

(** X30: with a console that accepts every write, [log_wipe_event]
    returns, whatever the record and the state of the sink.  When the
    database is attempted and the insert succeeds, one row is stored and
    nothing is written to the file or the console.  When the attempt
    raises, or when the database is skipped, the record is appended to
    the fallback file; and when that append raises, the record is printed
    on the console. *)
Theorem log_wipe_event_returns_when_heard (event : pyval) (w : world) :
  console_accepts E ->
  let run := log_wipe_event E event w in
  snd run = Ret tt
  /\ exists new,
       history (fst run) = history w ++ new
       /\ match _use_db w && enabled w, snd (db_log E event w) with
          | true, Ret _ =>
              (exists row, inserted new = [row])
              /\ file_attempts new = [] /\ printed new = []
          | true, Raise _ =>
              inserted new = []
              /\ fell_back (log_path w) event new
          | true, Exit _ => False
          | false, _ =>
              db_attempts new = []
              /\ fell_back (log_path w) event new
          end.
Proof.
  intros Hheard run. subst run.
  destruct (log_wipe_event_cases event w)
    as (new & w' & o & -> & Hh & _ & _ & _ & Hquiet & Hcase).
  specialize (Hquiet Hheard). cbn [fst snd].
  destruct Hcase as [Hst|[Hfl|Hlost]].
  - destruct Hst as (-> & Hu & He & _ & Hret & Hrow & Hfile & Hprint & _).
    split; [reflexivity|]. exists new. split; [exact Hh|].
    rewrite Hu, He, Hret. cbn [andb]. auto.
  - destruct Hfl as (_ & Hins & Hon & Hoff & r & Hr & Hout).
    assert (o = Ret tt /\ fell_back (log_path w) event new) as [-> Hfb].
    { destruct Hout as [(-> & _ & Hshown)|(e & _ & Hre & _)].
      - split; [reflexivity|]. exists r. auto.
      - rewrite Hquiet in Hre. discriminate. }
    split; [reflexivity|]. exists new. split; [exact Hh|].
    destruct (_use_db w && enabled w) eqn:Hsw.
    + destruct (Hon eq_refl) as (_ & e0 & ->). auto.
    + destruct (Hoff Hsw) as [Hnodb _]. auto.
  - destruct Hlost as (_ & _ & _ & _ & _ & _ & e & _ & Hre).
    rewrite Hquiet in Hre. discriminate.
Qed.

Lemma log_wipe_event_latched event w :
  _use_db w = false ->
  exists new r o,
    log_wipe_event E event w
    = (World false (enabled w) (_conn w) (log_path w) (history w ++ new),
       o)
    /\ db_attempts new = []
    /\ file_attempts new = [(log_path w, event, r)].
Proof.
  intros Hoff. rewrite log_wipe_event_run, Hoff. cbn [andb].
  destruct (fallback_run event w) as (n & o & r & -> & F & _ & D & _).
  rewrite Hoff. exists n, r, o. auto.
Qed.

(** C2: the latch [_use_db] is true when the module is loaded; a call in
    which the database write raises clears it, and a call in which the
    database is not attempted or the write returns leaves it set; once it
    is false, any further sequence of calls leaves it false, does nothing
    to the database, whatever the database would answer, and attempts one
    append to the fallback file for each record, in order. *)
Theorem latch_is_one_way (db_enabled : bool) (path : pystr)
    (event : pyval) (events : list pyval) (w : world) :
  _use_db (initial_world db_enabled path) = true
  /\ (_use_db w = true -> enabled w = true ->
      (exists e, snd (db_log E event w) = Raise e) ->
      _use_db (fst (log_wipe_event E event w)) = false)
  /\ (_use_db w = true ->
      enabled w = false \/ snd (db_log E event w) = Ret tt ->
      _use_db (fst (log_wipe_event E event w)) = true)
  /\ (_use_db w = false ->
      let run := log_wipe_events E events w in
      snd run = Ret tt
      /\ _use_db (fst run) = false
      /\ exists new,
           history (fst run) = history w ++ new
           /\ db_attempts new = []
           /\ map fst (file_attempts new)
              = map (fun ev => (log_path w, ev)) events).
Proof.
  split; [reflexivity|].
  split; [|split].
  - intros Hon Hen [e He].
    destruct (log_wipe_event_cases event w)
      as (new & w' & o & -> & _ & _ & _ & _ & _ & [Hst|[Hfl|Hlost]]);
      cbn [fst].
    + destruct Hst as (_ & _ & _ & _ & Hret & _). congruence.
    + destruct Hfl as (_ & _ & Hclear & _).
      apply Hclear. now rewrite Hon, Hen.
    + now destruct Hlost as (_ & _ & Hclear & _).
  - intros Hon Hcase.
    destruct (log_wipe_event_cases event w)
      as (new & w' & o & -> & _ & _ & _ & _ & _ & [Hst|[Hfl|Hlost]]);
      cbn [fst].
    + now destruct Hst as (_ & _ & _ & Hkeep & _).
    + destruct Hfl as (_ & _ & Hclear & Hsame & _).
      destruct (enabled w) eqn:Hen.
      * destruct Hcase as [Hcase|Hcase]; [discriminate|].
        destruct Hclear as (_ & e0 & He0); [now rewrite Hon|].
        congruence.
      * destruct Hsame as (_ & ->); [|exact Hon].
        unfold off. rewrite Hon, Hen. reflexivity.
    + destruct Hlost as (_ & Hen & _ & _ & _ & (e0 & He0) & _).
      destruct Hcase as [Hcase|Hcase]; congruence.
  - revert w. induction events as [|ev rest IH]; intros w Hoff;
      cbn [log_wipe_events].
    + repeat split; auto. exists []. now rewrite app_nil_r.
    + destruct (log_wipe_event_latched ev w Hoff)
        as (n1 & r & o & Hrun & D1 & F1).
      destruct (IH (World false (enabled w) (_conn w) (log_path w)
                      (history w ++ n1)) eq_refl)
        as (Hret & Hlatch & n2 & H2 & D2 & F2).
      cbn [history log_path] in H2, F2.
      unfold bind, try_except. rewrite Hrun.
      destruct o as [[]|e|c]; cbn [ret fst snd].
      * repeat split; auto.
        exists (n1 ++ n2). rewrite H2, app_assoc.
        split; [reflexivity|].
        split; [rewrite db_attempts_app, D1, D2; reflexivity|].
        rewrite file_attempts_app, map_app, F1, F2. reflexivity.
      * repeat split; auto.
        exists (n1 ++ n2). rewrite H2, app_assoc.
        split; [reflexivity|].
        split; [rewrite db_attempts_app, D1, D2; reflexivity|].
        rewrite file_attempts_app, map_app, F1, F2. reflexivity.
      * exfalso.
        destruct (log_wipe_event_cases ev w)
          as (new & w' & o' & Hrun' & _ & _ & _ & _ & _ & Hcase).
        rewrite Hrun in Hrun'. injection Hrun' as _ <-.
        destruct Hcase as [Hst|[Hfl|Hlost]].
        -- destruct Hst as (Ho & _). discriminate Ho.
        -- destruct Hfl
             as (_ & _ & _ & _ & r' & _ & [[Ho _]|(e & Ho & _)]);
             discriminate Ho.
        -- destruct Hlost as (_ & _ & _ & _ & _ & _ & e & Ho & _).
           discriminate Ho.
Qed.

End SinkFacts.

(** C2, witness: a process whose database refuses the connection clears
    the latch at its first record; a process whose latch is clear sends two
    records to the fallback file and leaves the database alone, although
    that database would accept them. *)
Lemma latch_is_one_way_witness :
  let w_on := LoggingManager.initial_world true Samples.fallback_path in
  let w_off :=
    LoggingManager.World false true None Samples.fallback_path [] in
  let run :=
    SinkView.log_wipe_events Samples.healthy_db
      [Samples.session; Samples.session] w_off in
  LoggingManager._use_db w_on = true
  /\ LoggingManager._use_db
       (fst (LoggingManager.log_wipe_event Samples.broken_db
               Samples.session w_on)) = false
  /\ LoggingManager._use_db w_off = false
  /\ snd run = Ret tt
  /\ LoggingManager._use_db (fst run) = false
  /\ exists new,
       LoggingManager.history (fst run) = [] ++ new
       /\ SinkView.db_attempts new = []
       /\ map fst (SinkView.file_attempts new)
          = [(Samples.fallback_path, Samples.session);
             (Samples.fallback_path, Samples.session)].
Proof.
  split; [reflexivity|].
  split.
  { apply (proj1 (proj2 (@latch_is_one_way Samples.broken_db true
                           Samples.fallback_path Samples.session []
                           (LoggingManager.initial_world true
                              Samples.fallback_path)))).
    - reflexivity.
    - reflexivity.
    - exists DatabaseError. reflexivity. }
  split; [reflexivity|].
  apply (proj2 (proj2 (proj2 (@latch_is_one_way Samples.healthy_db true
                                Samples.fallback_path Samples.session
                                [Samples.session; Samples.session]
                                (LoggingManager.World false true None
                                   Samples.fallback_path []))))).
  reflexivity.
Defined.

(** C1: the claim fails on the code where the console refuses a write.
    The database is enabled and refuses the connection, the file system
    would take the append, and the console raises [OSError] on every
    write.  The call clears the latch and raises out of the first message
    of the handler of the database failure: it never reaches the
    fallback, so the record is neither in the database, nor in the file,
    nor on the console. *)
Theorem log_wipe_event_raises_on_closed_console :
  let w := LoggingManager.initial_world true Samples.fallback_path in
  let run :=
    LoggingManager.log_wipe_event Samples.closed_console Samples.session w
  in
  snd run = Raise OSError
  /\ LoggingManager._use_db (fst run) = false
  /\ LoggingManager.history (fst run)
     = [LoggingManager.EvConnect (Some DatabaseError);
        LoggingManager.EvPrint
          [LoggingManager.Lit (py "[Warning] Database logging failed. Switching to fallback file logging.")]
          (Some OSError)]
  /\ SinkView.inserted (LoggingManager.history (fst run)) = []
  /\ SinkView.file_attempts (LoggingManager.history (fst run)) = []
  /\ SinkView.printed (LoggingManager.history (fst run)) = []
  /\ LoggingManager.file_append Samples.closed_console
       (LoggingManager.history (fst run)) Samples.fallback_path
       Samples.session
     = None.
Proof. vm_compute. repeat split. Qed.

(** X30, witness: the database refuses the connection and the console
    takes the three messages of the handler. *)
Lemma log_wipe_event_returns_when_heard_witness :
  let w := LoggingManager.initial_world true Samples.fallback_path in
  let run :=
    LoggingManager.log_wipe_event Samples.broken_db Samples.session w in
  SinkView.console_accepts Samples.broken_db
  /\ snd run = Ret tt
  /\ exists new,
       LoggingManager.history (fst run) = LoggingManager.history w ++ new
       /\ SinkView.inserted new = []
       /\ SinkView.fell_back (LoggingManager.log_path w) Samples.session
            new.
Proof.
  intros w run.
  assert (SinkView.console_accepts Samples.broken_db) as Hheard
      by (split; reflexivity).
  split; [exact Hheard|].
  exact (@log_wipe_event_returns_when_heard Samples.broken_db
           Samples.session w Hheard).
Defined.

(** A healthy database with the latch set: one row is stored, nothing goes
    to the file or the console, and the latch stays set. *)
Example database_takes_the_record :
  let run :=
    LoggingManager.log_wipe_event Samples.healthy_db Samples.session
      (LoggingManager.initial_world true Samples.fallback_path) in
  snd run = Ret tt
  /\ LoggingManager._use_db (fst run) = true
  /\ List.length (SinkView.inserted (LoggingManager.history (fst run)))
     = 1%nat
  /\ SinkView.file_attempts (LoggingManager.history (fst run)) = []
  /\ SinkView.printed (LoggingManager.history (fst run)) = [].
Proof. vm_compute. repeat split. Qed.

(** The scenario of the specification: the database is enabled but cannot
    be reached.  The first call clears the latch and the record lands in
    the fallback file, not in the database. *)
Example unreachable_database_scenario :
  let run :=
    LoggingManager.log_wipe_event Samples.broken_db Samples.session
      (LoggingManager.initial_world true Samples.fallback_path) in
  snd run = Ret tt
  /\ LoggingManager._use_db (fst run) = false
  /\ SinkView.inserted (LoggingManager.history (fst run)) = []
  /\ SinkView.file_attempts (LoggingManager.history (fst run))
     = [(Samples.fallback_path, Samples.session, None)].
Proof. vm_compute. repeat split. Qed.

(** Both backends fail: the call still returns, and the record is on the
    console. *)
Example both_backends_fail :
  let run :=
    LoggingManager.log_wipe_event Samples.healthy_db Samples.session
      (LoggingManager.World false true None Samples.fallback_path []) in
  snd run = Ret tt
  /\ SinkView.file_attempts (LoggingManager.history (fst run))
     = [(Samples.fallback_path, Samples.session, Some OSError)]
  /\ In (SinkView.last_resort Samples.session)
        (SinkView.printed (LoggingManager.history (fst run))).
Proof. vm_compute. repeat split. right. left. reflexivity. Qed.

(* ===================================================================== *)
(** * More on the parser *)
(* ===================================================================== *)

Section ParserMoreFacts.
Import HdparmParser ParserMore.
Variable lower_nonascii : pystr -> nat -> pystr.

Local Abbreviation parse_line := (parse_line lower_nonascii).
Local Abbreviation parse_lines := (parse_lines lower_nonascii).
Local Abbreviation parse := (parse_hdparm_identity lower_nonascii).

Lemma str_eqb_false_ne (a b : pystr) : str_eqb a b = false -> a <> b.
Proof. intros H ->. rewrite str_eqb_refl in H. discriminate. Qed.

Lemma dict_get_setdefault_keeps k v v0 d :
  dict_get k d = Some v0 -> dict_setdefault k v d = d.
Proof. intros H. unfold dict_setdefault. now rewrite H. Qed.

Lemma dict_keys_set k v d :
  incl (dict_keys (dict_set k v d)) (k :: dict_keys d).
Proof.
  induction d as [|[k0 v0] rest IH]; simpl.
  - apply incl_refl.
  - destruct (str_eqb k k0); simpl.
    + apply incl_tl, incl_refl.
    + intros x [<-|Hx]; [right; now left|].
      destruct (IH x Hx) as [<-|H]; [now left|right; now right].
Qed.

Lemma dict_keys_setdefault k v d :
  incl (dict_keys (dict_setdefault k v d)) (k :: dict_keys d).
Proof.
  unfold dict_setdefault. destruct (dict_get k d).
  - apply incl_tl, incl_refl.
  - apply dict_keys_set.
Qed.

(** The identity rules and the size rule never raise; their effect is
    [fields_after]. *)
Lemma identity_size_run stripped d :
  obind (identity_fields stripped d) (size_field stripped)
  = Ret (fields_after stripped d).
Proof.
  unfold identity_fields, size_field, fields_after, set_after_label, split1.
  destruct (startswith (py "Model Number:") stripped) eqn:H1;
    [rewrite (find_sub_startswith _ _ H1)
    |destruct (startswith (py "Serial Number:") stripped) eqn:H2;
     [rewrite (find_sub_startswith _ _ H2)
     |destruct (startswith (py "Firmware Revision:") stripped) eqn:H3;
      [rewrite (find_sub_startswith _ _ H3)|]]];
    cbn [py_index nth_error obind];
    (destruct (contains _ stripped); [|reflexivity]);
    destruct (find_sub (py ":") stripped) as [[b a]|]; reflexivity.
Qed.

(** One iteration of the loop, in closed form. *)
Lemma parse_line_exact st line :
  parse_line st line =
  let d := fields_after (strip line) (data st) in
  Ret (if is_header line then PState d true
       else if in_security st then
         if nonblank (strip line) && negb (indented line)
         then PState d false
         else PState (security_flags (strip line)
                        (lower lower_nonascii (strip line)) d) true
       else PState d false).
Proof.
  unfold HdparmParser.parse_line, is_header.
  pose proof (identity_size_run (strip line) (data st)) as H.
  destruct (identity_fields (strip line) (data st)) as [d1|e|c];
    cbn [obind] in *; try discriminate H.
  rewrite H. cbn [obind].
  repeat match goal with
         | |- context [if ?c then _ else _] => destruct c
         end; reflexivity.
Qed.

Lemma parse_lines_app st l1 l2 :
  parse_lines st (l1 ++ l2)
  = obind (parse_lines st l1) (fun st' => parse_lines st' l2).
Proof.
  revert st. induction l1 as [|line l1 IH]; intros st; simpl;
    [reflexivity|].
  destruct (parse_line st line) as [st1|e|c]; simpl; auto.
Qed.

Lemma fields_after_other k stripped d :
  key_in k [py "model"; py "serial"; py "firmware";
            py "reported_size_m10"] = false ->
  dict_get k (fields_after stripped d) = dict_get k d.
Proof.
  unfold key_in. cbn [existsb]. rewrite !orb_false_iff.
  intros (Hm & Hs & Hf & Hr & _). unfold fields_after.
  repeat match goal with
         | |- context [if ?c then _ else _] => destruct c
         | |- context [match find_sub ?a ?b with _ => _ end] =>
             destruct (find_sub a b) as [[? ?]|]
         end;
    rewrite ?dict_get_set_other by assumption; reflexivity.
Qed.

Lemma security_flags_other k stripped low d :
  key_in k security_keys = false ->
  dict_get k (security_flags stripped low d) = dict_get k d.
Proof.
  unfold key_in, security_keys. cbn [existsb]. rewrite !orb_false_iff.
  intros (H1 & H2 & H3 & H4 & H5 & H6 & _). unfold security_flags.
  repeat match goal with
         | |- context [if ?c then _ else _] => destruct c
         end;
    rewrite ?dict_get_setdefault_other by assumption;
    rewrite ?dict_get_set_other by assumption; reflexivity.
Qed.

Lemma unrecognized_line st line :
  unrecognized line = true -> in_security st = false ->
  parse_line st line = Ret st.
Proof.
  unfold unrecognized, identity_labels. cbn [existsb snd].
  rewrite !andb_true_iff, !negb_true_iff, !orb_false_iff.
  intros [[(H1 & H2 & H3 & _) Hsize] Hhead] Hout.
  rewrite parse_line_exact. unfold is_header, fields_after.
  rewrite H1, H2, H3, Hsize, Hhead, Hout.
  destruct st as [d b]. simpl in Hout |- *. now subst b.
Qed.

(** X1: a text none of whose lines starts with an identity label, holds
    the size label or starts with "Security:" is parsed to the record that
    has the key "raw" and nothing else. *)
Theorem unrecognized_text_gives_only_raw (text : pystr) :
  forallb unrecognized (splitlines text) = true ->
  parse text = Ret [(py "raw", VStr text)].
Proof.
  intros Hall. unfold parse_hdparm_identity.
  assert (forall lines st,
             forallb unrecognized lines = true ->
             in_security st = false ->
             parse_lines st lines = Ret st) as Hloop.
  { induction lines as [|line rest IH]; intros st Hl Hout; simpl;
      [reflexivity|].
    simpl in Hl. apply andb_true_iff in Hl as [Hline Hrest].
    rewrite (unrecognized_line _ _ Hline Hout). simpl. now apply IH. }
  rewrite Hloop; auto.
Qed.

Lemma fields_after_keys stripped d :
  incl (dict_keys d) known_keys ->
  incl (dict_keys (fields_after stripped d)) known_keys.
Proof.
  intros Hd. unfold fields_after.
  repeat match goal with
         | |- context [if ?c then _ else _] => destruct c
         | |- context [match find_sub ?a ?b with _ => _ end] =>
             destruct (find_sub a b) as [[? ?]|]
         end;
    repeat first
      [ assumption
      | eapply incl_tran; [apply dict_keys_set|];
        apply incl_cons; [vm_compute; tauto|] ].
Qed.

Lemma security_flags_keys stripped low d :
  incl (dict_keys d) known_keys ->
  incl (dict_keys (security_flags stripped low d)) known_keys.
Proof.
  intros Hd. unfold security_flags.
  repeat match goal with
         | |- context [if ?c then _ else _] => destruct c
         end;
    repeat first
      [ assumption
      | eapply incl_tran; [apply dict_keys_setdefault|];
        apply incl_cons; [vm_compute; tauto|]
      | eapply incl_tran; [apply dict_keys_set|];
        apply incl_cons; [vm_compute; tauto|] ].
Qed.

Lemma parse_line_keys st line :
  incl (dict_keys (data st)) known_keys ->
  exists st', parse_line st line = Ret st'
              /\ incl (dict_keys (data st')) known_keys.
Proof.
  intros Hd. rewrite parse_line_exact. cbv zeta.
  eexists; split; [reflexivity|].
  pose proof (@fields_after_keys (strip line) _ Hd).
  repeat match goal with
         | |- context [if ?c then _ else _] => destruct c
         end; cbn [data]; auto using security_flags_keys.
Qed.

(** X2: whatever the text, every key of the parsed record is one of the
    eleven keys the parser knows: raw, model, serial, firmware,
    reported_size_m10, the four security flags, enhanced_erase_supported
    and erase_time_raw. *)
Theorem parsed_keys_are_known (text : pystr) :
  exists d, parse text = Ret d /\ incl (dict_keys d) known_keys.
Proof.
  unfold parse_hdparm_identity.
  assert (forall lines st,
             incl (dict_keys (data st)) known_keys ->
             exists st', parse_lines st lines = Ret st'
                         /\ incl (dict_keys (data st')) known_keys)
    as Hloop.
  { induction lines as [|line rest IH]; intros st Hd; simpl; [eauto|].
    destruct (@parse_line_keys st line Hd) as (st1 & -> & H1). simpl.
    now apply IH. }
  destruct (Hloop (splitlines text) (initial text)) as (st & -> & Hst).
  - intros k [<-|[]]. now left.
  - simpl. eauto.
Qed.

Lemma security_key_not_identity k :
  In k security_keys ->
  key_in k [py "model"; py "serial"; py "firmware";
            py "reported_size_m10"] = false.
Proof.
  unfold security_keys. cbn [In].
  intros H; repeat destruct H as [<-|H]; try reflexivity; contradiction.
Qed.

(** X3: when no line of the text starts, once stripped, with "Security:",
    the parsed record has none of the security-block keys, whatever else
    the lines say. *)
Theorem no_header_no_security_fields (text : pystr) :
  forallb (fun line => negb (is_header line)) (splitlines text) = true ->
  exists d, parse text = Ret d
            /\ forall k, In k security_keys -> dict_get k d = None.
Proof.
  intros Hall. unfold parse_hdparm_identity.
  assert (forall lines st,
             forallb (fun line => negb (is_header line)) lines = true ->
             in_security st = false ->
             (forall k, In k security_keys -> dict_get k (data st) = None) ->
             exists st', parse_lines st lines = Ret st'
                         /\ forall k, In k security_keys ->
                                      dict_get k (data st') = None)
    as Hloop.
  { induction lines as [|line rest IH]; intros st Hl Hout Hnone; simpl;
      [eauto|].
    simpl in Hl. apply andb_true_iff in Hl as [Hline Hrest].
    apply negb_true_iff in Hline.
    rewrite parse_line_exact, Hline, Hout. cbv zeta. simpl.
    apply IH; auto.
    intros k Hk. cbn [data].
    rewrite fields_after_other by now apply security_key_not_identity.
    now apply Hnone. }
  destruct (Hloop (splitlines text) (initial text) Hall eq_refl)
    as (st & -> & Hst).
  - unfold security_keys. cbn [In].
    intros k H; repeat destruct H as [<-|H]; try reflexivity; contradiction.
  - simpl. eauto.
Qed.

Lemma security_flags_keeps_erase_time stripped low d v :
  dict_get (py "erase_time_raw") d = Some v ->
  dict_get (py "erase_time_raw") (security_flags stripped low d) = Some v.
Proof.
  intros H. unfold security_flags.
  set (d5 := if contains (py "enhanced erase") low then _ else _).
  assert (dict_get (py "erase_time_raw") d5 = Some v) as H5.
  { subst d5.
    repeat match goal with
           | |- context [if ?c then _ else _] => destruct c
           end;
      rewrite ?dict_get_set_other by reflexivity; exact H. }
  destruct (_ || _); [|exact H5].
  now rewrite (@dict_get_setdefault_keeps _ (VStr stripped) _ _ H5).
Qed.

Lemma security_flags_takes_erase_time stripped low d :
  contains (py "erase time") low
  || contains (py "security erase unit") low = true ->
  dict_get (py "erase_time_raw") d = None ->
  dict_get (py "erase_time_raw") (security_flags stripped low d)
  = Some (VStr stripped).
Proof.
  intros Htime H. unfold security_flags. rewrite Htime.
  set (d5 := if contains (py "enhanced erase") low then _ else _).
  assert (dict_get (py "erase_time_raw") d5 = None) as H5.
  { subst d5.
    repeat match goal with
           | |- context [if ?c then _ else _] => destruct c
           end;
      rewrite ?dict_get_set_other by reflexivity; exact H. }
  unfold dict_setdefault. rewrite H5. apply dict_get_set_same.
Qed.

Lemma parse_lines_keep_erase_time lines : forall st v,
  dict_get (py "erase_time_raw") (data st) = Some v ->
  exists st', parse_lines st lines = Ret st'
              /\ dict_get (py "erase_time_raw") (data st') = Some v.
Proof.
  induction lines as [|line rest IH]; intros st v Hv; simpl; [eauto|].
  rewrite parse_line_exact. cbv zeta.
  assert (dict_get (py "erase_time_raw")
            (fields_after (strip line) (data st)) = Some v) as Hf
      by (rewrite fields_after_other by reflexivity; exact Hv).
  repeat match goal with
         | |- context [if ?c then _ else _] => destruct c
         end; simpl; apply IH; cbn [data];
    auto using security_flags_keeps_erase_time.
Qed.

(** X4: the first erase-timing line wins.  When a line of the security
    block whose lower-cased text contains "erase time" or "security erase
    unit" is read while erase_time_raw is absent, erase_time_raw becomes
    the stripped line as it stands, and no later line changes it. *)
Theorem first_erase_time_line_wins
    (st : pstate) (line : pystr) (later : list pystr) :
  ParserView.security_block_line st line ->
  contains (py "erase time") (lower lower_nonascii (strip line))
  || contains (py "security erase unit")
       (lower lower_nonascii (strip line)) = true ->
  dict_get (py "erase_time_raw") (data st) = None ->
  exists st',
    parse_lines st (line :: later) = Ret st'
    /\ dict_get (py "erase_time_raw") (data st')
       = Some (VStr (strip line)).
Proof.
  intros (Hin & Hhead & Hblock) Htime Hnone. simpl.
  rewrite parse_line_exact. cbv zeta. unfold is_header.
  rewrite Hhead, Hin, Hblock. simpl.
  apply parse_lines_keep_erase_time. cbn [data].
  apply security_flags_takes_erase_time; [exact Htime|].
  rewrite fields_after_other by reflexivity. exact Hnone.
Qed.

Lemma startswith_heads (p q s : pystr) :
  startswith p s = true -> startswith q s = true ->
  p <> [] -> q <> [] -> hd_error p = hd_error q.
Proof.
  destruct p as [|a p], q as [|b q], s as [|c s]; simpl;
    try congruence.
  rewrite !andb_true_iff, !N.eqb_eq. intros [-> _] [-> _] _ _. reflexivity.
Qed.

(** What the identity rules do to the key of one label. *)
Lemma fields_after_label key label stripped d :
  In (key, label) identity_labels ->
  dict_get key (fields_after stripped d)
  = if startswith label stripped
    then Some (VStr (strip (skipn (List.length label) stripped)))
    else dict_get key d.
Proof.
  unfold identity_labels. cbn [In].
  intros [[= <- <-]|[[= <- <-]|[[= <- <-]|[]]]]; unfold fields_after.
  - destruct (startswith (py "Model Number:") stripped).
    + repeat match goal with
             | |- context [if ?c then _ else _] => destruct c
             | |- context [match find_sub ?a ?b with _ => _ end] =>
                 destruct (find_sub a b) as [[? ?]|]
             end;
        rewrite ?dict_get_set_other by reflexivity; apply dict_get_set_same.
    + repeat match goal with
             | |- context [if ?c then _ else _] => destruct c
             | |- context [match find_sub ?a ?b with _ => _ end] =>
                 destruct (find_sub a b) as [[? ?]|]
             end;
        rewrite ?dict_get_set_other by reflexivity; reflexivity.
  - destruct (startswith (py "Serial Number:") stripped) eqn:Hs.
    + destruct (startswith (py "Model Number:") stripped) eqn:Hm.
      { pose proof (@startswith_heads _ _ _ Hs Hm) as H.
        cbn in H. specialize (H ltac:(discriminate) ltac:(discriminate)).
        discriminate H. }
      repeat match goal with
             | |- context [if ?c then _ else _] => destruct c
             | |- context [match find_sub ?a ?b with _ => _ end] =>
                 destruct (find_sub a b) as [[? ?]|]
             end;
        rewrite ?dict_get_set_other by reflexivity; apply dict_get_set_same.
    + repeat match goal with
             | |- context [if ?c then _ else _] => destruct c
             | |- context [match find_sub ?a ?b with _ => _ end] =>
                 destruct (find_sub a b) as [[? ?]|]
             end;
        rewrite ?dict_get_set_other by reflexivity; reflexivity.
  - destruct (startswith (py "Firmware Revision:") stripped) eqn:Hf.
    + destruct (startswith (py "Model Number:") stripped) eqn:Hm.
      { pose proof (@startswith_heads _ _ _ Hf Hm) as H.
        cbn in H. specialize (H ltac:(discriminate) ltac:(discriminate)).
        discriminate H. }
      destruct (startswith (py "Serial Number:") stripped) eqn:Hs.
      { pose proof (@startswith_heads _ _ _ Hf Hs) as H.
        cbn in H. specialize (H ltac:(discriminate) ltac:(discriminate)).
        discriminate H. }
      repeat match goal with
             | |- context [if ?c then _ else _] => destruct c
             | |- context [match find_sub ?a ?b with _ => _ end] =>
                 destruct (find_sub a b) as [[? ?]|]
             end;
        rewrite ?dict_get_set_other by reflexivity; apply dict_get_set_same.
    + repeat match goal with
             | |- context [if ?c then _ else _] => destruct c
             | |- context [match find_sub ?a ?b with _ => _ end] =>
                 destruct (find_sub a b) as [[? ?]|]
             end;
        rewrite ?dict_get_set_other by reflexivity; reflexivity.
Qed.

Lemma identity_key_not_security key label :
  In (key, label) identity_labels -> key_in key security_keys = false.
Proof.
  unfold identity_labels. cbn [In].
  intros [[= <- <-]|[[= <- <-]|[[= <- <-]|[]]]]; reflexivity.
Qed.

(** One iteration, seen from the key of one label. *)
Lemma parse_line_label key label st line :
  In (key, label) identity_labels ->
  exists st',
    parse_line st line = Ret st'
    /\ dict_get key (data st')
       = if startswith label (strip line)
         then Some (VStr (strip (skipn (List.length label) (strip line))))
         else dict_get key (data st).
Proof.
  intros Hkl. rewrite parse_line_exact. cbv zeta.
  eexists; split; [reflexivity|].
  rewrite <- (@fields_after_label key label (strip line) (data st) Hkl).
  repeat match goal with
         | |- context [if ?c then _ else _] => destruct c
         end; cbn [data]; try reflexivity.
  apply security_flags_other. eapply identity_key_not_security, Hkl.
Qed.

Lemma parse_lines_without_label key label lines : forall st,
  In (key, label) identity_labels ->
  forallb (fun line => negb (startswith label (strip line))) lines = true ->
  exists st', parse_lines st lines = Ret st'
              /\ dict_get key (data st') = dict_get key (data st).
Proof.
  induction lines as [|line rest IH]; intros st Hkl Hnone; simpl; [eauto|].
  simpl in Hnone. apply andb_true_iff in Hnone as [Hline Hrest].
  apply negb_true_iff in Hline.
  destruct (@parse_line_label key label st line Hkl) as (st1 & -> & H1).
  rewrite Hline in H1. simpl.
  destruct (IH st1 Hkl Hrest) as (st2 & -> & H2).
  eexists; split; [reflexivity|]. congruence.
Qed.

(** X5: the last labelled line wins.  For each of the labels "Model
    Number:", "Serial Number:" and "Firmware Revision:", when a line
    starts, once stripped, with the label and no later line does, the
    record holds under the label's key the stripped text that follows the
    label on that line. *)
Theorem identity_field_is_last_labelled_line
    (key label text : pystr) (before : list pystr) (line : pystr)
    (after : list pystr) :
  In (key, label) identity_labels ->
  splitlines text = before ++ line :: after ->
  startswith label (strip line) = true ->
  forallb (fun l => negb (startswith label (strip l))) after = true ->
  exists d,
    parse text = Ret d
    /\ dict_get key d
       = Some (VStr (strip (skipn (List.length label) (strip line)))).
Proof.
  intros Hkl Hlines Hline Hafter. unfold parse_hdparm_identity.
  rewrite Hlines, parse_lines_app.
  destruct (parse_lines_keeps_raw lower_nonascii before (initial text))
    as (st0 & -> & _).
  cbn [obind]. simpl.
  destruct (@parse_line_label key label st0 line Hkl) as (st1 & -> & H1).
  rewrite Hline in H1. simpl.
  destruct (@parse_lines_without_label key label after st1 Hkl Hafter)
    as (st2 & -> & H2).
  simpl. eexists; split; [reflexivity|]. congruence.
Qed.

(** X6: a field that the text does not give is omitted.  For each of the
    three identity labels, when no line starts, once stripped, with the
    label, the record has no entry under the label's key. *)
Theorem identity_field_absent_without_label (key label text : pystr) :
  In (key, label) identity_labels ->
  forallb (fun l => negb (startswith label (strip l))) (splitlines text)
  = true ->
  exists d, parse text = Ret d /\ dict_get key d = None.
Proof.
  intros Hkl Hnone. unfold parse_hdparm_identity.
  destruct (@parse_lines_without_label key label (splitlines text)
              (initial text) Hkl Hnone) as (st & -> & H).
  simpl. eexists; split; [reflexivity|]. rewrite H.
  revert Hkl. unfold identity_labels. cbn [In].
  intros [[= <- <-]|[[= <- <-]|[[= <- <-]|[]]]]; reflexivity.
Qed.

End ParserMoreFacts.

(** X1, witness: a garbled text with control characters, a Unicode line
    separator and stray colons. *)
Lemma unrecognized_text_witness :
  forallb ParserMore.unrecognized (splitlines MoreSamples.garbled) = true
  /\ HdparmParser.parse_hdparm_identity Samples.caseless MoreSamples.garbled
     = Ret [(py "raw", VStr MoreSamples.garbled)].
Proof.
  split; [reflexivity|].
  apply (@unrecognized_text_gives_only_raw Samples.caseless
           MoreSamples.garbled).
  reflexivity.
Defined.

(** X3, witness: the identity lines of the hdparm excerpt, without its
    security section. *)
Lemma no_header_witness :
  let text :=
    flat_map (fun line => line ++ Samples.LF)
      (firstn 7 MoreSamples.identify_lines) in
  forallb (fun line => negb (ParserMore.is_header line)) (splitlines text)
  = true
  /\ exists d,
       HdparmParser.parse_hdparm_identity Samples.caseless text = Ret d
       /\ forall k, In k ParserMore.security_keys -> dict_get k d = None.
Proof.
  split; [reflexivity|].
  apply (@no_header_no_security_fields Samples.caseless
           (flat_map (fun line => line ++ Samples.LF)
              (firstn 7 MoreSamples.identify_lines))).
  reflexivity.
Defined.

(** X4, witness: the timing line of the hdparm excerpt, followed by a
    second timing line. *)
Lemma first_erase_time_witness :
  let st := HdparmParser.PState [] true in
  let line :=
    Samples.TAB ++ py "2min for SECURITY ERASE UNIT." in
  let later := [Samples.TAB ++ py "8min for ENHANCED SECURITY ERASE UNIT."] in
  ParserView.security_block_line st line
  /\ dict_get (py "erase_time_raw") (HdparmParser.data st) = None
  /\ exists st',
       HdparmParser.parse_lines Samples.caseless st (line :: later) = Ret st'
       /\ dict_get (py "erase_time_raw") (HdparmParser.data st')
          = Some (VStr (py "2min for SECURITY ERASE UNIT.")).
Proof.
  split; [repeat split; reflexivity|]. split; [reflexivity|].
  apply (@first_erase_time_line_wins Samples.caseless
           (HdparmParser.PState [] true)
           (Samples.TAB ++ py "2min for SECURITY ERASE UNIT.")
           [Samples.TAB ++ py "8min for ENHANCED SECURITY ERASE UNIT."]).
  - repeat split; reflexivity.
  - reflexivity.
  - reflexivity.
Defined.

(** X5, witness: the model line of the hdparm excerpt. *)
Lemma identity_field_witness :
  forallb (fun l => negb (startswith (py "Model Number:") (strip l)))
    (skipn 4 MoreSamples.identify_lines) = true
  /\ exists d,
       HdparmParser.parse_hdparm_identity Samples.caseless
         MoreSamples.identify_text = Ret d
       /\ dict_get (py "model") d
          = Some (VStr (py "Samsung SSD 860 EVO 500GB")).
Proof.
  split; [reflexivity|].
  apply (@identity_field_is_last_labelled_line Samples.caseless
           (py "model") (py "Model Number:") MoreSamples.identify_text
           (firstn 3 MoreSamples.identify_lines)
           (Samples.TAB ++ py "Model Number:       Samsung SSD 860 EVO 500GB")
           (skipn 4 MoreSamples.identify_lines)).
  - left. reflexivity.
  - reflexivity.
  - reflexivity.
  - reflexivity.
Defined.

(** X6, witness: the garbled text has no serial number. *)
Lemma identity_field_absent_witness :
  forallb (fun l => negb (startswith (py "Serial Number:") (strip l)))
    (splitlines MoreSamples.garbled) = true
  /\ exists d,
       HdparmParser.parse_hdparm_identity Samples.caseless
         MoreSamples.garbled = Ret d
       /\ dict_get (py "serial") d = None.
Proof.
  split; [reflexivity|].
  apply (@identity_field_absent_without_label Samples.caseless
           (py "serial") (py "Serial Number:") MoreSamples.garbled).
  - right. left. reflexivity.
  - reflexivity.
Defined.

(** The hdparm excerpt, parsed: the lines "not enabled" and "not locked"
    leave no entry. *)
Example identify_text_parsed :
  exists d,
    HdparmParser.parse_hdparm_identity Samples.caseless
      MoreSamples.identify_text = Ret d
    /\ dict_keys d
       = [py "raw"; py "model"; py "serial"; py "firmware";
          py "reported_size_m10"; py "security_supported";
          py "security_frozen"; py "enhanced_erase_supported";
          py "erase_time_raw"]
    /\ dict_get (py "reported_size_m10") d
       = Some (VStr (py "500107 MBytes (500 GB)")).
Proof. eexists. split; [vm_compute; reflexivity|]. split; reflexivity. Qed.

(* ===================================================================== *)
(** * More on wipe_drive.py: the sampler *)
(* ===================================================================== *)

Section SamplerFacts.
Import WipeDrive WipeView WipeCount.
Variable sha256_hex : list Byte.byte -> pystr.
Variable E : env.



Lemma sampler_calls_app t1 t2 :
  sampler_calls (t1 ++ t2) = sampler_calls t1 ++ sampler_calls t2.
Proof.
  induction t1 as [|e t1 IH]; simpl; [reflexivity|].
  destruct e; simpl; now rewrite ?IH.
Qed.

Lemma read_sizes_app t1 t2 :
  read_sizes (t1 ++ t2) = read_sizes t1 ++ read_sizes t2.
Proof.
  induction t1 as [|e t1 IH]; simpl; [reflexivity|].
  destruct e; simpl; now rewrite ?IH.
Qed.

(** The read loop: it asks for between one byte and one MiB at a time and
    never for more than is still wanted; it does not exit; what it returns
    extends what was fed by no more than [remaining] bytes. *)
Lemma read_loop_bounded device fuel : forall remaining acc t,
  exists new,
    fst (read_loop E fuel device remaining acc t) = t ++ new
    /\ Forall (fun k => 0 < k <= 1024 * 1024 /\ k <= remaining)%Z
         (read_sizes new)
    /\ runs_of new = [] /\ appended new = [] /\ sampler_calls new = []
    /\ match snd (read_loop E fuel device remaining acc t) with
       | Ret fed => exists more,
           fed = acc ++ more
           /\ (Z.of_nat (List.length more) <= Z.max 0 remaining)%Z
       | Raise _ => True
       | Exit _ => False
       end.
Proof.
  induction fuel as [|fuel IH]; intros remaining acc t;
    cbn [read_loop]; destruct (remaining <=? 0)%Z eqn:Hrem.
  1-3: (exists []; rewrite app_nil_r; cbn;
        repeat split; auto; exists []; rewrite app_nil_r;
        split; [reflexivity|cbn; lia]).
  apply Z.leb_gt in Hrem.
  unfold bind, f_read, ask.
  set (k := Z.min (1024 * 1024) remaining).
  destruct (dev_read E t device k) as [raw|e] eqn:Hread.
  - destruct (firstn (Z.to_nat k) raw) as [|b chunk] eqn:Hchunk.
    + exists [EvRead device k (inl raw)]. cbn.
      repeat split; auto.
      * constructor; [subst k; lia|constructor].
      * exists []. rewrite app_nil_r. split; [reflexivity|cbn; lia].
    + assert (List.length (b :: chunk) <= Z.to_nat k)%nat as Hlen.
      { rewrite <- Hchunk, length_firstn. lia. }
      destruct (IH (remaining - Z.of_nat (List.length (b :: chunk)))%Z
                  (acc ++ b :: chunk)
                  (t ++ [EvRead device k (inl raw)]))
        as (new & Hnew & Hsizes & Hr & Ha & Hs & Hout).
      exists (EvRead device k (inl raw) :: new).
      rewrite Hnew, <- app_assoc.
      split; [reflexivity|]. cbn [read_sizes runs_of appended sampler_calls].
      repeat split; auto.
      * constructor; [subst k; lia|].
        eapply Forall_impl; [|exact Hsizes]. cbn. intros z Hz. lia.
      * destruct (snd _); auto.
        destruct Hout as (more & -> & Hmore).
        exists ((b :: chunk) ++ more). rewrite <- app_assoc.
        split; [reflexivity|].
        rewrite length_app. subst k. lia.
  - exists [EvRead device k (inr e)]. cbn.
    repeat split; auto. constructor; [subst k; lia|constructor].
Qed.


(** X8: [sample_hash] reads in bounded chunks: every request it makes of
    the device asks for at least one byte, at most 1048576 bytes, and at
    most [num_bytes] bytes. *)
Theorem sample_hash_reads_bounded_chunks (device : pystr) (num_bytes : Z)
    (t : trace) :
  exists new,
    fst (sample_hash sha256_hex E device num_bytes t) = t ++ new
    /\ Forall (fun k => 1 <= k <= 1048576 /\ k <= num_bytes)%Z
         (read_sizes new).
Proof.
  unfold sample_hash, bind, emit. cbn.
  destruct (num_bytes <=? 0)%Z eqn:Hn.
  - exists [EvSampleHash device num_bytes]. cbn. auto.
  - unfold try_except, bind, open_rb, print, ask.
    destruct (dev_open E (t ++ [EvSampleHash device num_bytes]) device)
      as [e|] eqn:Hopen; cbn [unless_raised fst snd].
    + destruct (console E _ _ _) as [e'|]; cbn [unless_raised fst snd];
        (eexists [_; _; _]; rewrite <- !app_assoc;
         split; [reflexivity|]; cbn; auto).
    + match goal with
      | |- context [read_loop E ?f device num_bytes [] ?t0] =>
          destruct (read_loop_bounded device f num_bytes [] t0)
            as (new & Hnew & Hsizes & _ & _ & _ & Hout);
          destruct (read_loop E f device num_bytes [] t0) as [t1 [fed|e|c]]
      end; cbn [fst snd] in *; subst t1; [| |contradiction].
      * eexists (_ :: _ :: new). rewrite <- !app_assoc.
        split; [reflexivity|]. cbn.
        eapply Forall_impl; [|exact Hsizes]. cbn. intros z Hz. lia.
      * destruct (console E _ _ _) as [e'|]; cbn [unless_raised fst snd];
          (eexists (_ :: _ :: new ++ [_]); rewrite <- !app_assoc;
           split; [reflexivity|]; cbn;
           rewrite read_sizes_app; cbn; rewrite app_nil_r;
           eapply Forall_impl; [|exact Hsizes]; cbn; intros z Hz; lia).
Qed.

Lemma offset_after_open device t r :
  offset device (t ++ [EvOpen device r]) = 0%nat.
Proof.
  unfold offset. rewrite fold_left_app. cbn. now rewrite str_eqb_refl.
Qed.

Lemma offset_after_read device t n chunk :
  offset device (t ++ [EvRead device n (inl chunk)])
  = (offset device t + List.length (firstn (Z.to_nat n) chunk))%nat.
Proof.
  unfold offset. rewrite fold_left_app. cbn. now rewrite str_eqb_refl.
Qed.

Lemma firstn_length_firstn {A} (k : nat) : forall (l : list A),
  firstn (List.length (firstn k l)) l = firstn k l.
Proof.
  induction k as [|k IH]; intros [|x l]; cbn; try reflexivity.
  now rewrite IH.
Qed.

Lemma firstn_add {A} (a b : nat) : forall (l : list A),
  firstn (a + b) l = firstn a l ++ firstn b (skipn a l).
Proof.
  induction a as [|a IH]; intros [|x l]; cbn; try reflexivity.
  - now rewrite firstn_nil.
  - now rewrite IH.
Qed.

(** On a device that behaves like a file the read loop feeds the hasher
    the next [remaining] bytes of the content, or as many as are left. *)
Lemma read_loop_on_file device content :
  serves E device content ->
  forall fuel remaining acc t,
    (Z.to_nat remaining <= fuel)%nat ->
    exists t',
      read_loop E fuel device remaining acc t
      = (t', Ret (acc ++ firstn (Z.to_nat remaining)
                           (skipn (offset device t) content))).
Proof.
  intros Hfile.
  induction fuel as [|fuel IH]; intros remaining acc t Hfuel;
    cbn [read_loop]; destruct (remaining <=? 0)%Z eqn:Hrem.
  1,3: (apply Z.leb_le in Hrem;
        replace (Z.to_nat remaining) with 0%nat by lia;
        cbn; rewrite app_nil_r; eexists; reflexivity).
  - apply Z.leb_gt in Hrem. lia.
  - apply Z.leb_gt in Hrem.
    unfold bind, f_read, ask.
    set (k := Z.min (1024 * 1024) remaining).
    destruct (Hfile t) as [_ Hread]. rewrite (Hread k).
    set (s := skipn (offset device t) content).
    rewrite firstn_firstn, Nat.min_id.
    destruct (firstn (Z.to_nat k) s) as [|b chunk] eqn:Hchunk.
    + assert (s = []) as ->.
      { destruct s; [reflexivity|].
        assert (0 < Z.to_nat k)%nat by (subst k; lia).
        destruct (Z.to_nat k); [lia|discriminate]. }
      rewrite firstn_nil, app_nil_r. eexists; reflexivity.
    + assert (List.length (b :: chunk) <= Z.to_nat k)%nat as Hlen.
      { rewrite <- Hchunk, length_firstn. lia. }
      destruct (IH (remaining - Z.of_nat (List.length (b :: chunk)))%Z
                  (acc ++ b :: chunk)
                  (t ++ [EvRead device k (inl (b :: chunk))]))
        as (t' & ->); [cbn [List.length]; lia|].
      exists t'. f_equal. f_equal.
      rewrite offset_after_read.
      assert (firstn (Z.to_nat k) (b :: chunk) = b :: chunk) as ->.
      { rewrite <- Hchunk, firstn_firstn, Nat.min_id. reflexivity. }
      rewrite <- app_assoc. f_equal.
      replace (Z.to_nat remaining)
        with (List.length (b :: chunk)
              + Z.to_nat (remaining - Z.of_nat (List.length (b :: chunk))))%nat
        by (cbn [List.length] in *; lia).
      rewrite firstn_add. fold s.
      assert (firstn (List.length (b :: chunk)) s = b :: chunk) as ->
          by (rewrite <- Hchunk; apply firstn_length_firstn).
      f_equal. f_equal. subst s. rewrite skipn_skipn. f_equal. lia.
Qed.

(** X9: on a device that can be opened and read like a file with the
    content [content], [sample_hash] with a positive [num_bytes] returns
    the digest of the first [num_bytes] bytes of the content, or of the
    whole content when it is shorter. *)
Theorem sample_hash_digests_prefix (device : pystr)
    (content : list Byte.byte) (num_bytes : Z) (t : trace) :
  serves E device content ->
  (0 < num_bytes)%Z ->
  snd (sample_hash sha256_hex E device num_bytes t)
  = Ret (VStr (sha256_hex (firstn (Z.to_nat num_bytes) content))).
Proof.
  intros Hfile Hpos.
  unfold sample_hash, bind, emit. cbn.
  assert ((num_bytes <=? 0)%Z = false) as -> by (apply Z.leb_gt; lia).
  unfold try_except, bind, open_rb, ask.
  destruct (Hfile (t ++ [EvSampleHash device num_bytes])) as [-> _]. cbn.
  match goal with
  | |- context [read_loop E ?f device num_bytes [] ?t0] =>
      destruct (@read_loop_on_file device content Hfile f num_bytes [] t0)
        as (t' & ->); [lia|]
  end.
  cbn. rewrite offset_after_open. reflexivity.
Qed.

End SamplerFacts.

(* ===================================================================== *)
(** * More on wipe_drive.py: counting what the orchestrator does *)
(* ===================================================================== *)

Module TallyLogic.
Import WipeDrive WipeView WipeCount.

Lemma total_app f t1 t2 : total f (t1 ++ t2) = (total f t1 + total f t2)%nat.
Proof. unfold total. now rewrite map_app, list_sum_app. Qed.

Section Rules.
Variable lower_nonascii : pystr -> nat -> pystr.
Variable sha256_hex : list Byte.byte -> pystr.
Variable lsblk_devices : pystr -> outcome (list dict).
Variable E : env.

Variable frun : list pystr -> nat.
Variable fsample : pystr -> Z -> nat.
Variable finput fappend : nat.

Local Abbreviation M := (Eff.M trace).
Local Abbreviation f := (weight frun fsample finput fappend).
Local Abbreviation tally lo hi m := (WipeCount.tally f lo hi m).

Lemma tally_silent {A} lo (o : outcome A) :
  (forall a, o = Ret a -> lo = 0%nat) -> tally lo 0 (lift o).
Proof.
  intros H t. exists []. cbn. rewrite app_nil_r.
  repeat split; auto. intros a Ha. rewrite (H a Ha). lia.
Qed.

Lemma tally_ret {A} (a : A) : tally 0 0 (ret a).
Proof. apply (@tally_silent A 0%nat (Ret a)). reflexivity. Qed.

Lemma tally_lift {A} (o : outcome A) : tally 0 0 (lift o).
Proof. apply (@tally_silent A 0%nat o). reflexivity. Qed.

(** An exit or a raise adds nothing and does not return, so it meets any
    lower bound. *)
Lemma tally_exit {A} lo c : tally lo 0 (@sys_exit trace A c).
Proof. apply (@tally_silent A lo (Exit c)). discriminate. Qed.

Lemma tally_raise {A} lo e : tally lo 0 (@raise trace A e).
Proof. apply (@tally_silent A lo (Raise e)). discriminate. Qed.

Lemma tally_bind {A B} lo1 hi1 lo2 hi2 (m : M A) (k : A -> M B) :
  tally lo1 hi1 m -> (forall a, tally lo2 hi2 (k a)) ->
  tally (lo1 + lo2) (hi1 + hi2) (bind m k).
Proof.
  intros Hm Hk t. destruct (Hm t) as (n1 & E1 & U1 & L1).
  unfold bind. destruct (m t) as [t1 [a|e|c]]; cbn in *; subst t1.
  - destruct (Hk a (t ++ n1)) as (n2 & E2 & U2 & L2).
    exists (n1 ++ n2). rewrite E2, app_assoc, total_app.
    split; [reflexivity|]. split; [lia|].
    intros b Hb. specialize (L1 a eq_refl). specialize (L2 b Hb). lia.
  - exists n1. repeat split; auto; [lia|discriminate].
  - exists n1. repeat split; auto; [lia|discriminate].
Qed.

Lemma tally_try {A} lo hi (m : M A) (h : exn -> M A) :
  tally lo hi m -> (forall e, tally lo 0 (h e)) ->
  tally lo hi (try_except m h).
Proof.
  intros Hm Hh t. destruct (Hm t) as (n1 & E1 & U1 & L1).
  unfold try_except. destruct (m t) as [t1 [a|e|c]]; cbn in *; subst t1.
  - exists n1. auto.
  - destruct (Hh e (t ++ n1)) as (n2 & E2 & U2 & L2).
    exists (n1 ++ n2). rewrite E2, app_assoc, total_app.
    split; [reflexivity|]. split; [lia|].
    intros b Hb. specialize (L2 b Hb). lia.
  - exists n1. repeat split; auto.
Qed.

Lemma tally_weaken {A} lo hi lo' hi' (m : M A) :
  tally lo hi m -> (lo' <= lo)%nat -> (hi <= hi')%nat -> tally lo' hi' m.
Proof.
  intros Hm Hlo Hhi t. destruct (Hm t) as (n & E1 & U & L).
  exists n. repeat split; auto; [lia|].
  intros a Ha. specialize (L a Ha). lia.
Qed.

Lemma tally_ask {R A} c (oracle : trace -> R) (ev : R -> event)
    (k : R -> outcome A) :
  (forall r, f (ev r) = c) -> tally c c (ask oracle ev k).
Proof.
  intros Hc t. exists [ev (oracle t)]. unfold ask, total. cbn.
  rewrite Hc. repeat split; auto; lia.
Qed.

Lemma tally_print to text : tally 0 0 (print E to text).
Proof. now apply tally_ask. Qed.

(** A statement that weighs nothing, followed by the rest. *)
Lemma tally_then {A B} lo hi (m : M A) (k : A -> M B) :
  tally 0 0 m -> (forall a, tally lo hi (k a)) -> tally lo hi (bind m k).
Proof. intros Hm Hk. exact (@tally_bind A B 0%nat 0%nat lo hi m k Hm Hk). Qed.

(** A statement followed by statements that weigh nothing. *)
Lemma tally_first {A B} lo hi (m : M A) (k : A -> M B) :
  tally lo hi m -> (forall a, tally 0 0 (k a)) -> tally lo hi (bind m k).
Proof.
  intros Hm Hk.
  eapply tally_weaken;
    [exact (@tally_bind A B lo hi 0%nat 0%nat m k Hm Hk)|lia|lia].
Qed.

Lemma tally_run_cmd cmd : tally (frun cmd) (frun cmd) (run_cmd E cmd).
Proof.
  unfold run_cmd. apply tally_try.
  - now apply tally_ask.
  - intros []; try apply tally_raise.
    apply tally_then; [apply tally_lift|]. intros c0.
    apply tally_then; [apply tally_print|]. intros _.
    apply tally_exit.
Qed.

Lemma tally_utc_now_iso : tally 0 0 (utc_now_iso E).
Proof. now apply tally_ask. Qed.

Lemma tally_list_drives :
  tally (frun lsblk_cmd) (frun lsblk_cmd) (list_drives lsblk_devices E).
Proof.
  unfold list_drives.
  apply tally_first; [apply tally_run_cmd|]. intros result.
  destruct (negb _).
  - apply tally_then; [apply tally_print|]. intros _. apply tally_exit.
  - apply tally_lift.
Qed.

Lemma tally_get_hdparm_info device :
  tally (frun (hdparm_identify_cmd device))
    (frun (hdparm_identify_cmd device))
    (get_hdparm_info lower_nonascii E device).
Proof.
  unfold get_hdparm_info.
  apply tally_first; [apply tally_run_cmd|]. intros result.
  destruct (_ || _); [apply tally_ret|].
  apply tally_then; [apply tally_lift|]. intros d. apply tally_ret.
Qed.

Lemma tally_read_loop device fuel : forall remaining acc,
  tally 0 0 (read_loop E fuel device remaining acc).
Proof.
  induction fuel as [|fuel IH]; intros remaining acc; cbn [read_loop];
    destruct (remaining <=? 0)%Z; try apply tally_ret.
  apply tally_then; [now apply tally_ask|].
  intros [|b chunk]; [apply tally_ret|apply IH].
Qed.

Lemma tally_sample_hash device num_bytes :
  tally (fsample device num_bytes) (fsample device num_bytes)
    (sample_hash sha256_hex E device num_bytes).
Proof.
  unfold sample_hash.
  apply tally_first.
  { intros t. exists [EvSampleHash device num_bytes]. unfold total. cbn.
    repeat split; auto; lia. }
  intros _. destruct (num_bytes <=? 0)%Z; [apply tally_ret|].
  apply tally_try.
  - apply tally_then; [now apply tally_ask|]. intros _.
    apply tally_then; [apply tally_read_loop|]. intros fed.
    apply tally_ret.
  - intros e. apply tally_then; [apply tally_print|]. intros _.
    apply tally_ret.
Qed.

Lemma tally_ata_secure_erase device password :
  tally (frun (set_pass_cmd password device))
    (frun (set_pass_cmd password device)
     + frun (erase_cmd password device))
    (ata_secure_erase E device password).
Proof.
  unfold ata_secure_erase.
  eapply tally_weaken;
    [apply (@tally_bind _ _ (frun (set_pass_cmd password device))
              (frun (set_pass_cmd password device))
              0%nat (frun (erase_cmd password device)));
     [apply tally_run_cmd|intros cp1]
    |lia|lia].
  destruct (negb _).
  - eapply tally_weaken; [apply tally_ret|lia|lia].
  - eapply tally_weaken;
      [apply (@tally_bind _ _ (frun (erase_cmd password device))
                (frun (erase_cmd password device)) 0%nat 0%nat);
       [apply tally_run_cmd|intros cp2; destruct (negb _); apply tally_ret]
      |lia|lia].
Qed.

Lemma tally_write_log record :
  tally fappend fappend (write_log E record).
Proof.
  unfold write_log.
  apply tally_then; [now apply tally_ask|]. intros _.
  apply tally_then; [apply tally_utc_now_iso|]. intros day.
  apply tally_then; [apply tally_utc_now_iso|]. intros now.
  apply tally_first; [now apply tally_ask|]. intros _. apply tally_ret.
Qed.

Lemma tally_print_summary device method operator session_id dry_run
    dev_info started_at ended_at pre_hash post_hash method_result record :
  tally 0 0 (print_summary E device method operator session_id dry_run
               dev_info started_at ended_at pre_hash post_hash
               method_result record).
Proof.
  unfold print_summary.
  repeat first
    [ apply tally_ret
    | apply tally_print
    | apply tally_then; [first [apply tally_print|apply tally_lift]|intros ?]
    | match goal with
      | |- WipeCount.tally _ _ _ (bind (if ?c then _ else _) _) =>
          apply tally_then; [destruct c|intros ?]
      | |- WipeCount.tally _ _ _ (if ?c then _ else _) => destruct c
      end ].
Qed.

Lemma tally_os_path_exists path : tally 0 0 (os_path_exists E path).
Proof. now apply tally_ask. Qed.

Lemma tally_input prompt : tally finput finput (input E prompt).
Proof. now apply tally_ask. Qed.

(** After a message and an exit nothing else happens. *)
Lemma tally_dead {A B} lo to text c (k : A -> M B) :
  tally lo 0 (bind (bind (print E to text) (fun _ => sys_exit c)) k).
Proof.
  intros t. exists [EvPrint to text (console E t to text)].
  unfold bind, print, ask. cbn.
  destruct (console E t to text); cbn; repeat split; auto; discriminate.
Qed.

Ltac quiet :=
  repeat first
    [ apply tally_ret | apply tally_print | apply tally_exit
    | apply tally_lift | apply tally_utc_now_iso
    | apply tally_os_path_exists
    | apply tally_then;
      [first [apply tally_print|apply tally_lift|now apply tally_ask]
      |intros ?]
    | match goal with
      | |- WipeCount.tally _ _ _ (if ?c then _ else _) => destruct c
      end ].

Ltac weighted :=
  first
    [ apply tally_list_drives | apply tally_get_hdparm_info
    | apply tally_sample_hash | apply tally_ata_secure_erase
    | apply tally_write_log
    | apply tally_first; [apply tally_input|intros ?; quiet] ].

Ltac step dead :=
  first
    [ apply (@tally_dead _ _ dead)
    | apply tally_print_summary
    | apply tally_then; [solve [quiet]|intros ?]
    | eapply tally_bind; [solve [weighted]|intros ?] ].

(** What a call of [do_wipe] weighs: the prompt when it is due, the
    inventory, the two identity queries, the two samples when sampling is
    on, the erase commands when the run is real, and one append; nothing
    after the inventory and the first capture when the method is not
    supported. *)
Lemma tally_do_wipe device method operator session_id sample_bytes
    assume_yes dry_run :
  let prompt := if negb dry_run && negb assume_yes then finput else 0%nat in
  let sample :=
    if (sample_bytes >? 0)%Z then fsample device sample_bytes else 0%nat in
  let identify := frun (hdparm_identify_cmd device) in
  let before := (prompt + frun lsblk_cmd + identify + sample)%nat in
  tally
    (before
     + (if dry_run then 0 else frun (set_pass_cmd (py "p") device))
     + identify + sample + fappend)
    (before
     + (if str_eqb method (py "ata-secure-erase")
        then (if dry_run then 0
              else frun (set_pass_cmd (py "p") device)
                   + frun (erase_cmd (py "p") device))
             + identify + sample + fappend
        else 0))
    (do_wipe lower_nonascii sha256_hex lsblk_devices E device method
       operator session_id sample_bytes assume_yes dry_run).
Proof.
  unfold do_wipe.
  destruct dry_run, assume_yes, (sample_bytes >? 0)%Z,
    (str_eqb method (py "ata-secure-erase"));
    cbn [negb andb];
    (eapply tally_weaken;
       [repeat step (frun (set_pass_cmd (py "p") device)
                     + frun (hdparm_identify_cmd device)
                     + fsample device sample_bytes + fappend)%nat
       |lia|lia]).
Qed.

End Rules.
End TallyLogic.

Section OrchestratorFacts.
Import WipeDrive WipeView WipeCount WipeLogic TallyLogic.
Variable lower_nonascii : pystr -> nat -> pystr.
Variable sha256_hex : list Byte.byte -> pystr.
Variable lsblk_devices : pystr -> outcome (list dict).
Variable E : env.

Local Abbreviation do_wipe :=
  (do_wipe lower_nonascii sha256_hex lsblk_devices E).

Lemma total_appends t :
  total (weight (fun _ => 0%nat) (fun _ _ => 0%nat) 0 1) t
  = List.length (appended t).
Proof.
  unfold total. induction t as [|e t IH]; cbn; [reflexivity|].
  destruct e; cbn; now rewrite <- ?IH.
Qed.

Lemma total_prompts t :
  total (weight (fun _ => 0%nat) (fun _ _ => 0%nat) 1 0) t
  = List.length (prompts t).
Proof.
  unfold total. induction t as [|e t IH]; cbn; [reflexivity|].
  destruct e; cbn; now rewrite <- ?IH.
Qed.

Lemma total_times_run cmd t :
  total (weight (fun c => if cmd_eqb c cmd then 1%nat else 0%nat)
           (fun _ _ => 0%nat) 0 0) t
  = times_run cmd t.
Proof.
  induction t as [|e t IH]; [reflexivity|].
  change (total ?f (e :: t)) with (f e + total f t)%nat. rewrite IH.
  destruct e; try reflexivity.
  unfold times_run. cbn [runs_of filter fst weight].
  destruct (cmd_eqb cmd0 cmd); reflexivity.
Qed.

Lemma total_sampler_calls t :
  total (weight (fun _ => 0%nat) (fun _ _ => 1%nat) 0 0) t
  = List.length (sampler_calls t).
Proof.
  unfold total. induction t as [|e t IH]; cbn; [reflexivity|].
  destruct e; cbn; now rewrite <- ?IH.
Qed.

Lemma total_other_samples device n t :
  total (weight (fun _ => 0%nat)
           (fun d k => if str_eqb d device && (k =? n)%Z
                       then 0%nat else 1%nat) 0 0) t = 0%nat ->
  Forall (fun call => call = (device, n)) (sampler_calls t).
Proof.
  unfold total. induction t as [|e t IH]; cbn; [constructor|].
  destruct e; cbn; auto.
  destruct (str_eqb device0 device && (num_bytes =? n)%Z) eqn:Hsame;
    [|discriminate].
  intros H. constructor; [|now apply IH].
  apply andb_true_iff in Hsame as [Hd Hn].
  apply str_eqb_true_iff in Hd. apply Z.eqb_eq in Hn. now subst.
Qed.

Lemma cmd_eqb_refl cmd : cmd_eqb cmd cmd = true.
Proof.
  induction cmd as [|a cmd IH]; cbn; [reflexivity|].
  now rewrite str_eqb_refl.
Qed.

(** X10: a call of [do_wipe] hands at most one record to the log, and
    exactly one when it returns; with a method other than
    "ata-secure-erase" it hands none and does not return. *)
Theorem do_wipe_logs_one_record (device method : pystr)
    (operator session_id : option pystr) (sample_bytes : Z)
    (assume_yes dry_run : bool) (t : trace) :
  let run := do_wipe device method operator session_id sample_bytes
               assume_yes dry_run t in
  exists new,
    fst run = t ++ new
    /\ (List.length (appended new) <= 1)%nat
    /\ match snd run with
       | Ret _ => List.length (appended new) = 1%nat
                  /\ str_eqb method (py "ata-secure-erase") = true
       | _ => True
       end
    /\ (if str_eqb method (py "ata-secure-erase") then True
        else appended new = []).
Proof.
  intros run. subst run.
  destruct (@tally_do_wipe lower_nonascii sha256_hex lsblk_devices E
              (fun _ => 0%nat) (fun _ _ => 0%nat) 0%nat 1%nat
              device method operator session_id sample_bytes assume_yes
              dry_run t) as (new & Hnew & Hhi & Hlo).
  rewrite total_appends in *.
  exists new. split; [exact Hnew|].
  assert (List.length (appended new)
          <= (if str_eqb method (py "ata-secure-erase") then 1 else 0))%nat
    as Hbound.
  { revert Hhi.
    destruct dry_run, assume_yes, (sample_bytes >? 0)%Z,
      (str_eqb method (py "ata-secure-erase")); cbn; lia. }
  split; [destruct (str_eqb method _); lia|].
  split.
  - destruct (snd _) as [u| |]; auto.
    specialize (Hlo u eq_refl).
    assert (1 <= List.length (appended new))%nat as H1.
    { revert Hlo.
      destruct dry_run, assume_yes, (sample_bytes >? 0)%Z; cbn; lia. }
    destruct (str_eqb method _); [split; [lia|reflexivity]|lia].
  - destruct (str_eqb method _); [exact I|].
    destruct (appended new); [reflexivity|cbn in Hbound; lia].
Qed.

(** X11: [do_wipe] asks for confirmation at most once, and never in a dry
    run or when [assume_yes] is set; a real, attended run that returns has
    asked exactly once. *)
Theorem do_wipe_prompts_when_due (device method : pystr)
    (operator session_id : option pystr) (sample_bytes : Z)
    (assume_yes dry_run : bool) (t : trace) :
  let run := do_wipe device method operator session_id sample_bytes
               assume_yes dry_run t in
  let due := if negb dry_run && negb assume_yes then 1%nat else 0%nat in
  exists new,
    fst run = t ++ new
    /\ (List.length (prompts new) <= due)%nat
    /\ match snd run with
       | Ret _ => List.length (prompts new) = due
       | _ => True
       end.
Proof.
  intros run due. subst run due.
  destruct (@tally_do_wipe lower_nonascii sha256_hex lsblk_devices E
              (fun _ => 0%nat) (fun _ _ => 0%nat) 1%nat 0%nat
              device method operator session_id sample_bytes assume_yes
              dry_run t) as (new & Hnew & Hhi & Hlo).
  rewrite total_prompts in *.
  exists new. split; [exact Hnew|].
  assert (List.length (prompts new)
          <= (if negb dry_run && negb assume_yes then 1 else 0))%nat
    as Hbound.
  { revert Hhi.
    destruct dry_run, assume_yes, (sample_bytes >? 0)%Z,
      (str_eqb method (py "ata-secure-erase")); cbn; lia. }
  split; [exact Hbound|].
  destruct (snd _) as [u| |]; auto.
  specialize (Hlo u eq_refl). revert Hlo Hbound.
  destruct dry_run, assume_yes, (sample_bytes >? 0)%Z; cbn; lia.
Qed.

(** How often [do_wipe] runs the command [cmd], from what the four session
    commands weigh when only [cmd] counts. *)
Lemma do_wipe_times_run cmd device method operator session_id sample_bytes
    assume_yes dry_run t :
  let hit c := if cmd_eqb c cmd then 1%nat else 0%nat in
  exists new,
    fst (do_wipe device method operator session_id sample_bytes assume_yes
           dry_run t) = t ++ new
    /\ (times_run cmd new
        <= hit lsblk_cmd + 2 * hit (hdparm_identify_cmd device)
           + (if dry_run then 0
              else hit (set_pass_cmd (py "p") device)
                   + hit (erase_cmd (py "p") device)))%nat.
Proof.
  intros hit.
  destruct (@tally_do_wipe lower_nonascii sha256_hex lsblk_devices E
              hit (fun _ _ => 0%nat) 0%nat 0%nat
              device method operator session_id sample_bytes assume_yes
              dry_run t) as (new & Hnew & Hhi & _).
  unfold hit in Hhi at 1. rewrite total_times_run in Hhi.
  exists new. split; [exact Hnew|]. revert Hhi.
  destruct dry_run, assume_yes, (sample_bytes >? 0)%Z,
    (str_eqb method (py "ata-secure-erase")); cbn [negb andb]; lia.
Qed.

(** X12: [do_wipe] runs no command but the lsblk inventory, the hdparm
    identity query of [device], and the security-set-pass and
    security-erase commands on [device] with the password "p".  It runs
    the inventory at most once, the identity query at most twice, and each
    of the two security commands at most once: nothing is retried. *)
Theorem do_wipe_runs_session_commands_once (device method : pystr)
    (operator session_id : option pystr) (sample_bytes : Z)
    (assume_yes dry_run : bool) (t : trace) :
  exists new,
    fst (do_wipe device method operator session_id sample_bytes assume_yes
           dry_run t) = t ++ new
    /\ Forall (fun cr => In (fst cr) (session_commands device))
         (runs_of new)
    /\ (times_run lsblk_cmd new <= 1)%nat
    /\ (times_run (hdparm_identify_cmd device) new <= 2)%nat
    /\ (times_run (set_pass_cmd (py "p") device) new <= 1)%nat
    /\ (times_run (erase_cmd (py "p") device) new <= 1)%nat.
Proof.
  destruct (@sat_do_wipe lower_nonascii sha256_hex lsblk_devices E
              (fun cmd => In cmd (session_commands device)) True
              (fun _ => True)
              device method operator session_id sample_bytes assume_yes
              dry_run) with (t := t) as (new & Hnew & Hall & _);
    cbn; auto 6.
  exists new. split; [exact Hnew|].
  split; [exact (event_ok_runs Hall)|].
  pose proof (fun cmd =>
                @do_wipe_times_run cmd device method operator session_id
                  sample_bytes assume_yes dry_run t) as Hcount.
  repeat split.
  - destruct (Hcount lsblk_cmd) as (new' & Hnew' & H).
    rewrite Hnew in Hnew'. apply app_inv_head in Hnew'. subst new'.
    revert H. cbn. destruct dry_run; lia.
  - destruct (Hcount (hdparm_identify_cmd device)) as (new' & Hnew' & H).
    rewrite Hnew in Hnew'. apply app_inv_head in Hnew'. subst new'.
    revert H. rewrite cmd_eqb_refl. cbn. destruct dry_run; lia.
  - destruct (Hcount (set_pass_cmd (py "p") device)) as (new' & Hnew' & H).
    rewrite Hnew in Hnew'. apply app_inv_head in Hnew'. subst new'.
    revert H. rewrite cmd_eqb_refl. cbn. destruct dry_run; lia.
  - destruct (Hcount (erase_cmd (py "p") device)) as (new' & Hnew' & H).
    rewrite Hnew in Hnew'. apply app_inv_head in Hnew'. subst new'.
    revert H. rewrite cmd_eqb_refl. cbn. destruct dry_run; lia.
Qed.

(** X13: with sampling on, a call of [do_wipe] that returns has entered
    the sampler exactly twice, before and after the erase, both times for
    [device] and with the same byte count [sample_bytes]; a call that does
    not return has entered it at most twice, never with other arguments. *)
Theorem do_wipe_samples_twice_alike (device method : pystr)
    (operator session_id : option pystr) (sample_bytes : Z)
    (assume_yes dry_run : bool) (t : trace) :
  (0 < sample_bytes)%Z ->
  let run := do_wipe device method operator session_id sample_bytes
               assume_yes dry_run t in
  exists new,
    fst run = t ++ new
    /\ Forall (fun call => call = (device, sample_bytes))
         (sampler_calls new)
    /\ (List.length (sampler_calls new) <= 2)%nat
    /\ match snd run with
       | Ret _ => sampler_calls new
                  = [(device, sample_bytes); (device, sample_bytes)]
       | _ => True
       end.
Proof.
  intros Hpos run. subst run.
  assert ((sample_bytes >? 0)%Z = true) as Hon
      by (rewrite Z.gtb_ltb; apply Z.ltb_lt; lia).
  destruct (@tally_do_wipe lower_nonascii sha256_hex lsblk_devices E
              (fun _ => 0%nat) (fun _ _ => 1%nat) 0%nat 0%nat
              device method operator session_id sample_bytes assume_yes
              dry_run t) as (new & Hnew & Hhi & Hlo).
  destruct (@tally_do_wipe lower_nonascii sha256_hex lsblk_devices E
              (fun _ => 0%nat)
              (fun d k => if str_eqb d device && (k =? sample_bytes)%Z
                          then 0%nat else 1%nat) 0%nat 0%nat
              device method operator session_id sample_bytes assume_yes
              dry_run t) as (new' & Hnew' & Hnone & _).
  rewrite Hnew in Hnew'. apply app_inv_head in Hnew'. subst new'.
  rewrite total_sampler_calls in *. rewrite Hon in *.
  rewrite str_eqb_refl, Z.eqb_refl in Hnone.
  assert (Forall (fun call => call = (device, sample_bytes))
            (sampler_calls new)) as Hsame.
  { apply total_other_samples. revert Hnone.
    destruct dry_run, assume_yes,
      (str_eqb method (py "ata-secure-erase")); cbn; lia. }
  assert (List.length (sampler_calls new) <= 2)%nat as Hmost.
  { revert Hhi.
    destruct dry_run, assume_yes,
      (str_eqb method (py "ata-secure-erase")); cbn; lia. }
  exists new. repeat split; auto.
  destruct (snd _) as [u| |]; auto.
  specialize (Hlo u eq_refl).
  assert (2 <= List.length (sampler_calls new))%nat as Hleast.
  { revert Hlo. destruct dry_run, assume_yes; cbn; lia. }
  destruct (sampler_calls new) as [|c1 [|c2 [|c3 rest]]];
    cbn in Hmost, Hleast; try lia.
  inversion Hsame as [|? ? -> Hrest]; subst.
  inversion Hrest as [|? ? -> _]; subst. reflexivity.
Qed.

(** X14: every record [do_wipe] hands to the log has the sixteen keys of a
    session record, in their order, ending with logged_at, and carries the
    arguments of the call as they were given: device, method, dry_run,
    operator and session_id (None when not given), and the sample byte
    count, with 0 standing for every count that is not positive. *)
Theorem do_wipe_record_carries_arguments (device method : pystr)
    (operator session_id : option pystr) (sample_bytes : Z)
    (assume_yes dry_run : bool) (t : trace) :
  exists new,
    fst (do_wipe device method operator session_id sample_bytes assume_yes
           dry_run t) = t ++ new
    /\ Forall
         (fun record =>
            dict_keys record = record_keys
            /\ dict_get (py "device") record = Some (VStr device)
            /\ dict_get (py "method") record = Some (VStr method)
            /\ dict_get (py "dry_run") record = Some (VBool dry_run)
            /\ dict_get (py "operator") record = Some (opt_str operator)
            /\ dict_get (py "session_id") record
               = Some (opt_str session_id)
            /\ dict_get (py "pre_sample_bytes") record
               = Some (VInt (Z.max 0 sample_bytes)))
         (appended new).
Proof.
  destruct (@sat_do_wipe lower_nonascii sha256_hex lsblk_devices E
              (fun _ => True) True
              (fun record =>
                 dict_keys record = record_keys
                 /\ dict_get (py "device") record = Some (VStr device)
                 /\ dict_get (py "method") record = Some (VStr method)
                 /\ dict_get (py "dry_run") record = Some (VBool dry_run)
                 /\ dict_get (py "operator") record
                    = Some (opt_str operator)
                 /\ dict_get (py "session_id") record
                    = Some (opt_str session_id)
                 /\ dict_get (py "pre_sample_bytes") record
                    = Some (VInt (Z.max 0 sample_bytes)))
              device method operator session_id sample_bytes assume_yes
              dry_run) with (t := t) as (new & Hnew & Hall & _); auto.
  - intros started_at ended_at now pre_hash post_hash dev_info
      hdparm_before hdparm_after method_result _ _.
    repeat (split; [reflexivity|]).
    change (dict_get (py "pre_sample_bytes") _)
      with (Some (VInt (if (sample_bytes >? 0)%Z
                        then sample_bytes else 0%Z))).
    do 2 f_equal. rewrite Z.gtb_ltb.
    destruct (0 <? sample_bytes)%Z eqn:Hs;
      [apply Z.ltb_lt in Hs|apply Z.ltb_ge in Hs]; lia.
  - exists new. split; [exact Hnew|].
    eapply event_ok_appended, Hall.
Qed.

(** X15: when the device path does not exist, [do_wipe] writes its
    error message to stderr and does nothing else: no prompt, no command,
    no sample, no record.  It exits with status 1 when the message is
    taken, and raises what the console raised when the message is
    refused. *)
Theorem do_wipe_missing_device_stops (device method : pystr)
    (operator session_id : option pystr) (sample_bytes : Z)
    (assume_yes dry_run : bool) (t : trace) :
  path_exists E t device = false ->
  let text := [Lit (py "[ERROR] Device "); Fmt (VStr device);
               Lit (py " does not exist.")] in
  let answer := console E (t ++ [EvExists device false]) Stderr text in
  do_wipe device method operator session_id sample_bytes assume_yes
    dry_run t
  = (t ++ [EvExists device false; EvPrint Stderr text answer],
     match answer with None => Exit 1 | Some e => Raise e end).
Proof.
  intros Hmissing text answer. subst text answer.
  unfold WipeDrive.do_wipe, bind, os_path_exists, print, ask.
  rewrite Hmissing. cbn -[py].
  destruct (console E _ _ _); cbn -[py]; now rewrite <- app_assoc.
Qed.

(** X16: in a real, attended run on an existing device, when the line
    typed at the prompt is not "YES" once stripped, [do_wipe] prints
    "Aborted by user." and does nothing else: no command, no sample, no
    record.  It exits with status 0 when the line is taken, and raises
    what the console raised when it is refused. *)
Theorem do_wipe_declined_stops (device method : pystr)
    (operator session_id : option pystr) (sample_bytes : Z)
    (t : trace) (reply : pystr) :
  path_exists E t device = true ->
  stdin_line E (t ++ [EvExists device true]) = inl reply ->
  str_eqb (strip reply) (py "YES") = false ->
  exists prompt,
    let text := [Lit (py "Aborted by user.")] in
    let answer :=
      console E (t ++ [EvExists device true; EvInput prompt (inl reply)])
        Stdout text in
    do_wipe device method operator session_id sample_bytes false false t
    = (t ++ [EvExists device true; EvInput prompt (inl reply);
             EvPrint Stdout text answer],
       match answer with None => Exit 0 | Some e => Raise e end).
Proof.
  intros Hpresent Hreply Hno.
  unfold WipeDrive.do_wipe, bind, os_path_exists, input, print, ask.
  rewrite Hpresent. cbn -[str_eqb strip py]. rewrite Hreply.
  cbn -[str_eqb strip py]. rewrite Hno. cbn -[str_eqb strip py].
  exists [Lit (py "WARNING: This will ERASE all data on ");
          Fmt (VStr device); Lit (py " using "); Fmt (VStr method);
          Lit [46; 10]%N; Lit (py "Type 'YES' to continue: ")].
  rewrite <- !app_assoc. cbn -[str_eqb strip py].
  destruct (console E _ _ _); cbn -[str_eqb strip py];
    now rewrite <- ?app_assoc.
Qed.

End OrchestratorFacts.

(* ===================================================================== *)
(** * When [do_wipe] returns *)
(* ===================================================================== *)

Section ReturnFacts.
Import WipeDrive WipeView WipeCount TallyLogic.
Variable lower_nonascii : pystr -> nat -> pystr.
Variable sha256_hex : list Byte.byte -> pystr.
Variable lsblk_devices : pystr -> outcome (list dict).
Variable E : env.

Local Abbreviation M := (Eff.M trace).
Local Abbreviation appends :=
  (weight (fun _ => 0%nat) (fun _ _ => 0%nat) 0 1).
Local Abbreviation silent m := (WipeCount.tally appends 0 0 m).

Lemma written_app t1 t2 : written (t1 ++ t2) = written t1 ++ written t2.
Proof.
  induction t1 as [|e t1 IH]; [reflexivity|].
  destruct e; cbn; auto. destruct res; cbn; now rewrite ?IH.
Qed.

Lemma nothing_appended_nothing_written t :
  appended t = [] -> written t = [].
Proof.
  induction t as [|e t IH]; [reflexivity|].
  destruct e; cbn; auto. discriminate.
Qed.

Lemma written_at_most_appended t :
  (List.length (written t) <= List.length (appended t))%nat.
Proof.
  induction t as [|e t IH]; cbn; [lia|].
  destruct e; cbn; try lia. destruct res; cbn; lia.
Qed.

Lemma silent_writes_nothing {A} (m : M A) :
  silent m ->
  forall t, exists new, fst (m t) = t ++ new /\ written new = [].
Proof.
  intros Hm t. destruct (Hm t) as (new & Hnew & Hhi & _).
  exists new. split; [exact Hnew|].
  apply nothing_appended_nothing_written.
  rewrite total_appends in Hhi.
  destruct (appended new); [reflexivity|cbn in Hhi; lia].
Qed.

Lemma ends_refused_after e n1 n2 :
  ends_refused e n2 -> ends_refused e (n1 ++ n2).
Proof.
  intros (before & to & text & ->). exists (n1 ++ before), to, text.
  now rewrite app_assoc.
Qed.

(** A statement that writes nothing, followed by the rest. *)
Lemma settled_after {A B} (m : M A) (k : A -> M B) :
  silent m -> (forall a, settled (k a)) -> settled (bind m k).
Proof.
  intros Hm Hk t.
  destruct (@silent_writes_nothing A m Hm t) as (n1 & H1 & W1).
  unfold bind. destruct (m t) as [t1 [a|e|c]]; cbn in H1; subst t1.
  - destruct (Hk a (t ++ n1)) as (n2 & H2 & Hout).
    exists (n1 ++ n2). rewrite H2, app_assoc. split; [reflexivity|].
    destruct (snd (k a (t ++ n1))) as [b|e|c]; cbn [settles] in *;
      rewrite written_app, W1; cbn [app]; auto.
    destruct Hout as [Hnone|[Hone Hend]]; [now left|right].
    split; [exact Hone|]. now apply ends_refused_after.
  - exists n1. split; [reflexivity|]. now left.
  - exists n1. split; [reflexivity|]. exact W1.
Qed.

(** A pure step, followed by the rest. *)
Lemma settled_lift {A B} (o : outcome A) (k : A -> M B) :
  (forall a, o = Ret a -> settled (k a)) -> settled (bind (lift o) k).
Proof.
  intros Hk t. unfold bind, lift. destruct o as [a|e|c]; cbn.
  - apply Hk. reflexivity.
  - exists []. rewrite app_nil_r. split; [reflexivity|]. now left.
  - exists []. rewrite app_nil_r. split; reflexivity.
Qed.

Lemma chatty_ret {A} (a : A) : chatty (ret a).
Proof. intros t. exists []. cbn. now rewrite app_nil_r. Qed.

Lemma chatty_print to text : chatty (print E to text).
Proof.
  intros t. exists [EvPrint to text (console E t to text)].
  unfold print, ask. cbn. split; [reflexivity|].
  destruct (console E t to text) as [e|]; cbn; [|exact I].
  now exists [], to, text.
Qed.

Lemma chatty_bind {A B} (m : M A) (k : A -> M B) :
  chatty m -> (forall a, chatty (k a)) -> chatty (bind m k).
Proof.
  intros Hm Hk t. unfold bind. destruct (Hm t) as (n1 & H1 & O1).
  destruct (m t) as [t1 [a|e|c]]; cbn in H1, O1; subst t1;
    [| |contradiction].
  - destruct (Hk a (t ++ n1)) as (n2 & H2 & O2).
    exists (n1 ++ n2). rewrite H2, app_assoc. split; [reflexivity|].
    destruct (snd _); auto. now apply ends_refused_after.
  - exists n1. split; [reflexivity|exact O1].
Qed.

(** The summary can fail at the console only: with the device
    information that the lookup gives and a record that has its result,
    it returns unless a line is refused. *)
Lemma chatty_print_summary device method operator session_id dry_run
    dev_info started_at ended_at pre_hash post_hash method_result record :
  (dev_info = VNone \/ exists d, dev_info = VDict d) ->
  (exists v, dict_get (py "result") record = Some v) ->
  chatty (print_summary E device method operator session_id dry_run
            dev_info started_at ended_at pre_hash post_hash
            method_result record).
Proof.
  intros Hinfo [v Hv]. unfold print_summary. rewrite Hv.
  destruct Hinfo as [->|[d ->]]; unfold val_get, lift;
    repeat first
      [ apply chatty_ret
      | apply chatty_print
      | apply chatty_bind; [|intros ?]
      | match goal with
        | |- chatty (if ?c then _ else _) => destruct c
        | |- chatty (fun w => (w, Ret ?a)) => apply (chatty_ret a)
        end ].
Qed.

Lemma find_device_gives device devices v :
  find_device device devices = Ret v ->
  v = VNone \/ exists d, v = VDict d.
Proof.
  induction devices as [|d devices IH]; cbn [find_device].
  - intros [= <-]. now left.
  - destruct (dict_get (py "path") d) as [[| | |p| |]|]; auto;
      try discriminate.
    destruct (str_eqb p device); auto. intros [= <-]. right. eauto.
Qed.

(** [write_log] returns exactly when its record reached the file. *)
Lemma write_log_cases record t :
  exists new,
    fst (write_log E record t) = t ++ new
    /\ match snd (write_log E record t) with
       | Ret r => written new = [r]
                  /\ exists now,
                       r = dict_set (py "logged_at") (VStr now) record
       | Raise _ => written new = []
       | Exit _ => False
       end.
Proof.
  unfold write_log, bind, mkdir_p, utc_now_iso, append_json, ask.
  destruct (fs_mkdir E t LOG_DIR) as [e|]; cbn.
  - exists [EvMkdir LOG_DIR (Some e)]. split; reflexivity.
  - match goal with
    | |- context [fs_append E ?t0 ?p ?d] =>
        destruct (fs_append E t0 p d) as [e|]
    end; cbn; rewrite <- !app_assoc;
      (eexists [_; _; _; _]; split; [reflexivity|]; cbn; eauto).
Qed.

(** The end of [do_wipe]: the record is written, then the summary is
    printed. *)
Lemma settled_write_then_summary device method operator session_id
    sample_bytes dry_run dev_info started_at ended_at pre_hash post_hash
    hdparm_before hdparm_after method_result :
  (dev_info = VNone \/ exists d, dev_info = VDict d) ->
  settled
    (bind
       (write_log E
          (session_record device method operator session_id sample_bytes
             dry_run started_at ended_at pre_hash post_hash dev_info
             hdparm_before hdparm_after method_result))
       (fun record =>
          print_summary E device method operator session_id dry_run dev_info
            started_at ended_at pre_hash post_hash method_result record)).
Proof.
  intros Hinfo t. unfold bind.
  match goal with
  | |- context [write_log E ?r t] =>
      destruct (write_log_cases r t) as (n1 & H1 & Hw);
      destruct (write_log E r t) as [t1 [r1|e|c]]
  end; cbn [fst snd] in *; subst t1; [| |contradiction].
  - destruct Hw as (Hw & now & ->).
    match goal with
    | |- context [print_summary E ?a1 ?a2 ?a3 ?a4 ?a5 ?a6 ?a7 ?a8 ?a9
                    ?a10 ?a11 ?a12] =>
        destruct (@silent_writes_nothing _
                    (print_summary E a1 a2 a3 a4 a5 a6 a7 a8 a9 a10 a11
                       a12)
                    (@tally_print_summary E _ _ _ _ a1 a2 a3 a4 a5 a6 a7
                       a8 a9 a10 a11 a12) (t ++ n1)) as (n2 & H2 & W2);
        destruct (@chatty_print_summary a1 a2 a3 a4 a5 a6 a7 a8 a9 a10
                    a11 a12 Hinfo) with (t := t ++ n1)
          as (n2' & H2' & Hout)
    end.
    { eexists. reflexivity. }
    rewrite H2 in H2'. apply app_inv_head in H2'. subst n2'.
    exists (n1 ++ n2). rewrite H2, app_assoc. split; [reflexivity|].
    destruct (snd _) as [[]|e|c]; cbn [settles];
      rewrite ?written_app, ?Hw, ?W2; cbn [app]; [eauto| |contradiction].
    right. split; [eauto|]. now apply ends_refused_after.
  - exists n1. split; [reflexivity|]. now left.
Qed.

Lemma settled_do_wipe device method operator session_id sample_bytes
    assume_yes dry_run :
  settled (do_wipe lower_nonascii sha256_hex lsblk_devices E device method
             operator session_id sample_bytes assume_yes dry_run).
Proof.
  unfold do_wipe.
  apply settled_after; [apply tally_os_path_exists|intros present].
  apply settled_after.
  { destruct (negb present); [|apply tally_ret].
    apply tally_then; [apply tally_print|intros _; apply tally_exit]. }
  intros _. apply settled_after.
  { destruct (negb dry_run && negb assume_yes); [|apply tally_ret].
    apply tally_first; [apply tally_input|intros confirm].
    destruct (negb _); [|apply tally_ret].
    apply tally_then; [apply tally_print|intros _; apply tally_exit]. }
  intros _.
  apply settled_after; [apply tally_list_drives|intros devices].
  apply settled_lift. intros dev_info Hinfo.
  apply find_device_gives in Hinfo.
  apply settled_after; [apply tally_get_hdparm_info|intros hdparm_before].
  apply settled_after.
  { destruct (sample_bytes >? 0)%Z;
      [apply tally_sample_hash|apply tally_ret]. }
  intros pre_hash.
  apply settled_after; [apply tally_utc_now_iso|intros started_at].
  apply settled_after.
  { destruct (str_eqb method (py "ata-secure-erase")).
    - destruct dry_run; [apply tally_ret|].
      apply tally_ata_secure_erase.
    - apply tally_then; [apply tally_print|intros _; apply tally_exit]. }
  intros method_result.
  apply settled_after; [apply tally_utc_now_iso|intros ended_at].
  apply settled_after; [apply tally_get_hdparm_info|intros hdparm_after].
  apply settled_after.
  { destruct (sample_bytes >? 0)%Z;
      [apply tally_sample_hash|apply tally_ret]. }
  intros post_hash.
  apply settled_write_then_summary. exact Hinfo.
Qed.

(** X29: [do_wipe] returns only when its record has reached the log
    file, and after that only the console can make it fail.  A call that
    returns has made one append that did not raise; a call that exits has
    written nothing; a call that raises has written nothing, or it has
    written its record and raises what the console raised on refusing a
    line of the summary.  No call writes more than one record. *)
Theorem do_wipe_returns_only_when_logged (device method : pystr)
    (operator session_id : option pystr) (sample_bytes : Z)
    (assume_yes dry_run : bool) (t : trace) :
  exists new,
    fst (do_wipe lower_nonascii sha256_hex lsblk_devices E device method
           operator session_id sample_bytes assume_yes dry_run t)
    = t ++ new
    /\ match snd (do_wipe lower_nonascii sha256_hex lsblk_devices E device
                   method operator session_id sample_bytes assume_yes
                   dry_run t) with
       | Ret _ => exists record, written new = [record]
       | Raise e =>
           written new = []
           \/ ((exists record, written new = [record])
               /\ exists before to text,
                    new = before ++ [EvPrint to text (Some e)])
       | Exit _ => written new = []
       end.
Proof.
  destruct (@settled_do_wipe device method operator session_id sample_bytes
              assume_yes dry_run t) as (new & Hnew & Hout).
  exists new. split; [exact Hnew|].
  destruct (snd _) as [u|e|c]; exact Hout.
Qed.

End ReturnFacts.

(* ===================================================================== *)
(** * Sessions: when [do_wipe] returns, and what its record says *)
(* ===================================================================== *)

Section SessionFacts.
Import WipeDrive WipeView WipeLogic WipeCount TallyLogic.
Variable lower_nonascii : pystr -> nat -> pystr.
Variable sha256_hex : list Byte.byte -> pystr.
Variable lsblk_devices : pystr -> outcome (list dict).
Variable E : env.

Local Abbreviation M := (Eff.M trace).
Local Abbreviation do_wipe :=
  (do_wipe lower_nonascii sha256_hex lsblk_devices E).

Lemma gives_ret {A} (Q : A -> Prop) (a : A) : Q a -> gives Q (ret a).
Proof. intros H t. exists a. now split. Qed.

Lemma gives_bind {A B} (Q : A -> Prop) (R : B -> Prop) (m : M A)
    (k : A -> M B) :
  gives Q m -> (forall a, Q a -> gives R (k a)) -> gives R (bind m k).
Proof.
  intros Hm Hk t. unfold bind. destruct (Hm t) as (a & Ha & HQ).
  destruct (m t) as [t1 o]. cbn [snd] in Ha. subst o. apply (Hk a HQ).
Qed.

Lemma gives_ask {R A} (Q : A -> Prop) (oracle : trace -> R)
    (ev : R -> event) (k : R -> outcome A) :
  (forall t, exists a, k (oracle t) = Ret a /\ Q a) ->
  gives Q (ask oracle ev k).
Proof. intros H t. exact (H t). Qed.

Lemma gives_lift {A} (Q : A -> Prop) (o : outcome A) (a : A) :
  o = Ret a -> Q a -> gives Q (lift o).
Proof. intros -> H t. exists a. now split. Qed.

Lemma gives_utc_now_iso : gives any (utc_now_iso E).
Proof. apply gives_ask. intros t. eexists. now split. Qed.

(** The read loop raises what a read raised, and does nothing else but
    return. *)
Lemma read_loop_never_exits fuel : forall device remaining acc t c,
  snd (read_loop E fuel device remaining acc t) <> Exit c.
Proof.
  induction fuel as [|fuel IH]; intros device remaining acc t c;
    cbn [read_loop]; destruct (remaining <=? 0)%Z; try discriminate.
  unfold bind, f_read, ask. cbn [fst snd].
  destruct (dev_read E t device (Z.min (1024 * 1024) remaining))
    as [chunk|e]; [|discriminate].
  destruct (firstn _ chunk); [discriminate|apply IH].
Qed.

Section Accepting.
Hypothesis console_takes : forall t to text, console E t to text = None.

Lemma gives_print to text : gives any (print E to text).
Proof.
  apply gives_ask. intros t. rewrite console_takes. exists tt. now split.
Qed.

(** A device that cannot be opened or read is no obstacle: the sampler
    contains the failure. *)
Lemma gives_sample_hash device n :
  gives any (sample_hash sha256_hex E device n).
Proof.
  intros t. unfold sample_hash, emit. unfold bind at 1. cbn [fst snd].
  destruct (n <=? 0)%Z; [exists VNone; now split|].
  unfold try_except, open_rb. unfold bind at 1. unfold ask at 1.
  cbn [fst snd].
  destruct (dev_open E (t ++ [EvSampleHash device n]) device) as [e|];
    cbn [unless_raised].
  - unfold bind, print, ask. cbn [fst snd]. rewrite console_takes.
    cbn. eexists. now split.
  - unfold bind at 1.
    match goal with
    | |- context [read_loop E ?f ?d ?r ?a ?t0] =>
        pose proof (@read_loop_never_exits f d r a t0) as Hexit;
        destruct (read_loop E f d r a t0) as [t1 [fed|e|c]]
    end; cbn [fst snd] in *.
    + eexists. now split.
    + unfold bind, print, ask. cbn [fst snd]. rewrite console_takes.
      cbn. eexists. now split.
    + now elim (Hexit c).
Qed.

Lemma gives_print_summary device method operator session_id dry_run
    dev_info started_at ended_at pre_hash post_hash method_result record :
  (dev_info = VNone \/ exists d, dev_info = VDict d) ->
  (exists v, dict_get (py "result") record = Some v) ->
  gives any (print_summary E device method operator session_id dry_run
               dev_info started_at ended_at pre_hash post_hash
               method_result record).
Proof.
  intros Hinfo [v Hv]. unfold print_summary. rewrite Hv.
  destruct Hinfo as [->|[d ->]]; unfold val_get, lift;
    repeat first
      [ apply (gives_ret any), I
      | apply gives_print
      | apply (@gives_bind _ _ any any); [|intros ? _]
      | match goal with
        | |- gives _ (if ?c then _ else _) => destruct c
        | |- gives _ (fun w => (w, Ret ?a)) => apply (gives_ret any a), I
        end ].
Qed.

End Accepting.

Section Obliging.
Variable device : pystr.
Hypothesis obliges : obliging lsblk_devices E device.

Lemma gives_run_cmd cmd : gives any (run_cmd E cmd).
Proof.
  intros t. unfold run_cmd, try_except, subprocess_run, ask.
  cbn [fst snd].
  destruct obliges as (_ & _ & Hrun & _).
  destruct (Hrun t cmd) as [cp ->]. cbn. eexists. now split.
Qed.

Lemma gives_list_drives :
  gives (fun devices => exists v, find_device device devices = Ret v)
    (list_drives lsblk_devices E).
Proof.
  intros t. unfold list_drives, run_cmd, try_except, subprocess_run, ask.
  unfold bind. cbn [fst snd].
  destruct obliges as (_ & _ & _ & Hls & _).
  destruct (Hls t) as (cp & devices & v & -> & Hzero & Hdev & Hfind).
  cbn [or_raise]. rewrite Hzero. cbn [Z.eqb negb]. unfold lift.
  rewrite Hdev. cbn [snd]. eauto.
Qed.

Lemma gives_get_hdparm_info d :
  gives any (get_hdparm_info lower_nonascii E d).
Proof.
  unfold get_hdparm_info.
  apply (@gives_bind _ _ any any); [apply gives_run_cmd|].
  intros cp _.
  destruct (negb (returncode cp =? 0)%Z || negb (truthy (VStr (stdout cp))));
    [now apply gives_ret|].
  unfold HdparmParser.parse_hdparm_identity.
  destruct (@parse_lines_keeps_raw lower_nonascii
              (splitlines (stdout cp)) (HdparmParser.initial (stdout cp)))
    as (st & Hst & _).
  intros t. unfold bind, lift. rewrite Hst. cbn. eexists. now split.
Qed.

Lemma gives_ata_secure_erase password :
  gives any (ata_secure_erase E device password).
Proof.
  unfold ata_secure_erase.
  apply (@gives_bind _ _ any any); [apply gives_run_cmd|].
  intros cp1 _. destruct (negb _); [now apply gives_ret|].
  apply (@gives_bind _ _ any any); [apply gives_run_cmd|].
  intros cp2 _. destruct (negb _); now apply gives_ret.
Qed.

Lemma gives_write_log record :
  gives (fun r => exists now,
           r = dict_set (py "logged_at") (VStr now) record)
    (write_log E record).
Proof.
  intros t. unfold write_log, bind, mkdir_p, utc_now_iso, append_json, ask.
  destruct obliges as (_ & _ & _ & _ & Hmkdir & Happend & _).
  rewrite Hmkdir. cbn. rewrite Happend. cbn. eauto.
Qed.

(** In a world that obliges, a session with the one method there is
    returns: real or dry, attended or not, sampling or not. *)
Lemma do_wipe_returns method operator session_id sample_bytes assume_yes
    dry_run :
  str_eqb method (py "ata-secure-erase") = true ->
  gives any (do_wipe device method operator session_id sample_bytes
               assume_yes dry_run).
Proof.
  intros Hmethod. unfold WipeDrive.do_wipe.
  pose proof obliges as (Hexists & Hyes & _ & _ & _ & _ & Hconsole).
  apply (@gives_bind _ _ (fun present => present = true) any).
  { apply gives_ask. intros t. rewrite Hexists. eauto. }
  intros present ->. cbn [negb].
  apply (@gives_bind _ _ any any); [now apply gives_ret|]. intros _ _.
  apply (@gives_bind _ _ any any).
  { destruct (negb dry_run && negb assume_yes); [|now apply gives_ret].
    apply (@gives_bind _ _
             (fun line => str_eqb (strip line) (py "YES") = true) any).
    - apply gives_ask. intros t. destruct (Hyes t) as (line & -> & Hline).
      cbn. eauto.
    - intros line ->. now apply gives_ret. }
  intros _ _.
  apply (@gives_bind _ _
           (fun devices => exists v, find_device device devices = Ret v)
           any); [apply gives_list_drives|].
  intros devices [dev_info Hfind].
  apply (@gives_bind _ _ (fun v => v = dev_info) any);
    [now apply (@gives_lift _ _ _ dev_info)|].
  intros ? ->. apply find_device_gives in Hfind.
  apply (@gives_bind _ _ any any); [apply gives_get_hdparm_info|].
  intros hdparm_before _.
  apply (@gives_bind _ _ any any).
  { destruct (sample_bytes >? 0)%Z;
      [now apply gives_sample_hash|now apply gives_ret]. }
  intros pre_hash _.
  apply (@gives_bind _ _ any any); [apply gives_utc_now_iso|].
  intros started_at _.
  apply (@gives_bind _ _ any any).
  { rewrite Hmethod.
    destruct dry_run; [now apply gives_ret|apply gives_ata_secure_erase]. }
  intros method_result _.
  apply (@gives_bind _ _ any any); [apply gives_utc_now_iso|].
  intros ended_at _.
  apply (@gives_bind _ _ any any); [apply gives_get_hdparm_info|].
  intros hdparm_after _.
  apply (@gives_bind _ _ any any).
  { destruct (sample_bytes >? 0)%Z;
      [now apply gives_sample_hash|now apply gives_ret]. }
  intros post_hash _.
  eapply gives_bind; [apply gives_write_log|].
  intros record [now ->].
  apply gives_print_summary; [exact Hconsole|exact Hfind|].
  eexists. reflexivity.
Qed.

End Obliging.

Lemma one_written_one_appended t r :
  written t = [r] -> (List.length (appended t) <= 1)%nat ->
  appended t = [r].
Proof.
  induction t as [|e t IH]; cbn [written appended]; [discriminate|].
  destruct e; auto.
  pose proof (written_at_most_appended t) as Hle.
  destruct res as [x|]; cbn [List.length]; intros Hw Hlen.
  - rewrite Hw in Hle. cbn [List.length] in Hle. lia.
  - injection Hw as -> Hw.
    destruct (appended t); [reflexivity|cbn [List.length] in Hlen; lia].
Qed.

(** A call of [do_wipe] that returns has handed one record to the log,
    and that record reached the file. *)
Lemma returning_run_record device method operator session_id sample_bytes
    assume_yes dry_run t new :
  fst (do_wipe device method operator session_id sample_bytes assume_yes
         dry_run t) = t ++ new ->
  match snd (do_wipe device method operator session_id sample_bytes
               assume_yes dry_run t) with
  | Ret _ => exists record,
               appended new = [record] /\ written new = [record]
  | _ => True
  end.
Proof.
  intros Hnew.
  destruct (@tally_do_wipe lower_nonascii sha256_hex lsblk_devices E
              (fun _ => 0%nat) (fun _ _ => 0%nat) 0%nat 1%nat
              device method operator session_id sample_bytes assume_yes
              dry_run t) as (n1 & H1 & Hhi & _).
  destruct (@settled_do_wipe lower_nonascii sha256_hex lsblk_devices E
              device method operator session_id sample_bytes assume_yes
              dry_run t) as (n2 & H2 & Hout).
  rewrite Hnew in H1, H2.
  apply app_inv_head in H1. apply app_inv_head in H2. subst n1 n2.
  rewrite total_appends in Hhi.
  destruct (snd _) as [u|e|c]; [|exact I|exact I].
  destruct Hout as [record Hw]. exists record.
  split; [|exact Hw]. apply one_written_one_appended; [exact Hw|].
  revert Hhi.
  destruct dry_run, assume_yes, (sample_bytes >? 0)%Z,
    (str_eqb method (py "ata-secure-erase")); cbn; lia.
Qed.

(** C4: every record that [do_wipe] hands to the log has an erase
    outcome with a boolean success flag, and its result field is "PASS"
    if and only if that flag is true; otherwise it is "FAIL".  A call that
    returns has handed over exactly one record, which reached the log
    file and is such a record; and in a world that obliges, a call with
    the method "ata-secure-erase" does return. *)
Theorem result_is_pass_iff_success (device method : pystr)
    (operator session_id : option pystr) (sample_bytes : Z)
    (assume_yes dry_run : bool) (t : trace) :
  let run := do_wipe device method operator session_id sample_bytes
               assume_yes dry_run t in
  let completed (record : dict) :=
    exists method_result b,
      dict_get (py "method_result") record = Some (VDict method_result)
      /\ dict_get (py "success") method_result = Some (VBool b)
      /\ dict_get (py "result") record
         = Some (VStr (if b then py "PASS" else py "FAIL"))
      /\ (dict_get (py "result") record = Some (VStr (py "PASS"))
          <-> b = true) in
  exists new,
    fst run = t ++ new
    /\ Forall completed (appended new)
    /\ match snd run with
       | Ret _ => exists record,
                    appended new = [record] /\ written new = [record]
                    /\ completed record
       | _ => True
       end
    /\ (obliging lsblk_devices E device ->
        str_eqb method (py "ata-secure-erase") = true ->
        snd run = Ret tt).
Proof.
  intros run completed. subst run.
  destruct (@sat_do_wipe lower_nonascii sha256_hex lsblk_devices E
              (fun _ => True) True completed
              device method operator session_id sample_bytes assume_yes
              dry_run) with (t := t) as (new & Hnew & Hall & _); auto.
  - intros started_at ended_at now pre_hash post_hash dev_info
      hdparm_before hdparm_after method_result _ Hmr.
    assert (exists b, dict_get (py "success") method_result
                      = Some (VBool b)) as [b Hb].
    { destruct dry_run; [subst; now exists true|exact Hmr]. }
    exists method_result, b.
    split; [reflexivity|]. split; [exact Hb|].
    change (dict_get (py "result") _)
      with (Some (VStr (if reports_success method_result
                        then py "PASS" else py "FAIL"))).
    unfold reports_success. rewrite Hb. cbn [opt_val truthy].
    split; [reflexivity|].
    destruct b; split; try reflexivity; discriminate.
  - apply event_ok_appended in Hall.
    exists new. split; [exact Hnew|]. split; [exact Hall|].
    split.
    + pose proof (@returning_run_record _ _ _ _ _ _ _ _ _ Hnew) as Hret.
      destruct (snd _) as [u|e|c]; [|exact I|exact I].
      destruct Hret as (record & Ha & Hw). exists record.
      split; [exact Ha|]. split; [exact Hw|].
      rewrite Ha in Hall. exact (Forall_inv Hall).
    + intros Hob Hmethod.
      destruct (@do_wipe_returns device Hob method operator session_id
                  sample_bytes assume_yes dry_run Hmethod t)
        as ([] & Hret & _).
      exact Hret.
Qed.

(** C9: when [sample_bytes] is negative, [sample_hash] is never entered,
    and every record handed to the log has pre_sample_hash and
    post_sample_hash equal to None and pre_sample_bytes equal to 0.  A
    call that returns has handed over exactly one record, which reached
    the log file and is such a record; and in a world that obliges, a call
    with the method "ata-secure-erase" does return. *)
Theorem negative_sample_bytes_never_samples (device method : pystr)
    (operator session_id : option pystr) (sample_bytes : Z)
    (assume_yes dry_run : bool) (t : trace) :
  (sample_bytes < 0)%Z ->
  let run := do_wipe device method operator session_id sample_bytes
               assume_yes dry_run t in
  let unsampled (record : dict) :=
    dict_get (py "pre_sample_hash") record = Some VNone
    /\ dict_get (py "post_sample_hash") record = Some VNone
    /\ dict_get (py "pre_sample_bytes") record = Some (VInt 0) in
  exists new,
    fst run = t ++ new
    /\ sampler_calls new = []
    /\ Forall unsampled (appended new)
    /\ match snd run with
       | Ret _ => exists record,
                    appended new = [record] /\ written new = [record]
                    /\ unsampled record
       | _ => True
       end
    /\ (obliging lsblk_devices E device ->
        str_eqb method (py "ata-secure-erase") = true ->
        snd run = Ret tt).
Proof.
  intros Hneg run unsampled. subst run.
  assert ((sample_bytes >? 0)%Z = false) as Hoff
      by (rewrite Z.gtb_ltb; apply Z.ltb_ge; lia).
  destruct (@sat_do_wipe lower_nonascii sha256_hex lsblk_devices E
              (fun _ => True) False unsampled
              device method operator session_id sample_bytes assume_yes
              dry_run) with (t := t) as (new & Hnew & Hall & _); auto.
  - congruence.
  - intros started_at ended_at now pre_hash post_hash dev_info
      hdparm_before hdparm_after method_result Hnone _.
    destruct (Hnone Hoff) as [-> ->].
    unfold unsampled, session_record. rewrite Hoff.
    repeat split; reflexivity.
  - pose proof (event_ok_sampler Hall) as Hquiet.
    apply event_ok_appended in Hall.
    exists new. split; [exact Hnew|]. split; [exact Hquiet|].
    split; [exact Hall|].
    split.
    + pose proof (@returning_run_record _ _ _ _ _ _ _ _ _ Hnew) as Hret.
      destruct (snd _) as [u|e|c]; [|exact I|exact I].
      destruct Hret as (record & Ha & Hw). exists record.
      split; [exact Ha|]. split; [exact Hw|].
      rewrite Ha in Hall. exact (Forall_inv Hall).
    + intros Hob Hmethod.
      destruct (@do_wipe_returns device Hob method operator session_id
                  sample_bytes assume_yes dry_run Hmethod t)
        as ([] & Hret & _).
      exact Hret.
Qed.

(** C7 (amended): in a dry run [do_wipe] runs only the lsblk inventory
    command and the hdparm identity query, never a security-set-pass or
    security-erase command; the outcome in every record handed to the log
    has exactly two step entries, both marked simulated, success true and
    the dry_run marker, and the record's result is "PASS".  A dry run that
    returns has handed over exactly one record, which reached the log
    file, holds that outcome and says "PASS"; and in a world that obliges,
    a dry run with the method "ata-secure-erase" does return.  The outcome
    has the keys of a successful real outcome plus dry_run, and its steps
    carry the same step names, but a dry-run step entry holds only "step"
    and "simulated", whereas a real one holds "step", "cmd", "returncode"
    and "stderr". *)
Theorem dry_run_outcome (device method : pystr)
    (operator session_id : option pystr) (sample_bytes : Z)
    (assume_yes : bool) (t : trace) :
  let outcome := dry_run_result device method in
  let run := do_wipe device method operator session_id sample_bytes
               assume_yes true t in
  let simulated (record : dict) :=
    dict_get (py "method_result") record = Some (VDict outcome)
    /\ dict_get (py "result") record = Some (VStr (py "PASS")) in
  exists new,
    fst run = t ++ new
    /\ Forall
         (fun cr =>
            (fst cr = lsblk_cmd \/ fst cr = hdparm_identify_cmd device)
            /\ forall password d,
                 fst cr <> set_pass_cmd password d
                 /\ fst cr <> erase_cmd password d)
         (runs_of new)
    /\ Forall simulated (appended new)
    /\ match snd run with
       | Ret _ => exists record,
                    appended new = [record] /\ written new = [record]
                    /\ simulated record
       | _ => True
       end
    /\ (obliging lsblk_devices E device ->
        str_eqb method (py "ata-secure-erase") = true ->
        snd run = Ret tt)
    /\ steps_of outcome
       = [VDict [(py "step", VStr (py "security-set-pass"));
                 (py "simulated", VBool true)];
          VDict [(py "step", VStr (py "security-erase"));
                 (py "simulated", VBool true)]]
    /\ dict_get (py "success") outcome = Some (VBool true)
    /\ dict_get (py "dry_run") outcome = Some (VBool true)
    /\ dict_keys outcome
       = [py "device"; py "method"; py "dry_run"; py "steps"; py "success"]
    /\ forall E' password t' real,
         snd (ata_secure_erase E' device password t') = Ret real ->
         dict_get (py "success") real = Some (VBool true) ->
         plain_keys real = plain_keys outcome
         /\ map (entry_get (py "step")) (steps_of real)
            = map (entry_get (py "step")) (steps_of outcome)
         /\ map (entry_keys dict_keys) (steps_of real)
            = [real_step_keys; real_step_keys].
Proof.
  intros outcome run simulated. subst run.
  destruct (@sat_do_wipe lower_nonascii sha256_hex lsblk_devices E
              (fun cmd => cmd = lsblk_cmd
                          \/ cmd = hdparm_identify_cmd device)
              True simulated
              device method operator session_id sample_bytes assume_yes
              true) with (t := t) as (new & Hnew & Hall & _); auto.
  - discriminate.
  - intros started_at ended_at now pre_hash post_hash dev_info
      hdparm_before hdparm_after method_result _ ->.
    split; reflexivity.
  - exists new. split; [exact Hnew|].
    split.
    { eapply Forall_impl; [|exact (event_ok_runs Hall)].
      intros cr Hcr. split; [exact Hcr|].
      now apply (@harmless_not_destructive device). }
    apply event_ok_appended in Hall.
    split; [exact Hall|].
    split.
    { pose proof (@returning_run_record _ _ _ _ _ _ _ _ _ Hnew) as Hret.
      destruct (snd _) as [u|e|c]; [|exact I|exact I].
      destruct Hret as (record & Ha & Hw). exists record.
      split; [exact Ha|]. split; [exact Hw|].
      rewrite Ha in Hall. exact (Forall_inv Hall). }
    split.
    { intros Hob Hmethod.
      destruct (@do_wipe_returns device Hob method operator session_id
                  sample_bytes assume_yes true Hmethod t)
        as ([] & Hret & _).
      exact Hret. }
    repeat (split; [reflexivity|]).
    intros E' password t' real Hrun Hsuccess.
    destruct (ata_secure_erase_keys _ _ _ _ Hrun)
      as (n & b & Hb & Hn & _ & Hkeys & Hsteps & Hnames).
    assert (b = true) as -> by congruence.
    rewrite (Hn eq_refl) in *.
    split; [unfold plain_keys; rewrite Hkeys; reflexivity|].
    split; [rewrite Hnames; reflexivity|exact Hsteps].
Qed.

End SessionFacts.

(** The sample worlds oblige: every command runs to its end, the
    inventory is empty, and log and console take what they are given. *)
Lemma world_returning_obliges out :
  WipeCount.obliging Samples.no_devices (Samples.world_returning 0 out)
    Samples.sdx.
Proof.
  unfold WipeCount.obliging.
  split; [reflexivity|].
  split; [intros t; exists (py "YES"); split; reflexivity|].
  split; [intros t cmd; eexists; reflexivity|].
  split; [intros t; exists (WipeDrive.Build_CompletedProcess 0 out []),
            [], VNone; repeat split|].
  split; [reflexivity|]. split; reflexivity.
Qed.

Lemma world_refusing_password_obliges :
  WipeCount.obliging Samples.no_devices Samples.world_refusing_password
    Samples.sdx.
Proof.
  unfold WipeCount.obliging.
  split; [reflexivity|].
  split; [intros t; exists (py "YES"); split; reflexivity|].
  split; [intros t cmd; eexists; reflexivity|].
  split; [intros t;
          exists (WipeDrive.Build_CompletedProcess 0 []
                    (py "Input/output error")), [], VNone;
          repeat split|].
  split; [reflexivity|]. split; reflexivity.
Qed.

(** C4, witness: a real, unattended session in which the drive refuses
    the password.  The world obliges, so the call returns; it has handed
    one record to the log, and that record pairs its result with the
    success flag. *)
Lemma result_is_pass_iff_success_witness :
  let run :=
    WipeDrive.do_wipe Samples.caseless Samples.digest Samples.no_devices
      Samples.world_refusing_password Samples.sdx Samples.ata None None
      0 true false [] in
  WipeCount.obliging Samples.no_devices Samples.world_refusing_password
    Samples.sdx
  /\ str_eqb Samples.ata (py "ata-secure-erase") = true
  /\ snd run = Ret tt
  /\ exists new record,
       fst run = [] ++ new
       /\ WipeView.appended new = [record]
       /\ WipeCount.written new = [record]
       /\ exists method_result b,
            dict_get (py "method_result") record
            = Some (VDict method_result)
            /\ dict_get (py "success") method_result = Some (VBool b)
            /\ dict_get (py "result") record
               = Some (VStr (if b then py "PASS" else py "FAIL"))
            /\ (dict_get (py "result") record = Some (VStr (py "PASS"))
                <-> b = true).
Proof.
  intros run.
  split; [exact world_refusing_password_obliges|].
  split; [reflexivity|].
  destruct (@result_is_pass_iff_success Samples.caseless Samples.digest
              Samples.no_devices Samples.world_refusing_password
              Samples.sdx Samples.ata None None 0%Z true false [])
    as (new & Hnew & _ & Hret & Hlive).
  pose proof (Hlive world_refusing_password_obliges eq_refl) as Hrun.
  split; [exact Hrun|].
  rewrite Hrun in Hret. destruct Hret as (record & Ha & Hw & Hrec).
  exists new, record. auto.
Defined.

(** C9, witness: a run with [sample_bytes = -1] in a world where every
    command succeeds.  The call returns, and its one record has no
    hashes and a sample size of 0. *)
Lemma negative_sample_bytes_witness :
  let run :=
    WipeDrive.do_wipe Samples.caseless Samples.digest Samples.no_devices
      (Samples.world_returning 0 []) Samples.sdx Samples.ata None None
      (-1) true false [] in
  (-1 < 0)%Z
  /\ WipeCount.obliging Samples.no_devices (Samples.world_returning 0 [])
       Samples.sdx
  /\ str_eqb Samples.ata (py "ata-secure-erase") = true
  /\ snd run = Ret tt
  /\ exists new record,
       fst run = [] ++ new
       /\ WipeView.sampler_calls new = []
       /\ WipeView.appended new = [record]
       /\ WipeCount.written new = [record]
       /\ dict_get (py "pre_sample_hash") record = Some VNone
       /\ dict_get (py "post_sample_hash") record = Some VNone
       /\ dict_get (py "pre_sample_bytes") record = Some (VInt 0).
Proof.
  intros run.
  split; [lia|]. split; [exact (world_returning_obliges [])|].
  split; [reflexivity|].
  assert (-1 < 0)%Z as Hneg by lia.
  destruct (@negative_sample_bytes_never_samples Samples.caseless
              Samples.digest Samples.no_devices
              (Samples.world_returning 0 []) Samples.sdx Samples.ata None
              None (-1)%Z true false [] Hneg)
    as (new & Hnew & Hquiet & _ & Hret & Hlive).
  pose proof (Hlive (world_returning_obliges []) eq_refl) as Hrun.
  split; [exact Hrun|].
  rewrite Hrun in Hret. destruct Hret as (record & Ha & Hw & Hrec).
  exists new, record. auto.
Defined.

(** C7, witness: the scenario of the specification, a dry run on
    "/dev/sdx" with 1048576 sample bytes, in a world where every command
    returns zero.  The call returns, and its one record holds the dry-run
    outcome and says PASS.  Against it, the outcome of a real erase of
    "/dev/sdx" in the same world. *)
Lemma dry_run_outcome_witness :
  let outcome := WipeDrive.dry_run_result Samples.sdx Samples.ata in
  let run :=
    WipeDrive.do_wipe Samples.caseless Samples.digest Samples.no_devices
      (Samples.world_returning 0 []) Samples.sdx Samples.ata None None
      1048576 false true [] in
  WipeCount.obliging Samples.no_devices (Samples.world_returning 0 [])
    Samples.sdx
  /\ str_eqb Samples.ata (py "ata-secure-erase") = true
  /\ snd run = Ret tt
  /\ (exists new record,
        fst run = [] ++ new
        /\ WipeView.appended new = [record]
        /\ WipeCount.written new = [record]
        /\ dict_get (py "method_result") record = Some (VDict outcome)
        /\ dict_get (py "result") record = Some (VStr (py "PASS")))
  /\ exists real,
       snd (WipeDrive.ata_secure_erase (Samples.world_returning 0 [])
              Samples.sdx (py "p") []) = Ret real
       /\ dict_get (py "success") real = Some (VBool true)
       /\ WipeView.plain_keys real = WipeView.plain_keys outcome
       /\ map (WipeView.entry_keys dict_keys) (WipeView.steps_of real)
          = [WipeView.real_step_keys; WipeView.real_step_keys]
       /\ map (WipeView.entry_keys dict_keys) (WipeView.steps_of outcome)
          = [[py "step"; py "simulated"]; [py "step"; py "simulated"]].
Proof.
  intros outcome run.
  split; [exact (world_returning_obliges [])|].
  split; [reflexivity|].
  destruct (@dry_run_outcome Samples.caseless Samples.digest
              Samples.no_devices (Samples.world_returning 0 [])
              Samples.sdx Samples.ata None None 1048576%Z false [])
    as (new & Hnew & _ & _ & Hret & Hlive & _ & _ & _ & _ & Hreal).
  pose proof (Hlive (world_returning_obliges []) eq_refl) as Hrun.
  split; [exact Hrun|].
  split.
  { rewrite Hrun in Hret. destruct Hret as (record & Ha & Hw & Hrec).
    exists new, record. auto. }
  eexists. split; [reflexivity|]. split; [reflexivity|].
  destruct (Hreal (Samples.world_returning 0 []) (py "p") [] _
              eq_refl eq_refl) as (Hkeys & _ & Hsteps).
  split; [exact Hkeys|]. split; [exact Hsteps|reflexivity].
Defined.

(* ===================================================================== *)
(** * The log writer, the device lookup, the identity query and the
      journal of the erase driver *)
(* ===================================================================== *)

Section DriverFacts.
Import WipeDrive WipeView WipeCount.
Variable lower_nonascii : pystr -> nat -> pystr.
Variable E : env.

(** X17: [write_log] stamps the record and writes it once.  When the
    directory can be made, what it hands to the file is the record it was
    given with "logged_at" set to the clock reading taken just before the
    write and every other field untouched; the file is
    /var/wipelog/wipes-<stamp>.jsonl, where the stamp is a full clock
    reading of its own, taken first; and it returns unless the append
    raises.  When the directory cannot be made, it raises and nothing is
    written.  It runs no command. *)
Theorem write_log_stamps_and_writes_once (record : dict) (t : trace) :
  exists new,
    fst (write_log E record t) = t ++ new
    /\ runs_of new = []
    /\ match fs_mkdir E t LOG_DIR with
       | Some e =>
           snd (write_log E record t) = Raise e /\ appended new = []
       | None =>
           exists stamp now r written,
             new = [EvMkdir LOG_DIR None; EvClock stamp; EvClock now;
                    EvAppend (py "/var/wipelog/wipes-" ++ stamp
                              ++ py ".jsonl") written r]
             /\ stamp = clock E (t ++ [EvMkdir LOG_DIR None])
             /\ now = clock E (t ++ [EvMkdir LOG_DIR None; EvClock stamp])
             /\ (forall k,
                   dict_get k written
                   = if str_eqb k (py "logged_at") then Some (VStr now)
                     else dict_get k record)
             /\ snd (write_log E record t)
                = match r with None => Ret written | Some e => Raise e end
       end.
Proof.
  unfold write_log, bind, mkdir_p, utc_now_iso, append_json, ask.
  destruct (fs_mkdir E t LOG_DIR) as [e|] eqn:Hdir; cbn.
  - exists [EvMkdir LOG_DIR (Some e)].
    split; [reflexivity|]. split; [reflexivity|]. split; reflexivity.
  - match goal with
    | |- context [fs_append E ?t0 ?p ?d] =>
        destruct (fs_append E t0 p d) as [e|] eqn:Hwrite
    end; cbn; rewrite <- !app_assoc;
      (eexists [_; _; _; _];
       split; [reflexivity|]; split; [reflexivity|];
       do 4 eexists; split; [reflexivity|];
       split; [reflexivity|]; split; [reflexivity|];
       split; [|reflexivity];
       intros k;
       match goal with
       | |- context [if ?c then _ else _] => destruct c eqn:Hk
       end;
       [apply str_eqb_true_iff in Hk; subst k; apply dict_get_set_same
       |apply dict_get_set_other; exact Hk]).
Qed.

(** X18: the device lookup takes the first inventory entry whose "path"
    is the device, and looks no further: entries behind it may lack a
    "path" without harm.  Among entries that all have another path it
    finds none and returns None. *)
Theorem find_device_first_match (device : pystr) (before : list dict) :
  Forall (fun d => exists v, dict_get (py "path") d = Some v
                             /\ v <> VStr device) before ->
  find_device device before = Ret VNone
  /\ forall d behind,
       dict_get (py "path") d = Some (VStr device) ->
       find_device device (before ++ d :: behind) = Ret (VDict d).
Proof.
  induction 1 as [|d0 before (v & Hv & Hne) _ [IHnone IHhit]];
    cbn [find_device app].
  - split; [reflexivity|]. intros d behind ->.
    now rewrite str_eqb_refl.
  - rewrite Hv.
    assert (forall rest,
              match v with
              | VStr p => if str_eqb p device then Ret (VDict d0)
                          else find_device device rest
              | _ => find_device device rest
              end = find_device device rest) as Hskip.
    { intros rest. destruct v as [| | |p| |]; auto.
      destruct (str_eqb p device) eqn:Hp; auto.
      apply str_eqb_true_iff in Hp. congruence. }
    split.
    + rewrite Hskip. exact IHnone.
    + intros d behind Hd. rewrite Hskip. now apply IHhit.
Qed.

(** X19: an entry without a "path" stops the lookup with a KeyError when
    no entry before it matches, even if the device is listed behind it. *)
Theorem find_device_missing_path_raises (device : pystr)
    (before : list dict) (d : dict) (behind : list dict) :
  Forall (fun d => exists v, dict_get (py "path") d = Some v
                             /\ v <> VStr device) before ->
  dict_get (py "path") d = None ->
  find_device device (before ++ d :: behind) = Raise KeyError.
Proof.
  induction 1 as [|d0 before (v & Hv & Hne) _ IH]; cbn [find_device app];
    intros Hd.
  - now rewrite Hd.
  - rewrite Hv. specialize (IH Hd).
    destruct v as [| | |p| |]; auto.
    destruct (str_eqb p device) eqn:Hp; auto.
    apply str_eqb_true_iff in Hp. congruence.
Qed.

(** X20: [get_hdparm_info] runs the identity query and nothing else.
    When [subprocess.run] returns a completed process, it returns: None
    when hdparm returned a non-zero status or printed nothing, and
    otherwise a dict that the parser made without raising and that holds
    the printed text under "raw".  When [subprocess.run] raises
    FileNotFoundError, it prints an error and exits with status 1, or
    raises what the console raised on refusing the message.  Any other
    exception of [subprocess.run], such as the decoding error of output
    that is not valid text, is passed on. *)
Theorem get_hdparm_info_outcomes (device : pystr) (t : trace) :
  let cmd := hdparm_identify_cmd device in
  let run := get_hdparm_info lower_nonascii E device t in
  match run_process E t cmd with
  | inl cp =>
      exists v,
        run = (t ++ [EvRun cmd (inl cp)], Ret v)
        /\ (if (returncode cp =? 0)%Z
            then match stdout cp with
                 | [] => v = VNone
                 | _ => exists d, v = VDict d
                                  /\ dict_get (py "raw") d
                                     = Some (VStr (stdout cp))
                 end
            else v = VNone)
  | inr FileNotFoundError =>
      exists text,
        let answer :=
          console E (t ++ [EvRun cmd (inr FileNotFoundError)]) Stderr text
        in
        run = (t ++ [EvRun cmd (inr FileNotFoundError);
                     EvPrint Stderr text answer],
               match answer with None => Exit 1 | Some e => Raise e end)
  | inr e => run = (t ++ [EvRun cmd (inr e)], Raise e)
  end.
Proof.
  intros cmd run. subst cmd run.
  unfold get_hdparm_info, run_cmd, subprocess_run, try_except, print, bind,
    ask.
  destruct (run_process E t (hdparm_identify_cmd device)) as [cp|e];
    cbn [or_raise fst snd].
  - destruct (returncode cp =? 0)%Z; cbn [negb orb].
    + destruct (stdout cp) as [|c out] eqn:Hout; cbn [truthy negb].
      * eexists. split; reflexivity.
      * unfold HdparmParser.parse_hdparm_identity, lift.
        destruct (@parse_lines_keeps_raw lower_nonascii
                    (splitlines (c :: out))
                    (HdparmParser.initial (c :: out)))
          as (st & -> & Hraw).
        cbn. eexists. split; [reflexivity|].
        exists (HdparmParser.data st). split; [reflexivity|].
        etransitivity; [exact Hraw|reflexivity].
    + eexists. split; reflexivity.
  - destruct e; try reflexivity.
    exists [Lit (py "[ERROR] Command not found: "); Fmt (VStr (py "hdparm"))].
    cbn -[py]. destruct (console E _ _ _); cbn -[py];
      now rewrite <- app_assoc.
Qed.

(** X21: the "steps" of what [ata_secure_erase] returns are a journal of
    the commands it ran: one entry per command, in order, with the
    command line joined by blanks (the password included, in clear), the
    exit status and the error output of that command. *)
Theorem ata_secure_erase_steps_journal (device password : pystr)
    (t : trace) (result : dict) :
  snd (ata_secure_erase E device password t) = Ret result ->
  exists new,
    fst (ata_secure_erase E device password t) = t ++ new
    /\ map step_journal (steps_of result) = map run_journal (runs_of new)
    /\ Forall (fun run => exists before,
                 join_space (fst run)
                 = before ++ py " " ++ password ++ py " " ++ device)
         (runs_of new).
Proof.
  unfold ata_secure_erase, run_cmd, subprocess_run, try_except, bind, ask.
  destruct (run_process E t (set_pass_cmd password device))
    as [cp1|e1] eqn:R1; cbn [or_raise fst snd].
  2: { destruct e1; cbn; try discriminate.
       unfold print, ask. cbn.
       destruct (console E _ _ _); cbn; discriminate. }
  destruct (returncode cp1 =? 0)%Z; cbn [negb].
  - destruct (run_process E (t ++ [EvRun (set_pass_cmd password device)
                                     (inl cp1)])
                (erase_cmd password device)) as [cp2|e2] eqn:R2;
      cbn [or_raise fst snd].
    2: { destruct e2; cbn; try discriminate.
         unfold print, ask. cbn.
         destruct (console E _ _ _); cbn; discriminate. }
    intros H.
    assert (Forall (fun run => exists before,
                      join_space (fst run)
                      = before ++ py " " ++ password ++ py " " ++ device)
              [(set_pass_cmd password device,
                inl cp1 : CompletedProcess + exn);
               (erase_cmd password device, inl cp2)]) as Hclear.
    { apply Forall_cons; [|apply Forall_cons; [|apply Forall_nil]];
        cbn [fst].
      - exists (py "hdparm --user-master u --security-set-pass").
        cbn. reflexivity.
      - exists (py "hdparm --user-master u --security-erase").
        cbn. reflexivity. }
    destruct (returncode cp2 =? 0)%Z; cbn [negb] in *; unfold ret in *;
      cbn [fst snd] in *; injection H as <-;
      (eexists [_; _]; rewrite <- !app_assoc;
       split; [reflexivity|]; split; [reflexivity|]; exact Hclear).
  - intros H. unfold ret in *. cbn [fst snd] in *. injection H as <-.
    eexists [_].
    split; [reflexivity|]. split; [reflexivity|].
    apply Forall_cons; [|apply Forall_nil]. cbn [fst].
    exists (py "hdparm --user-master u --security-set-pass").
    cbn. reflexivity.
Qed.

End DriverFacts.

(* ===================================================================== *)
(** * The audit sink over a run of calls *)
(* ===================================================================== *)

Section SinkMoreFacts.
Import LoggingManager SinkView SinkMore.
Variable E : env.

Lemma connects_app t1 t2 :
  connects (t1 ++ t2) = (connects t1 + connects t2)%nat.
Proof. unfold connects. now rewrite filter_app, length_app. Qed.

Lemma stored_records_app t1 t2 :
  stored_records (t1 ++ t2) = stored_records t1 ++ stored_records t2.
Proof.
  unfold stored_records, inserted. now rewrite flat_map_app, map_app.
Qed.

Lemma no_db_no_connects t : db_attempts t = [] -> connects t = 0%nat.
Proof.
  unfold connects, db_attempts.
  induction t as [|e t IH]; [reflexivity|].
  destruct e; cbn; try discriminate; auto.
Qed.

Lemma is_dict_or_empty v :
  is_dict (py_or v (VDict [])) = negb (truthy v) || is_dict v.
Proof.
  unfold py_or. destruct v as [|b|z|s|l|d]; cbn; auto.
  - now destruct b.
  - now destruct (z =? 0)%Z.
  - now destruct s.
  - now destruct l.
  - destruct d; reflexivity.
Qed.

(** The tuple is built exactly when the four sub-records are dicts. *)
Lemma insert_values_dicts d di mr hb ha :
  match insert_values (VDict d) di mr hb ha with
  | Ret row => is_dict di && is_dict mr && is_dict hb && is_dict ha = true
               /\ List.length row = 23%nat
               /\ last row VNone = VDict d
               /\ nth 21 row VNone = mr
  | Raise e => is_dict di && is_dict mr && is_dict hb && is_dict ha = false
               /\ e = AttributeError
  | Exit _ => False
  end.
Proof.
  unfold insert_values, get, get_or. cbn [obind].
  destruct mr; cbn [obind is_dict andb];
    try (split; [now rewrite ?andb_false_r|reflexivity]).
  destruct di; cbn [obind is_dict andb]; try (split; reflexivity).
  destruct hb; cbn [obind is_dict andb]; try (split; reflexivity).
  destruct ha; cbn [obind is_dict andb]; try (split; reflexivity).
  repeat split.
Qed.

(** What [row_of] gives, by the shape of the
    record. *)
Lemma row_of_cases event :
  match row_of event with
  | Ret row => well_formed event = true
               /\ List.length row = 23%nat
               /\ last row VNone = event
  | Raise e => well_formed event = false /\ e = AttributeError
  | Exit _ => False
  end.
Proof.
  destruct event as [| | | | |d]; try (split; reflexivity).
  unfold row_of, sub_record, get, get_or. cbn [obind].
  fold (opt_val (dict_get (py "device_info") d)).
  fold (opt_val (dict_get (py "method_result") d)).
  fold (opt_val (dict_get (py "hdparm_before") d)).
  fold (opt_val (dict_get (py "hdparm_after") d)).
  match goal with
  | |- context [insert_values _ ?di ?mr ?hb ?ha] =>
      pose proof (insert_values_dicts d di mr hb ha) as H;
      destruct (insert_values (VDict d) di mr hb ha) as [row|e|c]
  end; [| |contradiction].
  - destruct H as (Hd & Hlen & Hlast & _).
    split; [|auto]. rewrite !is_dict_or_empty in Hd.
    unfold well_formed, sub_keys. cbn [forallb]. rewrite andb_true_r.
    now rewrite !andb_assoc.
  - destruct H as (Hd & ->). split; [|reflexivity].
    rewrite !is_dict_or_empty in Hd.
    unfold well_formed, sub_keys. cbn [forallb]. rewrite andb_true_r.
    now rewrite !andb_assoc.
Qed.

(** What [after_connect] does, for a logger that holds a connection. *)
Lemma after_connect_detail event w :
  exists new,
    fst (after_connect E event w)
    = World (_use_db w) (enabled w) (_conn w) (log_path w)
        (history w ++ new)
    /\ Forall is_db_event new
    /\ connects new = 0%nat
    /\ match snd (after_connect E event w) with
       | Ret _ => exists row, inserted new = [row]
                             /\ row_of event = Ret row
       | Raise _ => inserted new = []
       | Exit _ => False
       end.
Proof.
  destruct w as [u en c p h]. cbn [_use_db enabled _conn log_path history].
  pose proof (row_of_cases event) as Hrow.
  unfold after_connect.
  destruct event as [| | | | |d];
    try solve [exists []; cbn; rewrite app_nil_r; auto].
  unfold row_of, sub_record, get, get_or in Hrow. cbn [obind] in Hrow.
  match type of Hrow with
  | match ?iv with _ => _ end =>
      change (row_of (VDict d)) with iv; remember iv as built eqn:Hbuilt
  end.
  unfold bind, lift, sub_record, get, get_or. cbn [obind fst snd].
  rewrite external_run. cbn [history _use_db enabled _conn log_path].
  destruct (db_cursor E h) as [e|].
  { exists [EvCursor (Some e)]. cbn. repeat split; auto.
    repeat constructor. }
  cbn [fst snd]. rewrite <- Hbuilt.
  destruct built as [row|e|code]; [| |contradiction].
  - rewrite external_run.
    cbn [history _use_db enabled _conn log_path fst snd].
    rewrite <- app_assoc.
    destruct (db_execute E (h ++ [EvCursor None]) row) as [e|].
    + eexists [_; _]. cbn. repeat split; auto. repeat constructor.
    + eexists [_; _]. cbn. repeat split; eauto; try repeat constructor.
      exists row. split; reflexivity.
  - cbn. exists [EvCursor None]. cbn. repeat split; auto.
    repeat constructor.
Qed.

(** [DatabaseLogger.log] of an enabled logger: the connection is made
    when there is none, and only then. *)
Lemma db_log_run event w :
  enabled w = true ->
  db_log E event w
  = match _conn w with
    | Some _ => after_connect E event w
    | None =>
        match db_connect E (history w) with
        | Some e =>
            (World (_use_db w) (enabled w) None (log_path w)
               (history w ++ [EvConnect (Some e)]), Raise e)
        | None =>
            after_connect E event
              (World (_use_db w) (enabled w) (Some (Connection true))
                 (log_path w) (history w ++ [EvConnect None]))
        end
    end.
Proof.
  intros Hen. destruct w as [u en c p h]. cbn in Hen. subst en.
  unfold db_log, _connect, after_connect, sub_record.
  unfold bind at 1. unfold read at 1. cbn [fst snd enabled negb].
  unfold bind at 1. unfold bind at 1. unfold read at 1.
  cbn [fst snd enabled negb].
  unfold bind at 1. unfold read at 1. cbn [fst snd _conn].
  destruct c as [c|]; [reflexivity|].
  unfold bind at 1. rewrite external_run.
  cbn [_conn _use_db enabled log_path history fst snd].
  destruct (db_connect E h) as [e|]; reflexivity.
Qed.

(** One database attempt of an enabled logger, in full. *)
Lemma db_log_detail event w :
  enabled w = true ->
  exists new conn',
    fst (db_log E event w)
    = World (_use_db w) true conn' (log_path w) (history w ++ new)
    /\ Forall is_db_event new
    /\ connects new = match _conn w with Some _ => 0 | None => 1 end%nat
    /\ match _conn w with
       | Some c => conn' = Some c
       | None => conn' <> None
                 \/ exists e, snd (db_log E event w) = Raise e
       end
    /\ match snd (db_log E event w) with
       | Ret _ => conn' <> None
                  /\ exists row, inserted new = [row]
                                 /\ row_of event = Ret row
       | Raise _ => inserted new = []
       | Exit _ => False
       end.
Proof.
  intros Hen. rewrite (@db_log_run event w Hen).
  destruct w as [u en [c|] p h]; cbn in Hen; subst en;
    cbn [_conn _use_db enabled log_path history].
  - destruct (after_connect_detail event (World u true (Some c) p h))
      as (new & Hw & Hdb & Hc & Hout).
    cbn [_conn _use_db enabled log_path history] in Hw.
    exists new, (Some c). split; [exact Hw|].
    split; [exact Hdb|]. split; [exact Hc|]. split; [reflexivity|].
    destruct (snd _) as [[]|e|code]; auto. split; [discriminate|exact Hout].
  - destruct (db_connect E h) as [e|].
    + exists [EvConnect (Some e)], None. cbn [fst snd].
      split; [reflexivity|]. split; [repeat constructor|].
      split; [reflexivity|]. split; [right; eauto|reflexivity].
    + destruct (after_connect_detail event
                  (World u true (Some (Connection true)) p
                     (h ++ [EvConnect None])))
        as (new & Hw & Hdb & Hc & Hout).
      cbn [_conn _use_db enabled log_path history] in Hw.
      exists (EvConnect None :: new), (Some (Connection true)).
      split; [rewrite Hw, <- app_assoc; reflexivity|].
      split; [constructor; [exact I|exact Hdb]|].
      split; [change (connects (EvConnect None :: new))
                with (S (connects new)); now rewrite Hc|].
      split; [left; discriminate|].
      destruct (snd _) as [[]|e|code]; auto.
      split; [discriminate|exact Hout].
Qed.

(** One call of [log_wipe_event], in full: the record is stored in the
    database; or the database is out of use afterwards and the record
    was handed to the file; or the database attempt failed and the call
    raised out of the handler, before the fallback. *)
Lemma call_detail event w :
  exists new w' o,
    log_wipe_event E event w = (w', o)
    /\ history w' = history w ++ new
    /\ enabled w' = enabled w /\ log_path w' = log_path w
    /\ (connects new <= match _conn w with Some _ => 0 | None => 1 end)%nat
    /\ (_conn w <> None -> _conn w' <> None)
    /\ ( (o = Ret tt
          /\ _use_db w' = true /\ enabled w = true /\ _use_db w = true
          /\ _conn w' <> None
          /\ (exists row, inserted new = [row] /\ row_of event = Ret row)
          /\ file_attempts new = [] /\ refused new = [])
         \/ (off w' /\ inserted new = []
             /\ (off w -> db_attempts new = []
                           /\ _use_db w' = _use_db w)
             /\ exists r,
                  file_attempts new = [(log_path w, event, r)]
                  /\ ((o = Ret tt /\ refused new = [])
                      \/ (exists e, o = Raise e /\ refused new = [e]
                                    /\ r <> None)))
         \/ (_use_db w = true /\ enabled w = true /\ off w'
             /\ inserted new = [] /\ file_attempts new = []
             /\ exists e, o = Raise e /\ refused new = [e]) ).
Proof.
  destruct (log_wipe_event_cases E event w)
    as (new & w' & o & Hrun & Hh & Hen' & Hpath & Hsplit & _ & Hcase).
  exists new, w', o. split; [exact Hrun|]. split; [exact Hh|].
  split; [exact Hen'|]. split; [exact Hpath|].
  destruct Hsplit as (n1 & rest & -> & Drest & Hfirst).
  assert (connects (n1 ++ rest)
          <= match _conn w with Some _ => 0 | None => 1 end
          /\ (_conn w <> None -> _conn w' <> None)
          /\ (snd (db_log E event w) = Ret tt ->
              _use_db w = true -> enabled w = true ->
              _conn w' <> None
              /\ exists row, inserted n1 = [row]
                             /\ row_of event = Ret row))%nat
    as (Hc & Hkeep & Hrow).
  { rewrite connects_app, (@no_db_no_connects rest Drest), Nat.add_0_r.
    destruct (_use_db w && enabled w) eqn:Hon.
    - apply andb_true_iff in Hon. destruct Hon as [Huse Hen].
      destruct Hfirst as [H1 Hconn].
      destruct (@db_log_detail event w Hen)
        as (n1' & conn' & Hw & Hdb & Hc & Hconn' & Hout).
      rewrite Hw in H1, Hconn. cbn [history _conn] in H1, Hconn.
      apply app_inv_head in H1. subst n1'.
      split; [rewrite Hc; reflexivity|].
      split.
      + intros Hsome. rewrite Hconn.
        destruct (_conn w); [rewrite Hconn'; discriminate|congruence].
      + intros Hret _ _. rewrite Hret in Hout. rewrite Hconn. exact Hout.
    - destruct Hfirst as [-> Hconn].
      split; [cbn; lia|]. split; [now rewrite Hconn|].
      intros _ Hu He. rewrite Hu, He in Hon. discriminate. }
  split; [exact Hc|]. split; [exact Hkeep|].
  destruct Hcase as [Hst|[Hfl|Hlost]].
  - left.
    destruct Hst as (Ho & Hu & He & Hu' & Hret & (row' & Hins) & Hf & _
                     & Hq).
    destruct (Hrow Hret Hu He) as (Hsome & row & Hrow1 & Hof).
    repeat split; auto.
    exists row. split; [|exact Hof].
    rewrite inserted_app, Hrow1 in Hins. cbn [app] in Hins.
    injection Hins as -> Hrest.
    rewrite inserted_app, Hrow1, Hrest. reflexivity.
  - right. left.
    destruct Hfl as (Hoff' & Hins & _ & Hsame & r & Hr & Hout).
    split; [exact Hoff'|]. split; [exact Hins|]. split; [exact Hsame|].
    exists r. split; [exact Hr|].
    destruct Hout as [(Ho & Hq & _)|(e & Ho & Hq & Hn)];
      [left; auto|right; eauto].
  - right. right.
    destruct Hlost as (Hu & He & Hu' & Hins & Hf & _ & e & Ho & Hq).
    repeat split; auto.
    + unfold off. rewrite Hu'. reflexivity.
    + eauto.
Qed.

(** The caller goes on with the next record from the state the call
    left, whether the call returned or raised. *)
Lemma log_wipe_events_step ev rest w :
  log_wipe_events E (ev :: rest) w
  = log_wipe_events E rest (fst (log_wipe_event E ev w)).
Proof.
  cbn [log_wipe_events]. unfold bind, try_except.
  destruct (log_wipe_event_cases E ev w)
    as (new & w' & o & Hrun & _ & _ & _ & _ & _ & Hcase).
  rewrite Hrun. cbn [fst].
  destruct Hcase as [Hst|[Hfl|Hlost]].
  - destruct Hst as (-> & _). reflexivity.
  - destruct Hfl as (_ & _ & _ & _ & r & _ & [[-> _]|(e & -> & _)]);
      reflexivity.
  - destruct Hlost as (_ & _ & _ & _ & _ & _ & e & -> & _). reflexivity.
Qed.

(** Once the database is out of use, every record is handed to the
    file. *)
Lemma off_run events : forall w,
  off w ->
  exists new w',
    log_wipe_events E events w = (w', Ret tt)
    /\ history w' = history w ++ new
    /\ inserted new = [] /\ db_attempts new = []
    /\ map fst (file_attempts new) = map (pair (log_path w)) events.
Proof.
  induction events as [|ev rest IH]; intros w Hoff.
  - exists [], w. cbn. rewrite app_nil_r. auto.
  - rewrite log_wipe_events_step.
    destruct (call_detail ev w)
      as (n1 & w1 & o & Hrun & Hh & Hen & Hpath & _ & _
          & [Hdb|[Hfile|Hlost]]); rewrite Hrun; cbn [fst].
    + destruct Hdb as (_ & _ & He & Hu & _). unfold off in Hoff.
      rewrite Hu, He in Hoff. discriminate.
    + destruct Hfile as (Hoff1 & Hins & Hquiet & r & Hr & Hout).
      destruct (Hquiet Hoff) as [Hnodb _].
      destruct (IH w1 Hoff1) as (n2 & w2 & Hrun2 & Hh2 & I2 & D2 & F2).
      exists (n1 ++ n2), w2.
      split; [exact Hrun2|].
      split; [rewrite Hh2, Hh, app_assoc; reflexivity|].
      split; [rewrite inserted_app, Hins, I2; reflexivity|].
      split; [rewrite db_attempts_app, Hnodb, D2; reflexivity|].
      rewrite file_attempts_app, map_app, Hr, F2, Hpath. reflexivity.
    + destruct Hlost as (Hu & He & _). unfold off in Hoff.
      rewrite Hu, He in Hoff. discriminate.
Qed.

(** X22: over any run of calls, from any state of the sink, by a caller
    that carries on after a call that raised, no record lands twice and
    the order is kept: the database stores the first [k] records and
    none after them, and the fallback file is handed every later record
    once, in order, at the one path fixed when the process started.  The
    record during whose call the database failed is handed to the file
    as well, unless the console refused a message of the handler: then
    that one record reaches neither the database nor the file. *)
Theorem records_land_once_in_order (events : list pyval) (w : world) :
  exists new k,
    snd (log_wipe_events E events w) = Ret tt
    /\ history (fst (log_wipe_events E events w)) = history w ++ new
    /\ stored_records new = firstn k events
    /\ (map fst (file_attempts new)
        = map (pair (log_path w)) (skipn k events)
        \/ ((k < List.length events)%nat
            /\ refused new <> []
            /\ map fst (file_attempts new)
               = map (pair (log_path w)) (skipn (S k) events))).
Proof.
  revert w. induction events as [|ev rest IH]; intros w.
  - exists [], 0%nat. cbn. rewrite app_nil_r. auto.
  - rewrite log_wipe_events_step.
    destruct (call_detail ev w)
      as (n1 & w1 & o & Hrun & Hh & Hen & Hpath & _ & _
          & [Hdb|[Hfile|Hlost]]); rewrite Hrun; cbn [fst].
    + destruct Hdb
        as (_ & _ & _ & _ & _ & (row & Hrow & Hof) & Hnofile & Hq).
      destruct (IH w1) as (n2 & k & Hret & Hh2 & Hst & Hfl).
      exists (n1 ++ n2), (S k).
      split; [exact Hret|].
      split; [rewrite Hh2, Hh, app_assoc; reflexivity|].
      split.
      * rewrite stored_records_app, Hst. unfold stored_records at 1.
        rewrite Hrow. cbn [map firstn app]. f_equal.
        pose proof (row_of_cases ev) as Hcase. rewrite Hof in Hcase.
        apply Hcase.
      * rewrite file_attempts_app, Hnofile, refused_app, Hq.
        cbn [app skipn List.length]. rewrite <- Hpath.
        destruct Hfl as [Hfl|(Hk & Href & Hfl)]; [left; exact Hfl|].
        right. split; [lia|]. split; [exact Href|exact Hfl].
    + destruct Hfile as (Hoff1 & Hins & _ & r & Hr & Hout).
      destruct (@off_run rest w1 Hoff1)
        as (n2 & w2 & Hrun2 & Hh2 & I2 & _ & F2).
      exists (n1 ++ n2), 0%nat.
      rewrite Hrun2. cbn [fst snd].
      split; [reflexivity|].
      split; [rewrite Hh2, Hh, app_assoc; reflexivity|].
      split.
      * unfold stored_records. rewrite inserted_app, Hins, I2. reflexivity.
      * left. rewrite file_attempts_app, map_app, Hr, F2, Hpath.
        reflexivity.
    + destruct Hlost as (_ & _ & Hoff1 & Hins & Hnofile & e & _ & Hq).
      destruct (@off_run rest w1 Hoff1)
        as (n2 & w2 & Hrun2 & Hh2 & I2 & _ & F2).
      exists (n1 ++ n2), 0%nat.
      rewrite Hrun2. cbn [fst snd].
      split; [reflexivity|].
      split; [rewrite Hh2, Hh, app_assoc; reflexivity|].
      split.
      * unfold stored_records. rewrite inserted_app, Hins, I2. reflexivity.
      * right. split; [cbn [List.length]; lia|].
        split.
        -- rewrite refused_app, Hq. discriminate.
        -- rewrite file_attempts_app, Hnofile. cbn [app skipn].
           rewrite F2, Hpath. reflexivity.
Qed.

(** X23: over any run of calls the sink attempts to connect to the
    database at most once, and not at all when it already holds a
    connection: a failed attempt is not retried, a connection made is
    kept.  A sink whose latch is cleared or whose database logger is
    disabled does nothing to the database. *)
Theorem connects_at_most_once (events : list pyval) (w : world) :
  exists new,
    history (fst (log_wipe_events E events w)) = history w ++ new
    /\ (connects new <= match _conn w with Some _ => 0 | None => 1 end)%nat
    /\ (if _use_db w && enabled w then True else db_attempts new = []).
Proof.
  revert w. induction events as [|ev rest IH]; intros w.
  - exists []. cbn. rewrite app_nil_r.
    repeat split; [destruct (_conn w); auto|now destruct (_ && _)].
  - destruct (call_detail ev w)
      as (n1 & w1 & o & Hrun & Hh & Hen & Hpath & Hc1 & Hkeep & Hcase).
    rewrite log_wipe_events_step, Hrun. cbn [fst].
    assert ((_use_db w = true /\ enabled w = true /\ _conn w1 <> None)
            \/ (off w1
                /\ (off w -> db_attempts n1 = []))) as [Hdb|Hoff].
    { destruct Hcase as [Hdb|[Hfile|Hlost]].
      - left. destruct Hdb as (_ & _ & He & Hu & Hsome & _). auto.
      - right. destruct Hfile as (Hoff1 & _ & Hquiet & _).
        split; [exact Hoff1|]. intros Hoff. now apply Hquiet.
      - right. destruct Hlost as (Hu & He & Hoff1 & _).
        split; [exact Hoff1|]. unfold off. rewrite Hu, He. discriminate. }
    + destruct Hdb as (Hu & He & Hsome).
      destruct (IH w1) as (n2 & Hh2 & Hc2 & _).
      exists (n1 ++ n2).
      split; [rewrite Hh2, Hh, app_assoc; reflexivity|].
      rewrite Hu, He. split; [|exact I].
      rewrite connects_app. destruct (_conn w1); [|contradiction]. lia.
    + destruct Hoff as (Hoff1 & Hquiet).
      destruct (@off_run rest w1 Hoff1)
        as (n2 & w2 & Hrun2 & Hh2 & _ & D2 & _).
      exists (n1 ++ n2). rewrite Hrun2. cbn [fst snd].
      split; [rewrite Hh2, Hh, app_assoc; reflexivity|].
      split.
      * rewrite connects_app, (@no_db_no_connects n2 D2). lia.
      * destruct (_use_db w && enabled w) eqn:Hon; [exact I|].
        rewrite db_attempts_app, (Hquiet Hon), D2. reflexivity.
Qed.

(** X24: a record the database logger cannot flatten (it is not a dict,
    or one of device_info, method_result, hdparm_before, hdparm_after is
    neither falsy nor a dict) is refused before anything is inserted,
    whatever the state of the database: the call clears the latch for
    good and stores no row.  When the call returns it has handed the
    record to the fallback file; it raises only what the console raised
    on a message of one of the two handlers, and then it has handed the
    record to the file and the append failed, or it never reached the
    fallback. *)
Theorem malformed_record_clears_latch (event : pyval) (w : world) :
  well_formed event = false ->
  _use_db w = true ->
  enabled w = true ->
  exists new,
    history (fst (log_wipe_event E event w)) = history w ++ new
    /\ _use_db (fst (log_wipe_event E event w)) = false
    /\ inserted new = []
    /\ match snd (log_wipe_event E event w) with
       | Ret _ => exists r, file_attempts new = [(log_path w, event, r)]
       | Raise e =>
           refused new = [e]
           /\ (file_attempts new = []
               \/ exists x,
                    file_attempts new = [(log_path w, event, Some x)])
       | Exit _ => False
       end.
Proof.
  intros Hbad Huse Hen.
  destruct (call_detail event w)
    as (new & w1 & o & Hrun & Hh & Hen1 & _ & _ & _
        & [Hdb|[Hfile|Hlost]]).
  - destruct Hdb as (_ & _ & _ & _ & _ & (row & _ & Hof) & _).
    pose proof (row_of_cases event) as Hcase. rewrite Hof in Hcase.
    destruct Hcase as [Hgood _]. congruence.
  - destruct Hfile as (Hoff1 & Hins & _ & r & Hr & Hout).
    exists new. rewrite Hrun. cbn [fst snd].
    split; [exact Hh|].
    split.
    { unfold off in Hoff1. rewrite Hen1, Hen, andb_true_r in Hoff1.
      exact Hoff1. }
    split; [exact Hins|].
    destruct Hout as [[-> _]|(e & -> & Hq & Hr')].
    + eauto.
    + split; [exact Hq|]. right.
      destruct r as [x|]; [eauto|contradiction].
  - destruct Hlost as (_ & _ & Hoff1 & Hins & Hnofile & e & -> & Hq).
    exists new. rewrite Hrun. cbn [fst snd].
    split; [exact Hh|].
    split.
    { unfold off in Hoff1. rewrite Hen1, Hen, andb_true_r in Hoff1.
      exact Hoff1. }
    split; [exact Hins|]. split; [exact Hq|]. now left.
Qed.

(** X25: whatever a call of [log_wipe_event] stores in the database is
    the flattened record: a row of 23 values whose last value is the
    record itself; and only a well-formed record is ever stored. *)
Theorem stored_row_is_flattened_record (event : pyval) (w : world) :
  exists new,
    history (fst (log_wipe_event E event w)) = history w ++ new
    /\ Forall (fun row => row_of event = Ret row
                          /\ List.length row = 23%nat
                          /\ last row VNone = event
                          /\ well_formed event = true)
         (inserted new).
Proof.
  destruct (call_detail event w)
    as (new & w1 & o & Hrun & Hh & _ & _ & _ & _
        & [Hdb|[Hfile|Hlost]]).
  - destruct Hdb as (_ & _ & _ & _ & _ & (row & Hrow & Hof) & _).
    exists new. rewrite Hrun. split; [exact Hh|].
    rewrite Hrow. constructor; [|constructor].
    pose proof (row_of_cases event) as Hcase. rewrite Hof in Hcase.
    destruct Hcase as (Hgood & Hlen & Hlast). auto.
  - destruct Hfile as (_ & Hins & _).
    exists new. rewrite Hrun. split; [exact Hh|].
    rewrite Hins. constructor.
  - destruct Hlost as (_ & _ & _ & Hins & _).
    exists new. rewrite Hrun. split; [exact Hh|].
    rewrite Hins. constructor.
Qed.

End SinkMoreFacts.

(* ===================================================================== *)
(** * The walk over the lsblk inventory *)
(* ===================================================================== *)

Section LsblkFacts.
Import Lsblk.

Lemma for_each_mono f g items : forall devices r,
  (forall b ds r', f b ds = Some r' -> g b ds = Some r') ->
  for_each f items devices = Some r -> for_each g items devices = Some r.
Proof.
  induction items as [|item rest IH]; intros devices r Hfg; cbn; auto.
  destruct (f item devices) as [[ds|e]|] eqn:Hf; [| |discriminate].
  - rewrite (Hfg _ _ _ Hf). apply IH, Hfg.
  - rewrite (Hfg _ _ _ Hf). auto.
Qed.

Lemma for_in_mono f g v devices r :
  (forall b ds r', f b ds = Some r' -> g b ds = Some r') ->
  for_in f v devices = Some r -> for_in g v devices = Some r.
Proof.
  intros Hfg. destruct v; cbn; auto. now apply for_each_mono.
Qed.

Lemma walk_mono fuel : forall block devices r,
  walk fuel block devices = Some r -> walk (S fuel) block devices = Some r.
Proof.
  induction fuel as [|fuel IH]; intros block devices r; [discriminate|].
  cbn [walk]. destruct block; auto.
  destruct (visit d devices); auto.
  apply for_in_mono. exact IH.
Qed.

Lemma walk_more fuel fuel' block devices r :
  fuel <= fuel' ->
  walk fuel block devices = Some r -> walk fuel' block devices = Some r.
Proof.
  induction 1 as [|fuel' _ IH]; auto. intros H. apply walk_mono, IH, H.
Qed.

Lemma depth_item c l : In c l -> S (depth c) <= depth (JArr l).
Proof.
  cbn [depth]. intros Hin. apply le_n_S.
  induction l as [|x l IH]; [contradiction|].
  cbn [fold_right]. destruct Hin as [->|Hin]; [lia|].
  specialize (IH Hin). lia.
Qed.

Lemma depth_get k d default :
  obj_get k d default = default
  \/ S (depth (obj_get k d default)) <= depth (JObj d).
Proof.
  cbn [depth].
  induction d as [|[k' v] d IH]; cbn [obj_get fold_right snd]; [now left|].
  destruct (str_eqb k k'); [right; lia|].
  destruct IH as [IH|IH]; [now left|right; lia].
Qed.

Lemma for_each_enough f items : forall devices,
  (forall c ds, In c items -> exists r, f c ds = Some r) ->
  exists r, for_each f items devices = Some r.
Proof.
  induction items as [|item rest IH]; intros devices Hf; cbn; eauto.
  destruct (Hf item devices (or_introl eq_refl)) as ([ds|e] & ->); eauto.
  apply IH. intros c ds' Hin. apply Hf. now right.
Qed.

Lemma for_in_enough f v devices :
  (forall c ds, S (depth c) <= depth v -> exists r, f c ds = Some r) ->
  exists r, for_in f v devices = Some r.
Proof.
  intros Hf. destruct v as [| | | |[|]|l|[|]]; cbn [for_in]; eauto.
  apply for_each_enough. intros c ds Hin. apply Hf.
  now apply depth_item.
Qed.

Lemma walk_enough fuel : forall block devices,
  depth block < fuel -> exists r, walk fuel block devices = Some r.
Proof.
  induction fuel as [|fuel IH]; intros block devices Hd; [lia|].
  cbn [walk]. destruct block; eauto.
  destruct (visit d devices); eauto.
  apply for_in_enough. intros c ds Hc. apply IH.
  assert (1 <= depth (JObj d)) as Hobj by (cbn [depth]; lia).
  destruct (depth_get (py "children") d (JArr [])) as [Heq|Hle].
  - rewrite Heq in Hc. cbn in Hc. lia.
  - destruct (json_truthy (obj_get (py "children") d (JArr []))); [lia|].
    cbn in Hc. lia.
Qed.

(** X26: the walk over the inventory ends, whatever the decoded
    document: the fuel given by the depth of the document suffices, and
    more fuel changes nothing. *)
Theorem drives_of_returns (data : json) :
  exists r,
    drives_of data = Some r
    /\ forall fuel, depth data <= fuel -> walk_blockdevices fuel data = Some r.
Proof.
  assert (exists r, drives_of data = Some r) as [r Hr].
  { unfold drives_of, walk_blockdevices. destruct data; eauto.
    apply for_in_enough. intros c ds Hc. apply walk_enough.
    assert (1 <= depth (JObj d)) as Hobj by (cbn [depth]; lia).
    destruct (depth_get (py "blockdevices") d (JArr [])) as [Heq|Hle].
    - rewrite Heq in Hc. cbn in Hc. lia.
    - lia. }
  exists r. split; [exact Hr|].
  intros fuel Hfuel. unfold drives_of, walk_blockdevices in *.
  destruct data; auto.
  eapply for_in_mono; [|exact Hr].
  intros b ds r'. now apply walk_more.
Qed.

Lemma for_each_keeps (P : list device -> Prop) f items : forall devices r,
  (forall c ds r', P ds -> f c ds = Some (Done r') -> P r') ->
  P devices -> for_each f items devices = Some (Done r) -> P r.
Proof.
  induction items as [|item rest IH]; intros devices r Hf HP; cbn.
  - now intros [= <-].
  - destruct (f item devices) as [[ds|e]|] eqn:Hitem; try discriminate.
    apply IH; [exact Hf|]. eapply Hf; eauto.
Qed.

Lemma for_in_keeps (P : list device -> Prop) f v devices r :
  (forall c ds r', P ds -> f c ds = Some (Done r') -> P r') ->
  P devices -> for_in f v devices = Some (Done r) -> P r.
Proof.
  intros Hf HP. destruct v as [| | | |[|]|l|[|]]; cbn [for_in];
    try discriminate; try (now intros [= <-]).
  now apply for_each_keeps.
Qed.

Lemma device_entry_shaped block name :
  match name with
  | JStr s => loop_or_ram s = false
  | other => json_truthy other = false
  end ->
  well_shaped (device_entry block name).
Proof.
  intros Hname. unfold well_shaped, device_entry.
  split; [reflexivity|]. split; [reflexivity|].
  change (obj_get (py "name") _ JNull) with name.
  destruct name; exact Hname.
Qed.

Lemma visit_keeps block devices :
  Forall well_shaped devices ->
  match visit block devices with
  | Fell ds | Returned ds => Forall well_shaped ds
  | Raised _ => True
  end.
Proof.
  intros Hall. unfold visit.
  destruct (is_text _ _); [|exact Hall].
  destruct (obj_get (py "name") block JNull) as [|b|z|zero shown|s|l|d] eqn:Hn;
    cbn [json_truthy].
  - apply Forall_app. split; [exact Hall|].
    constructor; [|constructor]. now apply device_entry_shaped.
  - destruct b; [exact I|].
    apply Forall_app. split; [exact Hall|].
    constructor; [|constructor]. now apply device_entry_shaped.
  - destruct (negb (z =? 0)%Z) eqn:Hz; [exact I|].
    apply Forall_app. split; [exact Hall|].
    constructor; [|constructor]. now apply device_entry_shaped.
  - destruct (negb zero) eqn:Hz; [exact I|].
    apply Forall_app. split; [exact Hall|].
    constructor; [|constructor]. now apply device_entry_shaped.
  - destruct s as [|c s].
    + apply Forall_app. split; [exact Hall|].
      constructor; [|constructor]. now apply device_entry_shaped.
    + destruct (loop_or_ram (c :: s)) eqn:Hl; [exact Hall|].
      apply Forall_app. split; [exact Hall|].
      constructor; [|constructor]. now apply device_entry_shaped.
  - destruct l; [|exact I].
    apply Forall_app. split; [exact Hall|].
    constructor; [|constructor]. now apply device_entry_shaped.
  - destruct d; [|exact I].
    apply Forall_app. split; [exact Hall|].
    constructor; [|constructor]. now apply device_entry_shaped.
Qed.

Lemma walk_keeps fuel : forall block devices r,
  Forall well_shaped devices ->
  walk fuel block devices = Some (Done r) -> Forall well_shaped r.
Proof.
  induction fuel as [|fuel IH]; intros block devices r Hall;
    [discriminate|].
  cbn [walk]. destruct block; try discriminate.
  pose proof (@visit_keeps d devices Hall) as Hvisit.
  destruct (visit d devices) as [ds|ds|e]; try discriminate.
  - apply for_in_keeps; [|exact Hvisit]. intros c ds0 r'. apply IH.
  - now intros [= <-].
Qed.

(** X27: every device [list_drives] returns is a dict with the six keys
    name, path, size, model, serial and transport, in this order; its
    path is "/dev/" followed by its name; and its name is a string that
    starts with neither "loop" nor "ram", or a falsy value. *)
Theorem listed_devices_well_shaped (data : json) (devices : list device) :
  drives_of data = Some (Done devices) ->
  Forall well_shaped devices.
Proof.
  unfold drives_of, walk_blockdevices. destruct data; try discriminate.
  apply for_in_keeps; [|constructor].
  intros c ds r'. apply walk_keeps.
Qed.

Lemma get_null_falsy k d :
  obj_get k d JNull = JNull -> json_truthy (obj_get k d (JArr [])) = false.
Proof.
  induction d as [|[k' v] d IH]; cbn [obj_get]; [reflexivity|].
  destruct (str_eqb k k'); [now intros ->|exact IH].
Qed.

Lemma walk_leaf fuel block devices :
  leaf_block block = true ->
  walk (S fuel) block devices
  = Some (Done (devices ++ if listed block then [entry_of block] else [])).
Proof.
  destruct block as [| | | | | |d]; try discriminate.
  unfold leaf_block, listed, entry_of. cbn [walk]. unfold visit.
  destruct (obj_get (py "type") d JNull) as [| | | |t| |]; try discriminate.
  destruct (obj_get (py "name") d JNull) as [| | | |s| |]; try discriminate.
  destruct (obj_get (py "children") d JNull) eqn:Hc; try discriminate.
  intros _. rewrite (@get_null_falsy (py "children") d Hc).
  destruct (is_text (py "disk") (JStr t)); cbn [andb for_in for_each].
  - destruct s as [|c s]; cbn [json_truthy]; [reflexivity|].
    destruct (loop_or_ram (c :: s)); cbn [negb for_in for_each];
      [now rewrite app_nil_r|reflexivity].
  - now rewrite app_nil_r.
Qed.

Lemma for_each_leaves fuel blocks : forall devices,
  forallb leaf_block blocks = true ->
  for_each (walk (S fuel)) blocks devices
  = Some (Done (devices ++ map entry_of (filter listed blocks))).
Proof.
  induction blocks as [|b blocks IH]; intros devices; cbn [forallb].
  - intros _. cbn. now rewrite app_nil_r.
  - intros Hall. apply andb_true_iff in Hall. destruct Hall as [Hb Hrest].
    cbn [for_each filter]. rewrite (@walk_leaf fuel b devices Hb).
    rewrite (IH _ Hrest). destruct (listed b); cbn [map].
    + now rewrite <- app_assoc.
    + now rewrite app_nil_r.
Qed.

(** X28: on a flat inventory, a list of blocks without children that
    carry a string under "type" and under "name", [list_drives] returns
    the blocks of type "disk" whose name starts with neither "loop" nor
    "ram", in the order of the inventory, each as its device dict;
    partitions and other types are left out. *)
Theorem flat_inventory_lists_disks (d : list (pystr * json))
    (blocks : list json) :
  obj_get (py "blockdevices") d (JArr []) = JArr blocks ->
  forallb leaf_block blocks = true ->
  drives_of (JObj d) = Some (Done (map entry_of (filter listed blocks))).
Proof.
  intros Hget Hleaf. unfold drives_of, walk_blockdevices.
  rewrite Hget. cbn [for_in].
  destruct (depth (JObj d)) as [|fuel] eqn:Hdepth; [discriminate|].
  now rewrite (@for_each_leaves fuel blocks [] Hleaf).
Qed.

End LsblkFacts.

(** X9, witness: three bytes sampled from a device holding five. *)
Lemma sample_hash_digests_prefix_witness :
  WipeCount.serves (MoreSamples.file_world MoreSamples.five_bytes)
    Samples.sdx MoreSamples.five_bytes
  /\ (0 < 3)%Z
  /\ snd (WipeDrive.sample_hash MoreSamples.byte_values
            (MoreSamples.file_world MoreSamples.five_bytes) Samples.sdx 3 [])
     = Ret (VStr (MoreSamples.byte_values
                    (firstn (Z.to_nat 3) MoreSamples.five_bytes))).
Proof.
  assert (WipeCount.serves (MoreSamples.file_world MoreSamples.five_bytes)
            Samples.sdx MoreSamples.five_bytes) as Hfile.
  { intros t. split; [reflexivity|]. intros n. reflexivity. }
  split; [exact Hfile|]. split; [lia|].
  apply (@sample_hash_digests_prefix MoreSamples.byte_values
           (MoreSamples.file_world MoreSamples.five_bytes) Samples.sdx
           MoreSamples.five_bytes 3 [] Hfile).
  lia.
Defined.

Example sample_of_five_bytes :
  snd (WipeDrive.sample_hash MoreSamples.byte_values
         (MoreSamples.file_world MoreSamples.five_bytes) Samples.sdx 3 [])
  = Ret (VStr [1; 2; 3]%N).
Proof. reflexivity. Qed.

(** X13, witness: an unattended dry run that samples four bytes. *)
Lemma do_wipe_samples_twice_witness :
  (0 < 4)%Z
  /\ let run :=
       WipeDrive.do_wipe Samples.caseless Samples.digest Samples.no_devices
         (Samples.world_returning 0 []) Samples.sdx Samples.ata None None 4
         true true [] in
     exists new,
       fst run = [] ++ new
       /\ Forall (fun call => call = (Samples.sdx, 4%Z))
            (WipeView.sampler_calls new)
       /\ (List.length (WipeView.sampler_calls new) <= 2)%nat
       /\ match snd run with
          | Ret _ => WipeView.sampler_calls new
                     = [(Samples.sdx, 4%Z); (Samples.sdx, 4%Z)]
          | _ => True
          end.
Proof.
  split; [lia|].
  apply (@do_wipe_samples_twice_alike Samples.caseless Samples.digest
           Samples.no_devices (Samples.world_returning 0 []) Samples.sdx
           Samples.ata None None 4 true true []).
  lia.
Defined.

(** X15, witness: a wipe of /dev/sdx where no device node exists. *)
Lemma do_wipe_missing_device_witness :
  WipeDrive.path_exists MoreSamples.world_without_devices [] Samples.sdx
  = false
  /\ WipeDrive.do_wipe Samples.caseless Samples.digest Samples.no_devices
       MoreSamples.world_without_devices Samples.sdx Samples.ata None None
       0 true false []
     = ([] ++ [WipeDrive.EvExists Samples.sdx false;
               WipeDrive.EvPrint WipeDrive.Stderr
                 [WipeDrive.Lit (py "[ERROR] Device ");
                  WipeDrive.Fmt (VStr Samples.sdx);
                  WipeDrive.Lit (py " does not exist.")] None],
        Exit 1).
Proof.
  split; [reflexivity|].
  apply (@do_wipe_missing_device_stops Samples.caseless Samples.digest
           Samples.no_devices MoreSamples.world_without_devices Samples.sdx
           Samples.ata None None 0 true false []).
  reflexivity.
Defined.

(** X16, witness: the operator answers "yes" in lower case. *)
Lemma do_wipe_declined_witness :
  let E := MoreSamples.world_answering (py " yes ") in
  WipeDrive.path_exists E [] Samples.sdx = true
  /\ WipeDrive.stdin_line E ([] ++ [WipeDrive.EvExists Samples.sdx true])
     = inl (py " yes ")
  /\ str_eqb (strip (py " yes ")) (py "YES") = false
  /\ exists prompt,
       WipeDrive.do_wipe Samples.caseless Samples.digest Samples.no_devices
         E Samples.sdx Samples.ata None None 0 false false []
       = ([] ++ [WipeDrive.EvExists Samples.sdx true;
                 WipeDrive.EvInput prompt (inl (py " yes "));
                 WipeDrive.EvPrint WipeDrive.Stdout
                   [WipeDrive.Lit (py "Aborted by user.")] None],
          Exit 0).
Proof.
  intros E. split; [reflexivity|]. split; [reflexivity|].
  split; [reflexivity|].
  apply (@do_wipe_declined_stops Samples.caseless Samples.digest
           Samples.no_devices E Samples.sdx Samples.ata None None 0 []
           (py " yes ")); reflexivity.
Defined.

(** X18, witness: the device is the second entry of the inventory; an
    entry without a path follows. *)
Lemma find_device_first_match_witness :
  Forall (fun d => exists v, dict_get (py "path") d = Some v
                             /\ v <> VStr Samples.sdx)
    [MoreSamples.sda_entry]
  /\ WipeDrive.find_device Samples.sdx [MoreSamples.sda_entry] = Ret VNone
  /\ forall d behind,
       dict_get (py "path") d = Some (VStr Samples.sdx) ->
       WipeDrive.find_device Samples.sdx
         ([MoreSamples.sda_entry] ++ d :: behind)
       = Ret (VDict d).
Proof.
  assert (Forall (fun d => exists v, dict_get (py "path") d = Some v
                                     /\ v <> VStr Samples.sdx)
            [MoreSamples.sda_entry]) as Hother.
  { constructor; [|constructor].
    exists (VStr (py "/dev/sda")). split; [reflexivity|discriminate]. }
  split; [exact Hother|].
  apply (@find_device_first_match Samples.sdx [MoreSamples.sda_entry]
           Hother).
Defined.

Example find_device_skips_to_match :
  WipeDrive.find_device Samples.sdx
    [MoreSamples.sda_entry; MoreSamples.sdx_entry;
     MoreSamples.pathless_entry]
  = Ret (VDict MoreSamples.sdx_entry).
Proof. reflexivity. Qed.

(** X19, witness: an entry without a path stands before the device. *)
Lemma find_device_missing_path_witness :
  Forall (fun d => exists v, dict_get (py "path") d = Some v
                             /\ v <> VStr Samples.sdx)
    [MoreSamples.sda_entry]
  /\ dict_get (py "path") MoreSamples.pathless_entry = None
  /\ WipeDrive.find_device Samples.sdx
       ([MoreSamples.sda_entry]
        ++ MoreSamples.pathless_entry :: [MoreSamples.sdx_entry])
     = Raise KeyError.
Proof.
  assert (Forall (fun d => exists v, dict_get (py "path") d = Some v
                                     /\ v <> VStr Samples.sdx)
            [MoreSamples.sda_entry]) as Hother.
  { constructor; [|constructor].
    exists (VStr (py "/dev/sda")). split; [reflexivity|discriminate]. }
  split; [exact Hother|]. split; [reflexivity|].
  apply (@find_device_missing_path_raises Samples.sdx
           [MoreSamples.sda_entry] MoreSamples.pathless_entry
           [MoreSamples.sdx_entry] Hother).
  reflexivity.
Defined.

(** hdparm prints the identity excerpt and returns 0: the dict holds the
    text under "raw". *)
Example get_hdparm_info_on_identity_text :
  let E := Samples.world_returning 0 MoreSamples.identify_text in
  exists d,
    WipeDrive.get_hdparm_info Samples.caseless E Samples.sdx []
    = ([WipeDrive.EvRun (WipeDrive.hdparm_identify_cmd Samples.sdx)
          (inl (WipeDrive.Build_CompletedProcess 0
                  MoreSamples.identify_text []))],
       Ret (VDict d))
    /\ dict_get (py "raw") d = Some (VStr MoreSamples.identify_text).
Proof. intros E. eexists. split; vm_compute; reflexivity. Qed.

(** hdparm prints bytes that are not text: the decoding error of
    [subprocess.run] comes out of [get_hdparm_info]. *)
Example get_hdparm_info_on_undecodable_output :
  WipeDrive.get_hdparm_info Samples.caseless MoreSamples.world_undecodable
    Samples.sdx []
  = ([WipeDrive.EvRun (WipeDrive.hdparm_identify_cmd Samples.sdx)
        (inr ValueError)],
     Raise ValueError).
Proof. reflexivity. Qed.

(** X21, witness: the drive refuses the password, so one command runs. *)
Lemma ata_secure_erase_journal_witness :
  let E := Samples.world_refusing_password in
  exists result,
    snd (WipeDrive.ata_secure_erase E Samples.sdx (py "p") [])
    = Ret result
    /\ exists new,
         fst (WipeDrive.ata_secure_erase E Samples.sdx (py "p") [])
         = [] ++ new
         /\ map WipeCount.step_journal (WipeView.steps_of result)
            = map WipeCount.run_journal (WipeView.runs_of new)
         /\ Forall (fun run => exists before,
                      WipeDrive.join_space (fst run)
                      = before ++ py " " ++ py "p" ++ py " " ++ Samples.sdx)
              (WipeView.runs_of new).
Proof.
  intros E. eexists. split; [reflexivity|].
  apply (@ata_secure_erase_steps_journal E Samples.sdx (py "p") []).
  reflexivity.
Defined.

(** X24, witness: [None] is logged while the database is healthy. *)
Lemma malformed_record_witness :
  let w := LoggingManager.initial_world true Samples.fallback_path in
  let run := LoggingManager.log_wipe_event Samples.healthy_db VNone w in
  SinkMore.well_formed VNone = false
  /\ LoggingManager._use_db w = true
  /\ LoggingManager.enabled w = true
  /\ exists new,
       LoggingManager.history (fst run) = LoggingManager.history w ++ new
       /\ LoggingManager._use_db (fst run) = false
       /\ SinkView.inserted new = []
       /\ match snd run with
          | Ret _ =>
              exists r,
                SinkView.file_attempts new
                = [(LoggingManager.log_path w, VNone, r)]
          | Raise e =>
              SinkView.refused new = [e]
              /\ (SinkView.file_attempts new = []
                  \/ exists x,
                       SinkView.file_attempts new
                       = [(LoggingManager.log_path w, VNone, Some x)])
          | Exit _ => False
          end.
Proof.
  intros w run. split; [reflexivity|]. split; [reflexivity|].
  split; [reflexivity|].
  apply (@malformed_record_clears_latch Samples.healthy_db VNone w);
    reflexivity.
Defined.

Example malformed_record_is_filed :
  snd (LoggingManager.log_wipe_event Samples.healthy_db VNone
         (LoggingManager.initial_world true Samples.fallback_path))
  = Ret tt.
Proof. reflexivity. Qed.

(** X27, witness: an inventory with a partitioned disk, a loop device
    typed as a disk, and an optical drive: the disk alone is listed. *)
Lemma listed_devices_witness :
  Lsblk.drives_of MoreSamples.inventory
  = Some (Lsblk.Done [MoreSamples.sda_device])
  /\ Forall Lsblk.well_shaped [MoreSamples.sda_device].
Proof.
  split; [reflexivity|].
  apply (@listed_devices_well_shaped MoreSamples.inventory
           [MoreSamples.sda_device]).
  reflexivity.
Defined.

(** X28, witness: a flat inventory of an optical drive, a USB disk and a
    RAM disk: the USB disk alone is listed. *)
Lemma flat_inventory_witness :
  let d := [(py "blockdevices", Lsblk.JArr MoreSamples.flat_blocks)] in
  Lsblk.obj_get (py "blockdevices") d (Lsblk.JArr [])
  = Lsblk.JArr MoreSamples.flat_blocks
  /\ forallb Lsblk.leaf_block MoreSamples.flat_blocks = true
  /\ Lsblk.drives_of (Lsblk.JObj d)
     = Some (Lsblk.Done
               (map Lsblk.entry_of
                  (filter Lsblk.listed MoreSamples.flat_blocks))).
Proof.
  intros d. split; [reflexivity|]. split; [reflexivity|].
  apply (@flat_inventory_lists_disks d MoreSamples.flat_blocks);
    reflexivity.
Defined.

Example flat_inventory_listing :
  map Lsblk.entry_of (filter Lsblk.listed MoreSamples.flat_blocks)
  = [MoreSamples.usb_device].
Proof. reflexivity. Qed.

(** A string under "children" is iterated by character, and a character
    has no [get]. *)
Example children_as_text_fail :
  Lsblk.drives_of
    (Lsblk.JObj
       [(py "blockdevices",
         Lsblk.JArr
           [Lsblk.JObj [(py "type", Lsblk.JStr (py "disk"));
                        (py "name", Lsblk.JStr (py "sda"));
                        (py "children", Lsblk.JStr (py "none"))]])])
  = Some (Lsblk.Failed Lsblk.NoAttribute).
Proof. reflexivity. Qed.
